(** * Automated Research Assistant: a shallow embedding of the workflow core

    The development follows the TypeScript sources:
    - [Js]         the string primitives of the language the code relies on
                   ([startsWith], [includes], [split], [replace], [trim],
                   [toLowerCase]) and a backtracking matcher for the regular
                   expression literals of the persona parser;
    - [Reporter]   [AutonomousReportGenerator] (persona parsing, report
                   assembly, the two document encoders, the workflow);
    - [Interview]  [InterviewGraphBuilder] (the five interview stages);
    - [Service]    [ReportService] (the run table and its operations);
    - [Routes]     the download route and the file search behind it.

    The modules are followed by the vocabulary of the statements and the
    inputs of the examples, and then by the properties.

    Strings are sequences of code units; the embedding takes code units
    below 256 (Latin-1), on which [trim], [\s] and [toLowerCase] are
    written out in full. *)

From Stdlib Require Import Ascii String List ZArith QArith Bool Lia.
From Stdlib Require Import DecimalString.
From stdpp Require Import gmap strings list.

Local Open Scope string_scope.
Local Open Scope list_scope.

(** ** Primitives of the source language *)
Module Js.

(** [s.startsWith(p)] *)
Fixpoint startsWith (s p : string) {struct p} : bool :=
  match p with
  | EmptyString => true
  | String c p' =>
      match s with
      | EmptyString => false
      | String d s' => if Ascii.eqb c d then startsWith s' p' else false
      end
  end.

(** [s.includes(p)] *)
Fixpoint includes (s p : string) {struct s} : bool :=
  startsWith s p ||
  match s with
  | EmptyString => false
  | String _ s' => includes s' p
  end.

(** [s.substring(n)] *)
Fixpoint substring (n : nat) (s : string) : string :=
  match n, s with
  | S k, String _ s' => substring k s'
  | _, _ => s
  end.

Definition rev_string (l : list ascii) : string :=
  string_of_list_ascii (rev l).

(** [s.split(sep)] for a non-empty separator: the pieces between the
    successive non-overlapping occurrences of [sep], scanning from the left.
    [skip] counts the code units of the occurrence being stepped over and
    [cur] holds the piece being read, last code unit first. *)
Fixpoint split_aux (sep : string) (skip : nat) (cur : list ascii) (s : string)
  : list string :=
  match s with
  | EmptyString => [rev_string cur]
  | String c s' =>
      match skip with
      | S k => split_aux sep k cur s'
      | O =>
          if startsWith s sep
          then rev_string cur :: split_aux sep (String.length sep - 1) [] s'
          else split_aux sep 0 (c :: cur) s'
      end
  end.

Definition split (s sep : string) : list string := split_aux sep 0 [] s.

(** [l.join(sep)] *)
Fixpoint join (sep : string) (l : list string) : string :=
  match l with
  | [] => ""
  | [x] => x
  | x :: l' => x +:+ sep +:+ join sep l'
  end.

(** [s.replace(pat, rep)] with a string pattern: the first occurrence only. *)
Fixpoint replace (s pat rep : string) {struct s} : string :=
  if startsWith s pat then rep +:+ substring (String.length pat) s
  else match s with
       | EmptyString => ""
       | String c s' => String c (replace s' pat rep)
       end.

(** White space and line terminators below 256: TAB, LF, VT, FF, CR, SP and
    NBSP.  This is the set [trim] strips and [\s] matches. *)
Definition isSpace (c : ascii) : bool :=
  let n := nat_of_ascii c in
  ((9 <=? n) && (n <=? 13) || (n =? 32) || (n =? 160))%nat.

Fixpoint trimStart (s : string) : string :=
  match s with
  | String c s' => if isSpace c then trimStart s' else s
  | EmptyString => ""
  end.

Fixpoint dropWhileSpace (l : list ascii) : list ascii :=
  match l with
  | c :: l' => if isSpace c then dropWhileSpace l' else l
  | [] => []
  end.

Definition trimEnd (s : string) : string :=
  rev_string (dropWhileSpace (rev (list_ascii_of_string s))).

(** [s.trim()] *)
Definition trim (s : string) : string := trimEnd (trimStart s).

(** [s.toLowerCase()] on code units below 256: A-Z and the accented capitals
    0xC0-0xDE (0xD7, the multiplication sign, apart) move up by 32. *)
Definition lowerChar (c : ascii) : ascii :=
  let n := nat_of_ascii c in
  if ((65 <=? n) && (n <=? 90) ||
      (192 <=? n) && (n <=? 222) && negb (n =? 215))%nat
  then ascii_of_nat (n + 32) else c.

Fixpoint toLowerCase (s : string) : string :=
  match s with
  | EmptyString => ""
  | String c s' => String (lowerChar c) (toLowerCase s')
  end.

(** [s.substring(0, n)] *)
Fixpoint substringTo (n : nat) (s : string) : string :=
  match n, s with
  | S k, String c s' => String c (substringTo k s')
  | _, _ => ""
  end.

(** Truthiness of a string, and [a || b] on strings. *)
Definition truthy (s : string) : bool :=
  match s with EmptyString => false | _ => true end.

Definition orElse (a b : string) : string := if truthy a then a else b.

(** A value that may be [undefined]: [None] is [undefined]. *)
Definition orElseU (a : option string) (b : string) : string :=
  match a with
  | Some s => orElse s b
  | None => b
  end.

Definition LF : string := String (ascii_of_nat 10) "".

(** *** Regular expressions

    The regular expression literals of the sources use literals, character
    classes, sequencing, the greedy quantifiers [*] and [+], [^] and [\b].
    [matches r p] lists the positions at which a match of [r] started at [p]
    can end, in the order in which a backtracking matcher tries them; its
    head is the match the language reports. *)
Inductive regex : Type :=
| Lit (c : ascii)
| Class (f : ascii -> bool)
| Seq (r1 r2 : regex)
| Star (r : regex)
| Plus (r : regex)
| Bol
| WordB.

(** A position in the subject: the code unit before it ([None] at the start
    of the subject) and the code units from it on. *)
Record pos : Type := Pos { before : option ascii; rest : list ascii }.

Definition isDigit (c : ascii) : bool :=
  let n := nat_of_ascii c in ((48 <=? n) && (n <=? 57))%nat.
Definition isUpper (c : ascii) : bool :=
  let n := nat_of_ascii c in ((65 <=? n) && (n <=? 90))%nat.
Definition isLower (c : ascii) : bool :=
  let n := nat_of_ascii c in ((97 <=? n) && (n <=? 122))%nat.
(** [\w] *)
Definition isWord (c : ascii) : bool :=
  isUpper c || isLower c || isDigit c || Ascii.eqb c "_"%char.

Definition isWordOpt (c : option ascii) : bool :=
  match c with Some c => isWord c | None => false end.

(** With the [i] flag two code units match when they have the same case
    folding; below 256 that is having the same lower-case form. *)
Definition eqChar (icase : bool) (c d : ascii) : bool :=
  if icase then Ascii.eqb (lowerChar c) (lowerChar d) else Ascii.eqb c d.

(** Greedy iteration of [step]: one more round first, then stopping here.
    A round that consumes nothing is rejected, as the language does, so the
    rounds are at most as many as the code units left and [fuel], which
    starts above that number, is never used up. *)
Fixpoint star (step : pos -> list pos) (fuel : nat) (p : pos) : list pos :=
  match fuel with
  | O => [p]
  | S f =>
      flat_map (fun p' =>
                  if (length (rest p') <? length (rest p))%nat
                  then star step f p' else [])
               (step p) ++ [p]
  end.

Fixpoint matches (icase : bool) (r : regex) (p : pos) : list pos :=
  match r with
  | Lit c =>
      match rest p with
      | d :: l => if eqChar icase c d then [Pos (Some d) l] else []
      | [] => []
      end
  | Class f =>
      match rest p with
      | d :: l => if f d then [Pos (Some d) l] else []
      | [] => []
      end
  | Seq r1 r2 => flat_map (matches icase r2) (matches icase r1 p)
  | Star r0 => star (matches icase r0) (S (length (rest p))) p
  | Plus r0 =>
      flat_map (fun p' => star (matches icase r0) (S (length (rest p'))) p')
               (matches icase r0 p)
  | Bol => match before p with None => [p] | Some _ => [] end
  | WordB =>
      if xorb (isWordOpt (before p)) (isWordOpt (head (rest p)))
      then [p] else []
  end.

Definition matchAt (icase : bool) (r : regex) (b : option ascii)
    (s : list ascii) : option pos :=
  head (matches icase r (Pos b s)).

(** [re.test(s)] or the truth value of [s.match(re)]: is there a match
    starting anywhere in [s]? *)
Fixpoint test_aux (icase : bool) (r : regex) (b : option ascii)
    (s : list ascii) : bool :=
  match matchAt icase r b s with
  | Some _ => true
  | None =>
      match s with
      | [] => false
      | c :: s' => test_aux icase r (Some c) s'
      end
  end.

Definition test (icase : bool) (r : regex) (s : string) : bool :=
  test_aux icase r None (list_ascii_of_string s).

(** [s.replace(re, rep)] without the [g] flag: the leftmost match only. *)
Fixpoint replaceRe_aux (icase : bool) (r : regex) (rep : list ascii)
    (b : option ascii) (s : list ascii) : list ascii :=
  match matchAt icase r b s with
  | Some p' => rep ++ rest p'
  | None =>
      match s with
      | [] => []
      | c :: s' => c :: replaceRe_aux icase r rep (Some c) s'
      end
  end.

Definition replaceRe (icase : bool) (r : regex) (s rep : string) : string :=
  string_of_list_ascii
    (replaceRe_aux icase r (list_ascii_of_string rep) None
       (list_ascii_of_string s)).

(** [s.match(re)] with the [g] flag: all the matches, left to right, each
    search resuming where the previous match ended (one code unit further
    after an empty match).  [skip] counts the code units of the last match
    still to be stepped over. *)
Fixpoint matchAll_aux (icase : bool) (r : regex) (skip : nat)
    (b : option ascii) (s : list ascii) : list string :=
  match skip with
  | S k =>
      match s with
      | [] => []
      | c :: s' => matchAll_aux icase r k (Some c) s'
      end
  | O =>
      match matchAt icase r b s with
      | Some p' =>
          let n := (length s - length (rest p'))%nat in
          string_of_list_ascii (firstn n s) ::
          match s with
          | [] => []
          | c :: s' => matchAll_aux icase r (n - 1) (Some c) s'
          end
      | None =>
          match s with
          | [] => []
          | c :: s' => matchAll_aux icase r 0 (Some c) s'
          end
      end
  end.

Definition matchAll (icase : bool) (r : regex) (s : string) : list string :=
  matchAll_aux icase r 0 None (list_ascii_of_string s).

(** [s.replace(re, rep)] with the [g] flag. *)
Fixpoint replaceAll_aux (icase : bool) (r : regex) (rep : list ascii)
    (skip : nat) (b : option ascii) (s : list ascii) : list ascii :=
  match skip with
  | S k =>
      match s with
      | [] => []
      | c :: s' => replaceAll_aux icase r rep k (Some c) s'
      end
  | O =>
      match matchAt icase r b s with
      | Some p' =>
          let n := (length s - length (rest p'))%nat in
          rep ++
          match s with
          | [] => []
          | c :: s' =>
              (if (n =? 0)%nat then [c] else []) ++
              replaceAll_aux icase r rep (n - 1) (Some c) s'
          end
      | None =>
          match s with
          | [] => []
          | c :: s' => c :: replaceAll_aux icase r rep 0 (Some c) s'
          end
      end
  end.

Definition replaceAllRe (icase : bool) (r : regex) (s rep : string) : string :=
  string_of_list_ascii
    (replaceAll_aux icase r (list_ascii_of_string rep) 0 None
       (list_ascii_of_string s)).

(** A word of the pattern, letter by letter. *)
Fixpoint lits (s : string) (k : regex) : regex :=
  match s with
  | EmptyString => k
  | String c s' => Seq (Lit c) (lits s' k)
  end.

(** [[...new Set(l)]]: the first occurrence of every element, in order. *)
Fixpoint dedup_aux (seen : list string) (l : list string) : list string :=
  match l with
  | [] => []
  | x :: l' =>
      if existsb (String.eqb x) seen then dedup_aux seen l'
      else x :: dedup_aux (x :: seen) l'
  end.

Definition dedup (l : list string) : list string := dedup_aux [] l.

(** The decimal form of a number in a template string. *)
Definition showNat (n : nat) : string :=
  NilZero.string_of_uint (Nat.to_uint n).

End Js.

(** ** Collaborators and effects

    The language model and the web search are outside the program.  A
    computation carries the list of the calls made to them so far, and a
    [World] answers a call from that list and the arguments, so that nothing
    is assumed about the answers, not even that equal questions get equal
    answers.  A computation ends with a value or with a thrown error. *)
Module Effect.

(** The error class of [utils/exceptions]: [new ResearchAnalystException(m,
    cause)] is an error whose [message] is the string [m].  The class does
    not keep its second argument; it is recorded here as what the error was
    built from.  [Fault] stands for every other thrown value (a provider or
    transport error, a [TypeError] of the runtime). *)
Inductive Exn : Type :=
| Fault (message : string)
| ResearchAnalystException (message : string) (cause : Exn).

Definition message_of (e : Exn) : string :=
  match e with
  | Fault m => m
  | ResearchAnalystException m _ => m
  end.

Inductive MessageKind : Type := SystemMessage | HumanMessage | AIMessage.

(** A chat message; [msg_role] is its [role] property, which only some
    messages have. *)
Record Message : Type := mkMessage {
  msg_kind : MessageKind;
  msg_role : option string;
  msg_content : string
}.

Definition system (content : string) : Message :=
  mkMessage SystemMessage None content.
Definition human (content : string) : Message :=
  mkMessage HumanMessage None content.

(** A search result; both properties may be missing. *)
Record Doc : Type := mkDoc { url : option string; doc_content : option string }.

Inductive Call : Type :=
| LlmCall (messages : list Message)
| SearchCall (query : string).

(** [llm.invoke] and [tavilySearch.invoke]: an answer or a thrown error; the
    search may also answer [null] or [undefined] ([None]). *)
Record World : Type := mkWorld {
  llm : list Call -> list Message -> Exn + Message;
  tavilySearch : list Call -> string -> Exn + option (list Doc)
}.

Definition M (A : Type) : Type := list Call -> (Exn + A) * list Call.

Definition ret {A} (a : A) : M A := fun h => (inr a, h).

Definition throw {A} (e : Exn) : M A := fun h => (inl e, h).

Definition bind {A B} (m : M A) (k : A -> M B) : M B :=
  fun h =>
    match m h with
    | (inr a, h') => k a h'
    | (inl e, h') => (inl e, h')
    end.

#[global] Instance M_ret : MRet M := @ret.
#[global] Instance M_bind : MBind M := fun A B k m => bind m k.

(** [try { m } catch (error) { handler }] *)
Definition try_catch {A} (m : M A) (handler : Exn -> M A) : M A :=
  fun h =>
    match m h with
    | (inr a, h') => (inr a, h')
    | (inl e, h') => handler e h'
    end.

Definition llm_invoke (W : World) (messages : list Message) : M Message :=
  fun h =>
    (llm W h messages, h ++ [LlmCall messages]).

Definition search_invoke (W : World) (query : string)
  : M (option (list Doc)) :=
  fun h =>
    (tavilySearch W h query, h ++ [SearchCall query]).

(** The methods of the [Logger] class.  Calling one of them writes a log
    entry and has no other effect; calling a property the class does not
    have throws the runtime's [TypeError]. *)
Definition Logger_methods : list string := ["info"; "error"; "warn"; "debug"].

Definition logger (method : string) : M unit :=
  if existsb (String.eqb method) Logger_methods then ret tt
  else throw (Fault ("TypeError: this.logger." +:+ method +:+ " is not a function")).

End Effect.

(** ** The report generator *)
Module Reporter.
Import Js.

(** *** Personas *)
Record Analyst : Type := mkAnalyst {
  name : string;
  role : string;
  affiliation : string;
  description : string
}.

(** [Partial<Analyst>]: a property is absent ([None]) or present with a
    value that is a string or [undefined] ([Some None]). *)
Record PartialAnalyst : Type := mkPartial {
  p_name : option (option string);
  p_role : option (option string);
  p_affiliation : option (option string);
  p_description : option (option string)
}.

Definition emptyPartial : PartialAnalyst := mkPartial None None None None.

(** The value read from a property: [undefined] when it is absent. *)
Definition get (f : option (option string)) : option string :=
  match f with Some v => v | None => None end.

Definition truthyU (v : option string) : bool :=
  match v with Some s => truthy s | None => false end.

(** [Object.keys(a).length] *)
Definition keys (a : PartialAnalyst) : nat :=
  length (filter (fun f => is_Some f)
            [p_name a; p_role a; p_affiliation a; p_description a]).

Definition completeAnalyst (analyst : PartialAnalyst) : Analyst :=
  {| name := orElseU (get (p_name analyst)) "Unknown Analyst";
     role := orElseU (get (p_role analyst)) "Research Analyst";
     affiliation := orElseU (get (p_affiliation analyst)) "AI Research Institute";
     description :=
       orElseU (get (p_description analyst))
         (orElseU (get (p_name analyst)) "This analyst" +:+
          " provides expert analysis on the topic.") |}.

(** [/\b([A-Z][a-z]+(?:\s+[A-Z][a-z]+)+)\b/g] *)
Definition capitalized : regex := Seq (Class isUpper) (Plus (Class isLower)).
Definition nameRegex : regex :=
  Seq WordB
    (Seq (Seq capitalized (Plus (Seq (Plus (Class isSpace)) capitalized)))
       WordB).

Definition fallbackAnalyst (uniqueNames : list string) (i : nat) : Analyst :=
  let name := orElseU (uniqueNames !! i) ("Analyst " +:+ showNat (i + 1)) in
  {| name := name;
     role := if (i =? 0)%nat then "Senior Economist"
             else if (i =? 1)%nat then "Data Analyst"
             else "Research Analyst";
     affiliation := if (i =? 0)%nat then "Reserve Bank"
                    else if (i =? 1)%nat then "Research Institute"
                    else "AI Analytics";
     description :=
       name +:+ " provides expert analysis and insights on the topic." |}.

Definition createAnalystsFromContent (content : string) : list Analyst :=
  let nameMatches := matchAll false nameRegex content in
  let uniqueNames := take 3 (dedup nameMatches) in
  map (fallbackAnalyst uniqueNames) (seq 0 (Nat.max (length uniqueNames) 3)).

(** [/^\*\s*/], [/\*\*/g] and [/^analyst\s*\d*:/i] *)
Definition bulletRe : regex := Seq Bol (Seq (Lit "*") (Star (Class isSpace))).
Definition boldRe : regex := Seq (Lit "*") (Lit "*").
Definition analystRe : regex :=
  Seq Bol
    (lits "analyst"
       (Seq (Star (Class isSpace)) (Seq (Star (Class isDigit)) (Lit ":")))).

(** [cleanLine.split(':')[1]?.trim()] *)
Definition afterColon (cleanLine : string) : option string :=
  trim <$> (split cleanLine ":" !! 1%nat).

(** The flush at the start of a new record. *)
Definition flush (analysts : list Analyst) (currentAnalyst : PartialAnalyst)
  : list Analyst :=
  if truthyU (get (p_name currentAnalyst)) && (1 <? keys currentAnalyst)%nat
  then analysts ++ [completeAnalyst currentAnalyst]
  else analysts.

(** One round of the loop over the lines. *)
Definition parseLine (st : list Analyst * PartialAnalyst) (line : string)
  : list Analyst * PartialAnalyst :=
  let '(analysts, currentAnalyst) := st in
  let trimmedLine := trim line in
  let cleanLine :=
    trim (replaceAllRe false boldRe (replaceRe false bulletRe trimmedLine "") "") in
  let lower := toLowerCase cleanLine in
  if startsWith lower "name:" then
    (flush analysts currentAnalyst,
     mkPartial (Some (Some (orElseU (afterColon cleanLine) "Unknown Analyst")))
       None None None)
  else if startsWith lower "role:" then
    (analysts,
     mkPartial (p_name currentAnalyst) (Some (afterColon cleanLine))
       (p_affiliation currentAnalyst) (p_description currentAnalyst))
  else if startsWith lower "affiliation:" then
    (analysts,
     mkPartial (p_name currentAnalyst) (p_role currentAnalyst)
       (Some (afterColon cleanLine)) (p_description currentAnalyst))
  else if startsWith lower "description:" then
    (analysts,
     mkPartial (p_name currentAnalyst) (p_role currentAnalyst)
       (p_affiliation currentAnalyst) (Some (afterColon cleanLine)))
  else if test true analystRe lower then
    (flush analysts currentAnalyst,
     mkPartial (Some (Some (orElseU (afterColon cleanLine) cleanLine)))
       None None None)
  else st.

Definition parseAnalystsFromResponse (content : string) : list Analyst :=
  let lines := split content LF in
  let '(analysts, currentAnalyst) := fold_left parseLine lines ([], emptyPartial) in
  let analysts :=
    if truthyU (get (p_name currentAnalyst))
    then analysts ++ [completeAnalyst currentAnalyst]
    else analysts in
  if (length analysts =? 0)%nat then createAnalystsFromContent content
  else analysts.

(** *** Report assembly *)

Definition SEPARATOR : string := LF +:+ LF +:+ "---" +:+ LF +:+ LF.

(** The first step of [finalizeReport]: a leading "## Insights" heading is
    removed and what is left is trimmed. *)
Definition stripInsights (content : string) : string :=
  if startsWith content "## Insights"
  then trim (replace content "## Insights" "")
  else content.

(** The second step: the sources are split off when the heading line occurs
    exactly once; [sources] stays [null] ([None]) otherwise. *)
Definition splitSources (content : string) : string * option string :=
  if includes content "## Sources" then
    match split content (LF +:+ "## Sources" +:+ LF) with
    | [p0; p1] => (p0, Some p1)
    | _ => (content, None)
    end
  else (content, None).

(** [finalizeReport(content, introduction, conclusion)]; the [try] around the
    body catches nothing, none of the operations can throw. *)
Definition finalizeReport (content introduction conclusion : string) : string :=
  let content := stripInsights content in
  let '(content, sources) := splitSources content in
  let finalReport := "" in
  let finalReport :=
    if truthy introduction then finalReport +:+ introduction +:+ SEPARATOR
    else finalReport in
  let finalReport := finalReport +:+ content in
  let finalReport :=
    if truthy conclusion then finalReport +:+ SEPARATOR +:+ conclusion
    else finalReport in
  match sources with
  | Some src =>
      if truthy src then finalReport +:+ LF +:+ LF +:+ "## Sources" +:+ LF +:+ src
      else finalReport
  | None => finalReport
  end.

(** *** Document export

    Both encoders read the report line by line.  What reaches the file is
    modelled by what each encoder hands to its library: the paragraphs of the
    DOCX document, and the page breaks and positioned, styled pieces of text
    of the PDF document. *)
Inductive HeadingLevel : Type := HEADING_1 | HEADING_2 | HEADING_3.

Inductive Paragraph : Type :=
| HeadingPara (text : string) (heading : HeadingLevel)
| TextRunPara (text : string).

(** The body of the loop of [saveAsDocx]. *)
Definition docxParagraph (line : string) : Paragraph :=
  if startsWith line "# " then HeadingPara (substring 2 line) HEADING_1
  else if startsWith line "## " then HeadingPara (substring 3 line) HEADING_2
  else if startsWith line "### " then HeadingPara (substring 4 line) HEADING_3
  else TextRunPara line.

Definition saveAsDocx (text : string) : list Paragraph :=
  let paragraphs := filter (fun line => trim line <> "") (split text LF) in
  map docxParagraph paragraphs.

Inductive Font : Type := Helvetica | HelveticaBold.

(** [doc.addPage()], and [doc.text(s, x, y)] with the size and font set just
    before it. *)
Inductive PdfOp : Type :=
| AddPage
| Text (size : Z) (font : Font) (s : string) (x y : Q).

Definition lineHeight : Q := 15.
Definition pageHeight : Q := 792.
Definition bottomMargin : Q := 50.

(** [a > b] on numbers.  The cursor only takes the values 50 + 15 i + 22.5 j +
    19.5 k + 18 l, which floating point represents and adds exactly, so
    rational arithmetic gives the values the code computes. *)
Definition gt (a b : Q) : bool := negb (Qle_bool a b).

Section Pdf.

(** [doc.widthOfString], the measure of the PDF library for the body font
    (11 point Helvetica, the font in force at both calls). *)
Variable widthOfString : string -> Q.

(** The wrapping loop over the words of a long body line: the pieces drawn,
    the line being filled and the cursor. *)
Fixpoint wrapWords (words : list string) (currentLine : string) (y : Q)
  : list PdfOp * string * Q :=
  match words with
  | [] => ([], currentLine, y)
  | word :: words' =>
      let testLine :=
        if truthy currentLine then currentLine +:+ " " +:+ word else word in
      if gt (widthOfString testLine) 500 then
        let '(ops, cl, y') := wrapWords words' word (y + lineHeight)%Q in
        (Text 11 Helvetica currentLine 50 y :: ops, cl, y')
      else wrapWords words' testLine y
  end.

Definition drawBody (line : string) (y : Q) : list PdfOp * Q :=
  if gt (widthOfString line) 500 then
    let '(ops, currentLine, y) := wrapWords (split line " ") "" y in
    if truthy currentLine
    then (ops ++ [Text 11 Helvetica currentLine 50 y], (y + lineHeight)%Q)
    else (ops, y)
  else ([Text 11 Helvetica line 50 y], (y + lineHeight)%Q).

(** The page-break test at the head of the loop body. *)
Definition newPage (y : Q) : list PdfOp * Q :=
  if gt y (pageHeight - bottomMargin) then ([AddPage], 50%Q) else ([], y).

(** The body of the loop of [saveAsPdf]: what one line adds to the document
    and where it leaves the cursor. *)
Definition pdfLine (y : Q) (rawLine : string) : list PdfOp * Q :=
  let line := trim rawLine in
  if negb (truthy line) then ([], (y + lineHeight)%Q)
  else
    let '(brk, y) := newPage y in
    let '(ops, y) :=
      if startsWith line "# " then
        ([Text 16 HelveticaBold (substring 2 line) 50 y], (y + lineHeight * 1.5)%Q)
      else if startsWith line "## " then
        ([Text 13 HelveticaBold (substring 3 line) 50 y], (y + lineHeight * 1.3)%Q)
      else if startsWith line "### " then
        ([Text 11 HelveticaBold (substring 4 line) 50 y], (y + lineHeight * 1.2)%Q)
      else drawBody line y in
    (brk ++ ops, y).

Fixpoint pdfLines (y : Q) (lines : list string) : list PdfOp * Q :=
  match lines with
  | [] => ([], y)
  | rawLine :: lines' =>
      let '(ops, y) := pdfLine y rawLine in
      let '(ops', y) := pdfLines y lines' in
      (ops ++ ops', y)
  end.

Definition saveAsPdf (text : string) : list PdfOp :=
  fst (pdfLines 50 (split text LF)).

End Pdf.

(** The classification an encoder gives a line, read off its output. *)
Inductive LineClass : Type := Heading1 | Heading2 | Heading3 | BodyLine.

Definition paragraphClass (p : Paragraph) : LineClass :=
  match p with
  | HeadingPara _ HEADING_1 => Heading1
  | HeadingPara _ HEADING_2 => Heading2
  | HeadingPara _ HEADING_3 => Heading3
  | TextRunPara _ => BodyLine
  end.

(** Headings are drawn in bold at 16, 13 and 11 points, the body in the
    regular face. *)
Definition styleClass (size : Z) (font : Font) : LineClass :=
  match font with
  | Helvetica => BodyLine
  | HelveticaBold =>
      if (size =? 16)%Z then Heading1
      else if (size =? 13)%Z then Heading2
      else Heading3
  end.

Fixpoint firstText (ops : list PdfOp) : option LineClass :=
  match ops with
  | [] => None
  | AddPage :: ops' => firstText ops'
  | Text size font _ _ _ :: _ => Some (styleClass size font)
  end.

(** The class of one line of the input under each encoder; [None] for a line
    that produces no paragraph, or no text.  [saveAsDocx] keeps the lines
    [trim] does not empty and hands each to [docxParagraph]; [saveAsPdf]
    hands each line to [pdfLine]. *)
Definition docxClass (rawLine : string) : option LineClass :=
  if decide (trim rawLine <> "")
  then Some (paragraphClass (docxParagraph rawLine))
  else None.

Definition pdfClass (widthOfString : string -> Q) (rawLine : string)
  : option LineClass :=
  firstText (fst (pdfLine widthOfString 50 rawLine)).

(** *** The workflow *)
Section Workflow.
Import Effect.

Variable W : World.

(** The prompt templates of [prompts/promptTemplates], which are not among
    the sources. *)
Variable CREATE_ANALYSTS_PROMPT : string -> Z -> string -> string.
Variable REPORT_WRITER_INSTRUCTIONS : string -> string.
Variable INTRO_CONCLUSION_INSTRUCTIONS : string -> string -> string.

Record CreateAnalystsInput : Type := mkInput {
  in_topic : string;
  in_max_analysts : Z;
  in_human_analyst_feedback : option string
}.

Definition createAnalysts (input : CreateAnalystsInput) : M (list Analyst) :=
  let topic := in_topic input in
  let max_analysts := in_max_analysts input in
  let human_analyst_feedback :=
    match in_human_analyst_feedback input with Some f => f | None => "" end in
  try_catch
    (let systemPrompt :=
       CREATE_ANALYSTS_PROMPT topic max_analysts human_analyst_feedback in
     response ← llm_invoke W
                   [system systemPrompt; human "Generate the set of analysts."];
     ret (parseAnalystsFromResponse (msg_content response)))
    (fun error => throw (ResearchAnalystException "Failed to create analysts" error)).

(** [writeReport] pushes a placeholder into an empty [sections]; the array is
    the caller's, so the sections come back with the report. *)
Definition writeReport (sections : list string) (topic : string)
  : M (string * list string) :=
  try_catch
    (let sections :=
       if (length sections =? 0)%nat
       then sections ++
            ["No sections generated — please verify interview stage."]
       else sections in
     let systemPrompt := REPORT_WRITER_INSTRUCTIONS topic in
     report ← llm_invoke W
                 [system systemPrompt; human (join (LF +:+ LF) sections)];
     ret (msg_content report, sections))
    (fun error => throw (ResearchAnalystException "Failed to write main report" error)).

Definition writeIntroduction (sections : list string) (topic : string)
  : M string :=
  try_catch
    (let formattedSections := join (LF +:+ LF) sections in
     let systemPrompt := INTRO_CONCLUSION_INSTRUCTIONS topic formattedSections in
     intro ← llm_invoke W
                [system systemPrompt; human "Write the report introduction"];
     ret (msg_content intro))
    (fun error => throw (ResearchAnalystException "Failed to generate introduction" error)).

Definition writeConclusion (sections : list string) (topic : string)
  : M string :=
  try_catch
    (let formattedSections := join (LF +:+ LF) sections in
     let systemPrompt := INTRO_CONCLUSION_INSTRUCTIONS topic formattedSections in
     conclusion ← llm_invoke W
                     [system systemPrompt; human "Write the report conclusion"];
     ret (msg_content conclusion))
    (fun error => throw (ResearchAnalystException "Failed to generate conclusion" error)).

Record WorkflowResult : Type := mkResult {
  r_thread_id : string;
  r_analysts : list Analyst;
  r_sections : list string;
  r_final_report : string
}.

(** The mock section written for an analyst. *)
Definition mockSection (analyst : Analyst) : string :=
  "## Section: " +:+ name analyst +:+ LF +:+
  "Analysis from " +:+ role analyst +:+ " at " +:+ affiliation analyst +:+ "." +:+
  LF +:+ LF +:+ description analyst +:+ LF +:+ LF +:+
  "Mock interview content would go here.".

(** [executeWorkflow(topic, maxAnalysts, feedback?)]; [threadId] is the
    identifier it draws from the clock and the random generator. *)
Definition executeWorkflow (threadId : string) (topic : string)
    (maxAnalysts : Z) (feedback : option string) : M WorkflowResult :=
  try_catch
    (analysts ← createAnalysts
                   (mkInput topic maxAnalysts (Some (orElseU feedback "")));
     let sections := map mockSection analysts in
     cs ← writeReport sections topic;
     let '(content, sections) := cs in
     introduction ← writeIntroduction sections topic;
     conclusion ← writeConclusion sections topic;
     let finalReport := finalizeReport content introduction conclusion in
     ret (mkResult threadId analysts sections finalReport))
    (fun error => throw (ResearchAnalystException "Workflow execution failed" error)).

End Workflow.

(** *** The persona text

    The getter [persona] of [AnalystModel] in the schemas. *)
Definition persona (a : Analyst) : string :=
  "Name: " +:+ name a +:+ LF +:+
  "Role: " +:+ role a +:+ LF +:+
  "Affiliation: " +:+ affiliation a +:+ LF +:+
  "Description: " +:+ description a +:+ LF.

(** *** The names of the saved files

    [saveReport] builds the name of the folder and of the file from the topic
    and the clock; [iso] is [new Date().toISOString()] and [rootDir] the
    folder [generated_report] of the project.  Writing the file is the
    encoders' part. *)
Inductive Format : Type := docx | pdf.

Definition formatName (format : Format) : string :=
  match format with docx => "docx" | pdf => "pdf" end.

(** The character classes of the two replacements: a colon or a dot, and
    the characters a file name must not hold (backslash, slash, star,
    question mark, colon, double quote, angle brackets, bar). *)
Definition isColonOrDot (c : ascii) : bool :=
  Ascii.eqb c ":" || Ascii.eqb c ".".

Definition isUnsafe (c : ascii) : bool :=
  existsb (Ascii.eqb c)
    ["\"; "/"; "*"; "?"; ":"; ascii_of_nat 34; "<"; ">"; "|"]%char.

Definition timestampOf (iso : string) : string :=
  default ""
    (head (split (replace (replaceAllRe false (Class isColonOrDot) iso "_")
                    "T" "_") ".")).

Definition baseNameOf (topic iso : string) : string :=
  let timestamp := timestampOf iso in
  let safeTopic := replaceAllRe false (Class isUnsafe) topic "_" in
  replaceAllRe false (Lit " ") safeTopic "_" +:+ "_" +:+ timestamp.

(** The last segment of the path, and the path [saveReport] returns. *)
Definition fileNameOf (topic iso : string) (format : Format) : string :=
  baseNameOf topic iso +:+ "." +:+ formatName format.

Definition saveReport_filePath (rootDir topic iso : string) (format : Format)
  : string :=
  let baseName := baseNameOf topic iso in
  let reportFolder := rootDir +:+ "/" +:+ baseName in
  reportFolder +:+ "/" +:+ fileNameOf topic iso format.

End Reporter.





(** ** The interview graph *)
Module Interview.
Import Js Effect Reporter.

(** The analyst of an interview: the persona fields and the optional
    [persona] text of the schema. *)
Record InterviewAnalyst : Type := mkInterviewAnalyst {
  ia_analyst : Analyst;
  ia_persona : option string
}.

Record InterviewState : Type := mkState {
  messages : list Message;
  max_num_turns : Z;
  context : option (list string);
  analyst : InterviewAnalyst;
  interview : string;
  sections : list string
}.

(** [Partial<InterviewState>], what a node returns. *)
Record Update : Type := mkUpdate {
  u_messages : option (list Message);
  u_context : option (list string);
  u_interview : option string;
  u_sections : option (list string)
}.

Definition noUpdate : Update := mkUpdate None None None None.

Definition DQUOTE : string := String (ascii_of_nat 34) "".

Definition NO_RESULTS : string := "[No search results found.]".

Section Nodes.

Variable W : World.

(** The prompt templates, which are not among the sources. *)
Variable ANALYST_ASK_QUESTIONS : string -> string.
Variable GENERATE_SEARCH_QUERY : string.
Variable GENERATE_ANSWERS : string -> string -> string.
Variable WRITE_SECTION : string -> string.

Definition generateQuestion (state : InterviewState) : M Update :=
  let analyst := analyst state in
  let messages := messages state in
  try_catch
    (logger "info";;
     let systemPrompt := ANALYST_ASK_QUESTIONS (orElseU (ia_persona analyst) "") in
     question ← llm_invoke W (system systemPrompt :: messages);
     logger "info";;
     mret (mkUpdate (Some [question]) None None None))
    (fun error =>
       logger "error";;
       throw (ResearchAnalystException "Failed to generate analyst question" error)).

Definition formatDoc (doc : Doc) : string :=
  "<Document href=" +:+ DQUOTE +:+ orElseU (url doc) "#" +:+ DQUOTE +:+ "/>" +:+
  LF +:+ orElseU (doc_content doc) "" +:+ LF +:+ "</Document>".

Definition searchWeb (state : InterviewState) : M Update :=
  try_catch
    (logger "info";;
     let searchPrompt := GENERATE_SEARCH_QUERY in
     searchQueryResponse ← llm_invoke W (system searchPrompt :: messages state);
     let searchQuery := msg_content searchQueryResponse in
     logger "info";;
     searchDocs ← search_invoke W searchQuery;
     match searchDocs with
     | None | Some [] =>
         logger "warning";;
         mret (mkUpdate None (Some [NO_RESULTS]) None None)
     | Some docs =>
         let formatted :=
           join (LF +:+ LF +:+ "---" +:+ LF +:+ LF) (map formatDoc docs) in
         logger "info";;
         mret (mkUpdate None (Some [formatted]) None None)
     end)
    (fun error =>
       logger "error";;
       throw (ResearchAnalystException "Failed during web search execution" error)).

(** [state.context?.join('\n') || '[No context available.]'] *)
Definition contextText (state : InterviewState) : string :=
  orElseU (join LF <$> context state) "[No context available.]".

Definition generateAnswer (state : InterviewState) : M Update :=
  let analyst := analyst state in
  let messages := messages state in
  let context := contextText state in
  try_catch
    (logger "info";;
     let systemPrompt :=
       GENERATE_ANSWERS (orElseU (ia_persona analyst) "") context in
     answer ← llm_invoke W (system systemPrompt :: messages);
     let expertAnswer :=
       mkMessage (msg_kind answer) (Some "expert") (msg_content answer) in
     logger "info";;
     mret (mkUpdate (Some [expertAnswer]) None None None))
    (fun error =>
       logger "error";;
       throw (ResearchAnalystException "Failed to generate expert answer" error)).

Definition saveInterview (state : InterviewState) : M Update :=
  try_catch
    (let messages := messages state in
     let interview :=
       join LF (map (fun msg => orElseU (msg_role msg) "unknown" +:+ ": " +:+
                                msg_content msg) messages) in
     logger "info";;
     mret (mkUpdate None None (Some interview) None))
    (fun error =>
       logger "error";;
       throw (ResearchAnalystException "Failed to save interview transcript" error)).

Definition writeSection (state : InterviewState) : M Update :=
  let context := contextText state in
  let analyst := analyst state in
  try_catch
    (logger "info";;
     let systemPrompt := WRITE_SECTION (description (ia_analyst analyst)) in
     section ← llm_invoke W
                 [system systemPrompt;
                  human ("Use this source to write your section: " +:+ context)];
     logger "info";;
     mret (mkUpdate None None None (Some [msg_content section])))
    (fun error =>
       logger "error";;
       throw (ResearchAnalystException "Failed to generate report section" error)).

(** The graph [build] compiles: five nodes on one path, entered at
    [ask_question] and left after [write_section]. *)
Definition nodes : list (string * (InterviewState -> M Update)) :=
  [("ask_question", generateQuestion);
   ("search_web", searchWeb);
   ("generate_answer", generateAnswer);
   ("save_interview", saveInterview);
   ("write_section", writeSection)].

(** How the graph library folds a node's update into the state, as the data
    model of the specification has it: the sequences accumulate, the
    transcript is replaced. *)
Definition applyUpdate (state : InterviewState) (u : Update) : InterviewState :=
  mkState
    (messages state ++ default [] (u_messages u))
    (max_num_turns state)
    (match u_context u with
     | Some c => Some (default [] (context state) ++ c)
     | None => context state
     end)
    (analyst state)
    (default (interview state) (u_interview u))
    (sections state ++ default [] (u_sections u)).

(** A run of the graph: the nodes in order, each on the state the previous
    ones left; a thrown error ends the run. *)
Fixpoint runNodes (ns : list (string * (InterviewState -> M Update)))
    (state : InterviewState) : M InterviewState :=
  match ns with
  | [] => mret state
  | (_, node) :: ns' =>
      u ← node state;
      runNodes ns' (applyUpdate state u)
  end.

Definition runInterview (state : InterviewState) : M InterviewState :=
  runNodes nodes state.

End Nodes.

End Interview.

(** ** The search tool of the model loader *)
Module Loader.
Import Js Effect.

(** What the tool of [createMockSearchTool] answers; [loadSearchTool] returns
    that tool when the key of the search provider is missing. *)
Definition mockSearch (query : string) : list Doc :=
  [mkDoc (Some "https://example.com/source1")
     (Some ("Mock content for query: " +:+ Interview.DQUOTE +:+ query +:+
            Interview.DQUOTE +:+
            ". This is placeholder data. In production, you need a valid Tavily API key."));
   mkDoc (Some "https://example.com/source2")
     (Some "Additional mock content demonstrating search functionality.")].

(** A world searched with the mock tool. *)
Definition withMockSearch (llm : list Call -> list Message -> Exn + Message)
  : World :=
  mkWorld llm (fun _ query => inr (Some (mockSearch query))).

End Loader.

(** ** The report service

    The service keeps the runs in a table keyed by thread identifier.  Its
    operations are asynchronous; the embedding follows them from one
    suspension point to the next.  An event is the start of an operation, the
    completion of the [await] on the report generator inside
    [executeWorkflow], or the resumption of a [submitFeedback] whose
    [executeWorkflow] has finished.  Between two events the code runs without
    interruption.  [getReportStatus] reads the table when it is called and
    never writes it, so it is one event; the files it saves are outside the
    table and come with the event. *)
Module Service.
Import Js Effect Reporter.

Inductive Status : Type := in_progress | completed | error.

#[global] Instance Status_eq_dec : EqDecision Status.
Proof. solve_decision. Defined.

(** A stored run.  The properties a run may lack are options. *)
Record Workflow : Type := mkWorkflow {
  thread_id : string;
  topic : string;
  max_analysts : Z;
  status : Status;
  start_time : nat;
  feedback : option string;
  analysts : option (list Analyst);
  sections : option (list string);
  final_report : option string;
  error_message : option string;
  end_time : option nat
}.

Record ApiResponse (T : Type) : Type := mkResponse {
  success : bool;
  data : option T;
  resp_error : option string;
  resp_message : option string
}.
Arguments mkResponse {T} _ _ _ _.
Arguments success {T} _.
Arguments data {T} _.
Arguments resp_error {T} _.
Arguments resp_message {T} _.

Record StartReportData : Type := mkStartData { sd_thread_id : string }.

Record ReportStatusData : Type := mkStatusData {
  rs_status : Status;
  rs_thread_id : string;
  rs_docx_path : option string;
  rs_pdf_path : option string;
  rs_final_report : option string;
  rs_error : option string
}.

(** A call of [executeWorkflow] suspended on the report generator: its
    arguments, and whether a [submitFeedback] awaits it. *)
Record Task : Type := mkTask {
  t_thread : string;
  t_topic : string;
  t_max : Z;
  t_awaited : bool
}.

Record State : Type := mkService {
  workflows : gmap string Workflow;
  tasks : list Task;
  resuming : list string
}.

Definition initial : State := mkService ∅ [] [].

Inductive Event : Type :=
(** [startReportGeneration(topic, maxAnalysts)] is called; [threadId] is the
    identifier [uuidv4()] returns and [now] the clock. *)
| StartReportGeneration (threadId topic : string) (maxAnalysts : Z) (now : nat)
(** [submitFeedback(threadId, feedback)] is called. *)
| SubmitFeedback (threadId feedback : string)
(** The report generator finishes for the [i]-th suspended task, in the
    world [W]; [reporterThread] is the identifier the generator drew. *)
| Finish (i : nat) (W : World) (reporterThread : string) (now : nat)
(** The [j]-th [submitFeedback] whose execution has finished resumes. *)
| Resume (j : nat)
(** [getReportStatus(threadId)] is called; [saved] is how saving the two
    files goes if it comes to that: the two paths, or a thrown error. *)
| GetReportStatus (threadId : string) (saved : Exn + string * string).

Inductive Output : Type :=
| StartReturned (r : ApiResponse StartReportData)
| FeedbackReturned (threadId : string) (r : ApiResponse unit)
| StatusReturned (threadId : string) (r : ApiResponse ReportStatusData).

Section Steps.

Variable CREATE_ANALYSTS_PROMPT : string -> Z -> string -> string.
Variable REPORT_WRITER_INSTRUCTIONS : string -> string.
Variable INTRO_CONCLUSION_INSTRUCTIONS : string -> string -> string.

(** [this.reporter.executeWorkflow(topic, maxAnalysts)] as [executeWorkflow]
    calls it: two arguments, the third parameter is left [undefined]. *)
Definition reporterRun (W : World) (reporterThread : string) (t : Task)
  : (Exn + WorkflowResult) * list Call :=
  Reporter.executeWorkflow W CREATE_ANALYSTS_PROMPT REPORT_WRITER_INSTRUCTIONS
    INTRO_CONCLUSION_INSTRUCTIONS reporterThread (t_topic t) (t_max t) None [].

(** The two writes that end [executeWorkflow]:
    [{...old, ...result, status: 'completed', end_time}] and
    [{...old, status: 'error', error: error.message, end_time}]. *)
Definition completedWith (old : Workflow) (result : WorkflowResult) (now : nat)
  : Workflow :=
  mkWorkflow (r_thread_id result) (topic old) (max_analysts old) completed
    (start_time old) (feedback old) (Some (r_analysts result))
    (Some (r_sections result)) (Some (r_final_report result))
    (error_message old) (Some now).

Definition failedWith (old : Workflow) (e : Exn) (now : nat) : Workflow :=
  mkWorkflow (thread_id old) (topic old) (max_analysts old) error
    (start_time old) (feedback old) (analysts old) (sections old)
    (final_report old) (Some (message_of e)) (Some now).

(** [workflow.feedback = feedback] *)
Definition withFeedback (w : Workflow) (fb : string) : Workflow :=
  mkWorkflow (thread_id w) (topic w) (max_analysts w) (status w)
    (start_time w) (Some fb) (analysts w) (sections w) (final_report w)
    (error_message w) (end_time w).

(** What [getReportStatus] answers for a stored run. *)
Definition reportStatus (workflow : Workflow) (threadId : string)
    (saved : Exn + string * string) : ApiResponse ReportStatusData :=
  if bool_decide (status workflow = completed) &&
     truthyU (final_report workflow)
  then
    match saved with
    | inr (docxPath, pdfPath) =>
        mkResponse true
          (Some (mkStatusData completed threadId (Some docxPath)
                   (Some pdfPath) (final_report workflow) None))
          None None
    | inl e => mkResponse false None (Some (message_of e)) None
    end
  else
    mkResponse true
      (Some (mkStatusData (status workflow) threadId None None None
               (error_message workflow)))
      None None.

(** One event.  [None] when the event cannot occur in the state: a task or
    a resumption that is not there, or an identifier for a new run that is
    in the table already, which [uuidv4()] does not draw. *)
Definition step (s : State) (e : Event) : option (State * list Output) :=
  match e with
  | StartReportGeneration threadId topic maxAnalysts now =>
      match workflows s !! threadId with
      | Some _ => None
      | None =>
          let w := mkWorkflow threadId topic maxAnalysts in_progress now
                     None None None None None None in
          Some (mkService (<[threadId := w]> (workflows s))
                  (tasks s ++ [mkTask threadId topic maxAnalysts false])
                  (resuming s),
                [StartReturned
                   (mkResponse true (Some (mkStartData threadId)) None
                      (Some "Pipeline initiated successfully."))])
      end
  | SubmitFeedback threadId fb =>
      match workflows s !! threadId with
      | None =>
          Some (s,
                [FeedbackReturned threadId
                   (mkResponse false None
                      (Some ("Workflow with thread_id " +:+ threadId +:+
                             " not found")) None)])
      | Some workflow =>
          let workflow := withFeedback workflow fb in
          Some (mkService (<[threadId := workflow]> (workflows s))
                  (tasks s ++
                   [mkTask threadId (topic workflow) (max_analysts workflow) true])
                  (resuming s),
                [])
      end
  | Finish i W reporterThread now =>
      t ← tasks s !! i;
      old ← workflows s !! t_thread t;
      let w :=
        match fst (reporterRun W reporterThread t) with
        | inr result => completedWith old result now
        | inl e => failedWith old e now
        end in
      Some (mkService (<[t_thread t := w]> (workflows s))
              (delete i (tasks s))
              (if t_awaited t then resuming s ++ [t_thread t] else resuming s),
            [])
  | Resume j =>
      threadId ← resuming s !! j;
      Some (mkService (workflows s) (tasks s) (delete j (resuming s)),
            [FeedbackReturned threadId
               (mkResponse true None None
                  (Some "Feedback processed successfully"))])
  | GetReportStatus threadId saved =>
      match workflows s !! threadId with
      | None =>
          Some (s,
                [StatusReturned threadId
                   (mkResponse false None
                      (Some ("Workflow with thread_id " +:+ threadId +:+
                             " not found")) None)])
      | Some workflow =>
          Some (s, [StatusReturned threadId (reportStatus workflow threadId saved)])
      end
  end.

(** The states the service can be in. *)
Inductive reachable : State -> Prop :=
| reach_initial : reachable initial
| reach_step s e s' out :
    reachable s -> step s e = Some (s', out) -> reachable s'.

(** A sequence of events from a state: the final state and, for every
    event, the state it led to and what it returned. *)
Fixpoint run (s : State) (es : list Event)
  : option (State * list (State * list Output)) :=
  match es with
  | [] => Some (s, [])
  | e :: es' =>
      '(s', out) ← step s e;
      '(s'', tr) ← run s' es';
      Some (s'', (s', out) :: tr)
  end.

Definition statusOf (s : State) (threadId : string) : option Status :=
  status <$> workflows s !! threadId.

End Steps.

End Service.

(** ** The download route *)
Module Routes.
Import Js.

#[local] Set Warnings "-register-all".

(** The file system under the output root.  [data = None] is a file that
    cannot be read, [items = None] a directory that cannot be listed and
    [Dangling] an entry [statSync] fails on; each makes the call throw. *)
Inductive Node : Type :=
| File (name : string) (data : option string)
| Dir (name : string) (items : option (list Node))
| Dangling (name : string).

Definition nodeName (n : Node) : string :=
  match n with
  | File name _ => name
  | Dir name _ => name
  | Dangling name => name
  end.

(** A path, component by component ([path.join] adds one at the end). *)
Definition Path : Type := list string.

(** The calls made to the file system. *)
Inductive FsCall : Type :=
| ExistsSync (p : Path)
| ReaddirSync (p : Path)
| StatSync (p : Path)
| ReadFileSync (p : Path).

(** A result or a thrown error, with the calls made. *)
Definition Fs (A : Type) : Type := option A * list FsCall.

(** The loop of [findFile] over the entries of [dir]; [find] is the
    recursive call on a subdirectory. *)
Definition scanItems (find : Path -> Node -> Fs (list Path)) (dir : Path)
    (fileName : string) : list Node -> Fs (list Path) :=
  fix loop (items : list Node) : Fs (list Path) :=
    match items with
    | [] => (Some [], [])
    | item :: items' =>
        let fullPath := dir ++ [nodeName item] in
        match item with
        | Dangling _ => (None, [StatSync fullPath])
        | Dir _ _ =>
            match find fullPath item with
            | (Some found, calls) =>
                let '(r, calls') := loop items' in
                ((fun others => found ++ others) <$> r,
                 StatSync fullPath :: ExistsSync fullPath :: calls ++ calls')
            | (None, calls) =>
                (None, StatSync fullPath :: ExistsSync fullPath :: calls)
            end
        | File item_name _ =>
            let '(r, calls') := loop items' in
            ((fun others =>
                (if String.eqb item_name fileName then [fullPath] else [])
                ++ others) <$> r,
             StatSync fullPath :: calls')
        end
    end.

(** [findFile(dir, fileName)] on a directory that exists: [node] is what is
    at [dir]. *)
Fixpoint findFileAt (dir : Path) (node : Node) (fileName : string)
  : Fs (list Path) :=
  match node with
  | Dir _ (Some items) =>
      let '(r, calls) :=
        scanItems (fun p n => findFileAt p n fileName) dir fileName items in
      (r, ReaddirSync dir :: calls)
  | _ => (None, [ReaddirSync dir])
  end.

(** [findFile(dir, fileName)] at the output root, which may not exist. *)
Definition findFile (dir : Path) (root : option Node) (fileName : string)
  : Fs (list Path) :=
  match root with
  | None => (Some [], [ExistsSync dir])
  | Some node =>
      let '(r, calls) := findFileAt dir node fileName in
      (r, ExistsSync dir :: calls)
  end.

(** The entry of a directory with a given name. *)
Fixpoint pick (c : string) (items : list Node) : option Node :=
  match items with
  | [] => None
  | item :: items' =>
      if String.eqb (nodeName item) c then Some item else pick c items'
  end.

(** The node a path leads to from [node]. *)
Fixpoint resolve (node : Node) (p : Path) : option Node :=
  match p with
  | [] => Some node
  | c :: p' =>
      match node with
      | Dir _ (Some items) =>
          match pick c items with
          | Some item => resolve item p'
          | None => None
          end
      | _ => None
      end
  end.

Definition reportDir : Path := ["generated_report"].

(** [fs.readFileSync(p)] for a path under the output root. *)
Definition readFileSync (root : option Node) (p : Path) : Fs string :=
  (match root with
   | Some node =>
       match resolve node (drop (length reportDir) p) with
       | Some (File _ (Some d)) => Some d
       | _ => None
       end
   | None => None
   end, [ReadFileSync p]).

(** [downloadFile(fileName)]: the contents, or [null] also when anything
    throws. *)
Definition downloadFile (root : option Node) (fileName : string) : Fs string :=
  match findFile reportDir root fileName with
  | (Some (p :: _), calls) =>
      let '(r, calls') := readFileSync root p in (r, calls ++ calls')
  | (Some [], calls) => (None, calls)
  | (None, calls) => (None, calls)
  end.

(** [path.extname] of a name without separators: from the last dot on,
    unless that dot is missing or opens the name. *)
Fixpoint lastDot (s : string) : option string :=
  match s with
  | EmptyString => None
  | String c s' =>
      match lastDot s' with
      | Some e => Some e
      | None => if Ascii.eqb c "."%char then Some s else None
      end
  end.

Definition extname (fileName : string) : string :=
  match fileName with
  | EmptyString => ""
  | String _ s' => default "" (lastDot s')
  end.

Inductive Response : Type :=
| Redirect (location : string)
| Json (code : Z) (error : string)
| Send (contentType disposition body : string).

Definition hasBody (r : Response) : bool :=
  match r with Send _ _ _ => true | _ => false end.

(** [res.setHeader(name, value)] of the runtime throws a [TypeError] when
    the value holds a code unit other than TAB, 0x20-0x7E and 0x80-0xFF;
    [headerError name] is the message of that error. *)
Definition validHeaderChar (c : ascii) : bool :=
  let n := nat_of_ascii c in
  ((n =? 9) || (32 <=? n) && (n <=? 126) || (128 <=? n))%nat.

Fixpoint validHeaderValue (value : string) : bool :=
  match value with
  | EmptyString => true
  | String c value' => validHeaderChar c && validHeaderValue value'
  end.

Definition headerError (name : string) : string :=
  "Invalid character in header content [" +:+ String (ascii_of_nat 34) "" +:+
  name +:+ String (ascii_of_nat 34) "" +:+ "]".

(** The two headers of the handler: [contentType] from the extension of the
    name, and the value of [Content-Disposition]. *)
Definition contentType (fileName : string) : string :=
  let ext := toLowerCase (extname fileName) in
  if String.eqb ext ".pdf" then "application/pdf"
  else if String.eqb ext ".docx"
  then "application/vnd.openxmlformats-officedocument.wordprocessingml.document"
  else "application/octet-stream".

Definition contentDisposition (fileName : string) : string :=
  "attachment; filename=" +:+ String (ascii_of_nat 34) "" +:+
  fileName +:+ String (ascii_of_nat 34) "".

(** The handler of [GET /download/:fileName]; [authed] is [checkAuth(req)]
    and [root] what is at the output root.  Inside the [try] only setting
    the [Content-Disposition] header can throw; the [catch] answers with the
    status 500 and the message of the error. *)
Definition download (authed : bool) (root : option Node) (fileName : string)
  : Response * list FsCall :=
  if negb authed then (Redirect "/", [])
  else if negb (truthy fileName) || includes fileName ".." || includes fileName "/"
  then (Json 400 "Invalid file name", [])
  else
    match downloadFile root fileName with
    | (None, calls) => (Json 404 ("File " +:+ fileName +:+ " not found"), calls)
    | (Some fileBuffer, calls) =>
        if validHeaderValue (contentDisposition fileName)
        then (Send (contentType fileName) (contentDisposition fileName)
                fileBuffer, calls)
        else (Json 500 (headerError "Content-Disposition"), calls)
    end.

(** The induction principle of [Node], through the lists of entries. *)
Section NodeInduction.

Variable P : Node -> Prop.
Hypothesis P_file : forall name data, P (File name data).
Hypothesis P_dangling : forall name, P (Dangling name).
Hypothesis P_unreadable : forall name, P (Dir name None).
Hypothesis P_dir :
  forall name items, List.Forall P items -> P (Dir name (Some items)).

Fixpoint Node_induction (n : Node) : P n :=
  match n with
  | File name data => P_file name data
  | Dangling name => P_dangling name
  | Dir name None => P_unreadable name
  | Dir name (Some items) =>
      P_dir name items
        ((fix all (l : list Node) : List.Forall P l :=
            match l with
            | [] => @List.Forall_nil Node P
            | x :: l' => @List.Forall_cons Node P x l' (Node_induction x) (all l')
            end) items)
  end.

End NodeInduction.

(** *** Sessions

    The routes keep the sessions in a table from session identifier to user
    name.  A page is modelled by the name of its template, the error it
    shows and the status of the answer. *)
Inductive Reply : Type :=
| Redirected (location : string) (cookie : option string)
| Rendered (code : Z) (template : string) (error : option string).

(** [checkAuth(req)]; [cookie] is [req.cookies?.session_id]. *)
Definition checkAuth (sessions : gmap string string) (cookie : option string)
  : bool :=
  match cookie with
  | Some sessionId =>
      if truthy sessionId then bool_decide (is_Some (sessions !! sessionId))
      else false
  | None => false
  end.

(** The body of a form: [None] when there is no body to take the fields
    from, which makes the handler throw; a field may be missing. *)
Definition Form : Type := option (option string * option string).

(** [POST /login]; [now] is [Date.now()]. *)
Definition login (sessions : gmap string string) (body : Form) (now : nat)
  : gmap string string * Reply :=
  match body with
  | None => (sessions, Rendered 500 "login.html" (Some "Login failed"))
  | Some (username, password) =>
      if bool_decide (username = Some "admin") &&
         bool_decide (password = Some "admin123")
      then
        let sessionId := "admin" +:+ "_" +:+ showNat now in
        (<[sessionId := "admin"]> sessions,
         Redirected "/dashboard" (Some sessionId))
      else
        (sessions,
         Rendered 200 "login.html" (Some "Invalid username or password"))
  end.

(** [POST /signup] *)
Definition signup (body : Form) : Reply :=
  match body with
  | None => Rendered 500 "signup.html" (Some "Signup failed")
  | Some (username, password) =>
      if negb (Reporter.truthyU username) || negb (Reporter.truthyU password)
      then Rendered 200 "signup.html" (Some "Username and password are required")
      else if (72 <? String.length (default "" password))%nat
      then Rendered 200 "signup.html" (Some "Password cannot exceed 72 characters")
      else Redirected "/" None
  end.

(** The requests that reach the session table. *)
Inductive Request : Type :=
| PostLogin (body : Form) (now : nat)
| PostSignup (body : Form).

Definition serve (sessions : gmap string string) (r : Request)
  : gmap string string * Reply :=
  match r with
  | PostLogin body now => login sessions body now
  | PostSignup body => (sessions, signup body)
  end.

Definition serveAll (rs : list Request) : gmap string string :=
  fold_left (fun sessions r => fst (serve sessions r)) rs ∅.

(** [fullPath.split('/').pop() || ''], the name the feedback page is given
    for a saved file. *)
Definition lastSegment (fullPath : string) : string :=
  orElseU (last (split fullPath "/")) "".

Section Handlers.

Variable CREATE_ANALYSTS_PROMPT : string -> Z -> string -> string.
Variable REPORT_WRITER_INSTRUCTIONS : string -> string.
Variable INTRO_CONCLUSION_INSTRUCTIONS : string -> string -> string.

(** [POST /generate_report] on the service: [authed] is [checkAuth(req)],
    [topic] the field of the form, [threadId] and [now] what the service
    draws for the new run. *)
Definition generateReport (authed : bool) (topic : option string)
    (threadId : string) (now : nat) (s : Service.State)
  : option (Service.State * Reply) :=
  if negb authed then Some (s, Redirected "/" None)
  else if negb (Reporter.truthyU topic) ||
          String.eqb (trim (default "" topic)) ""
  then Some (s, Rendered 400 "dashboard.html" (Some "Please enter a topic"))
  else
    '(s', out) ← Service.step CREATE_ANALYSTS_PROMPT REPORT_WRITER_INSTRUCTIONS
                   INTRO_CONCLUSION_INSTRUCTIONS s
                   (Service.StartReportGeneration threadId (default "" topic)
                      3 now);
    match out with
    | [Service.StartReturned result] =>
        let failed (message : string) :=
          Rendered 500 "dashboard.html"
            (Some ("Failed to generate report: " +:+ message)) in
        if negb (Service.success result)
        then Some (s', failed (orElseU (Service.resp_error result)
                                 "Failed to generate report"))
        else
          match Service.data result with
          | Some d =>
              if truthy (Service.sd_thread_id d)
              then Some (s', Rendered 200 "report_progress.html" None)
              else Some (s', failed "Invalid response from report service")
          | None => Some (s', failed "Invalid response from report service")
          end
    | _ => None
    end.

End Handlers.

End Routes.

(** ** Passwords

    [hashPassword] and [verifyPassword] of the database module cut the
    password to 72 code units before they hand it to the hashing library. *)
Module Accounts.
Import Js.

Section Bcrypt.

(** [bcrypt.hash(password, rounds)] with the salt it draws, and
    [bcrypt.compare]. *)
Variable bcrypt_hash : string -> Z -> string -> string.
Variable bcrypt_compare : string -> string -> bool.

Definition hashPassword (salt : string) (password : string) : string :=
  let safePw := substringTo 72 password in
  bcrypt_hash safePw 10 salt.

Definition verifyPassword (plainPassword hashedPassword : string) : bool :=
  let safePw := substringTo 72 plainPassword in
  bcrypt_compare safePw hashedPassword.

End Bcrypt.

End Accounts.


(** * Vocabulary of the statements and example inputs *)

Import Js Effect Reporter Interview Service Routes.

(** ** Strings *)

(** The last code unit of a string. *)
Fixpoint lastChar (s : string) : option ascii :=
  match s with
  | EmptyString => None
  | String a s' =>
      match lastChar s' with
      | None => Some a
      | Some c => Some c
      end
  end.

(** The words of a line joined to [cl] with single spaces, as the wrapping
    loop builds the line it measures. *)
Fixpoint glue (cl : string) (words : list string) : string :=
  match words with
  | [] => cl
  | word :: words' => glue (cl +:+ " " +:+ word) words'
  end.

(** ** Personas *)

(** An analyst all of whose four fields are non-empty strings. *)
Definition complete (a : Analyst) : Prop :=
  name a <> "" /\ role a <> "" /\ affiliation a <> "" /\ description a <> "".

(** ** Document export *)

(** A measure for examples: six points for every code unit. *)
Definition sixPoints (s : string) : Q :=
  inject_Z (6 * Z.of_nat (String.length s)).

(** A sentence wider than the content area. *)
Definition sentence : string :=
  "The committee concluded that regional supply chains stayed resilient " +:+
  "through the shocks observed in the period under review.".

(** The vertical positions of the pieces of text drawn, in order. *)
Fixpoint textYs (ops : list PdfOp) : list Q :=
  match ops with
  | [] => []
  | AddPage :: ops' => textYs ops'
  | Text _ _ _ _ y :: ops' => y :: textYs ops'
  end.

(** Pieces of body text drawn one line height apart from the cursor [y] on,
    leaving the cursor at [y']. *)
Inductive piecesFrom : Q -> list PdfOp -> Q -> Prop :=
| pieces_none y : piecesFrom y [] y
| pieces_more y s ops y' :
    piecesFrom (y + lineHeight)%Q ops y' ->
    piecesFrom y (Text 11 Helvetica s 50 y :: ops) y'.

(** ** The interview graph *)

(** The error the search step throws when it reaches the call of the
    logger's missing [warning] method. *)
Definition searchFailure : Exn :=
  ResearchAnalystException "Failed during web search execution"
    (Fault "TypeError: this.logger.warning is not a function").

(** A world in which the model answers every call with the same text and the
    search finds nothing. *)
Definition quietWorld : World :=
  mkWorld (fun _ _ => inr (mkMessage AIMessage None "supply chain resilience"))
          (fun _ _ => inr (Some [])).

Definition someAnalyst : InterviewAnalyst :=
  mkInterviewAnalyst
    (mkAnalyst "Ada Park" "Economist" "Trade Institute" "Studies trade.") None.

(** An interview after its first stage: the question has been asked. *)
Definition afterQuestion : InterviewState :=
  mkState [mkMessage AIMessage None "How resilient are supply chains?"]
    2 (Some []) someAnalyst "" [].

(** ** The report service *)

(** A status that ends an execution. *)
Definition terminal (st : option Status) : Prop :=
  st = Some completed \/ st = Some error.

(** The transitions the invariant of the specification allows: none,
    creation, the end of an execution of a run in progress, and the reset by
    a feedback submission. *)
Definition claimedTransition (e : Event) (tid : string)
    (before after : option Status) : Prop :=
  before = after \/
  (before = None /\ after = Some in_progress) \/
  (before = Some in_progress /\ terminal after) \/
  (terminal before /\ after = Some in_progress /\
   exists fb, e = SubmitFeedback tid fb).

(** Prompt templates for the examples; the persona prompt quotes the
    feedback. *)
Definition createPrompt (topic : string) (n : Z) (fb : string) : string :=
  "Create analysts for the topic " +:+ topic +:+ ". Editorial feedback: " +:+ fb.
Definition reportPrompt (topic : string) : string :=
  "Write a report on " +:+ topic.
Definition introPrompt (topic sections : string) : string :=
  "Write a section for the report on " +:+ topic.

(** A world in which the model answers every call with one persona, and one
    in which the model is down. *)
Definition steadyWorld : World :=
  mkWorld (fun _ _ => inr (mkMessage AIMessage None
                             ("Name: Ada Park" +:+ LF +:+ "Role: Economist")))
          (fun _ _ => inr None).
Definition downWorld : World :=
  mkWorld (fun _ _ => inl (Fault "503 Service Unavailable"))
          (fun _ _ => inl (Fault "503 Service Unavailable")).

Definition step' := step createPrompt reportPrompt introPrompt.
Definition run' := run createPrompt reportPrompt introPrompt.

(** A run is started and completes; feedback is submitted; the execution it
    starts fails; the submission resumes and returns. *)
Definition scenario : list Event :=
  [StartReportGeneration "run-1" "Trade" 3 0;
   Finish 0 steadyWorld "thread_1" 1;
   SubmitFeedback "run-1" "Add a trade lawyer";
   Finish 0 downWorld "thread_2" 2;
   Resume 0].

(** The state after the first [n] events of the scenario. *)
Definition stateAfter (n : nat) : State :=
  match run' initial (take n scenario) with
  | Some (s, _) => s
  | None => initial
  end.

Definition feedbackProcessed : ApiResponse unit :=
  mkResponse true None None (Some "Feedback processed successfully").

(** ** The download route *)

(** A file named [fileName] with contents [d] lies under a directory, at any
    depth. *)
Inductive Under (fileName : string) (d : option string) : Node -> Prop :=
| under_here dir items :
    In (File fileName d) items -> Under fileName d (Dir dir (Some items))
| under_below dir items sub :
    In sub items -> Under fileName d sub ->
    Under fileName d (Dir dir (Some items)).

#[local] Set Warnings "-register-all".

(** A part of the file system in which everything can be read and no
    directory has two entries of the same name. *)
Inductive healthy : Node -> Prop :=
| healthy_file name d : healthy (File name (Some d))
| healthy_dir name items :
    List.Forall healthy items -> List.NoDup (map nodeName items) ->
    healthy (Dir name (Some items)).

(** The paths the search returns extend the directory searched and end with
    the name searched for. *)
Definition found (dir : Path) (fileName : string) (p : Path) : Prop :=
  exists rel, p = dir ++ rel /\ rel <> [] /\ last rel = Some fileName.

(** What the search of a readable directory returns: it does not fail, each
    path leads to a readable file of the name searched for, and there is a
    path when there is such a file. *)
Definition searched (fileName : string) (node : Node)
    (r : Fs (list Path)) (dir : Path) : Prop :=
  exists paths,
    fst r = Some paths /\
    List.Forall (fun p => exists rel d,
                   p = dir ++ rel /\
                   resolve node rel = Some (File fileName (Some d))) paths /\
    ((exists d, Under fileName d node) -> paths <> []).

Definition notFound (fileName : string) : Response :=
  Json 404 ("File " +:+ fileName +:+ " not found").

(** The answer of the route once a file has been read: the contents as an
    attachment, or the status 500 when the name cannot be put in a header. *)
Definition served (fileName body : string) : Response :=
  if validHeaderValue fileName
  then Send (contentType fileName) (contentDisposition fileName) body
  else Json 500 (headerError "Content-Disposition").

(** An output root with two reports, each in its own folder. *)
Definition exampleRoot : option Node :=
  Some (Dir "generated_report"
          (Some [Dir "Trade_1" (Some [File "Trade_1.docx" (Some "docx bytes");
                                      File "Trade_1.pdf" (Some "pdf bytes")]);
                 Dir "Energy_2" (Some [File "Energy_2.pdf" (Some "more bytes")])])).

(** ** Vocabulary of the further properties *)

(** A string changed code unit by code unit. *)
Fixpoint mapChars (g : ascii -> ascii) (s : string) : string :=
  match s with
  | EmptyString => ""
  | String c s' => String (g c) (mapChars g s')
  end.

(** *** Personas *)

(** A field value that the persona text carries unchanged to the parser: not
    empty, without white space around it, on one line, without a colon and
    without the bold mark. *)
Definition plain (f : string) : Prop :=
  f <> "" /\ trim f = f /\ includes f LF = false /\
  includes f ":" = false /\ includes f "**" = false.

Definition plainAnalyst (a : Analyst) : Prop :=
  plain (name a) /\ plain (role a) /\ plain (affiliation a) /\
  plain (description a).

(** The lines of a persona text, and the record the parser holds after
    reading them. *)
Definition personaLines (a : Analyst) : list string :=
  ["Name: " +:+ name a; "Role: " +:+ role a;
   "Affiliation: " +:+ affiliation a; "Description: " +:+ description a].

Definition fullPartial (a : Analyst) : PartialAnalyst :=
  mkPartial (Some (Some (name a))) (Some (Some (role a)))
    (Some (Some (affiliation a))) (Some (Some (description a))).

(** The analyst the parser makes of a name alone. *)
Definition namedOnly (n : string) : Analyst :=
  mkAnalyst n "Research Analyst" "AI Research Institute"
    (n +:+ " provides expert analysis on the topic.").

Definition ada : Analyst :=
  mkAnalyst "Ada Park" "Economist" "Trade Institute" "Studies trade.".
Definition bo : Analyst :=
  mkAnalyst "Bo Lind" "Lawyer" "Port Authority" "Advises on ports.".

(** *** The workflow *)

Section Questions.

Variable CREATE_ANALYSTS_PROMPT : string -> Z -> string -> string.
Variable REPORT_WRITER_INSTRUCTIONS : string -> string.
Variable INTRO_CONCLUSION_INSTRUCTIONS : string -> string -> string.

(** The four questions a run of the workflow asks the model. *)
Definition askAnalysts (topic : string) (maxAnalysts : Z)
    (feedback : option string) : list Message :=
  [system (CREATE_ANALYSTS_PROMPT topic maxAnalysts (orElseU feedback ""));
   human "Generate the set of analysts."].

Definition askReport (topic : string) (sections : list string) : list Message :=
  [system (REPORT_WRITER_INSTRUCTIONS topic); human (join (LF +:+ LF) sections)].

Definition askIntroduction (topic : string) (sections : list string)
  : list Message :=
  [system (INTRO_CONCLUSION_INSTRUCTIONS topic (join (LF +:+ LF) sections));
   human "Write the report introduction"].

Definition askConclusion (topic : string) (sections : list string)
  : list Message :=
  [system (INTRO_CONCLUSION_INSTRUCTIONS topic (join (LF +:+ LF) sections));
   human "Write the report conclusion"].

End Questions.

(** The messages of the errors of the four stages. *)
Definition stageMessages : list string :=
  ["Failed to create analysts"; "Failed to write main report";
   "Failed to generate introduction"; "Failed to generate conclusion"].

(** *** The report service *)

(** What a stored run holds, by status. *)
Definition consistent (w : Workflow) : Prop :=
  match status w with
  | in_progress =>
      analysts w = None /\ sections w = None /\ final_report w = None /\
      error_message w = None /\ end_time w = None
  | completed =>
      (exists l, l <> [] /\ analysts w = Some l /\
                 sections w = Some (map mockSection l)) /\
      is_Some (final_report w) /\ is_Some (end_time w)
  | error =>
      error_message w = Some "Workflow execution failed" /\
      is_Some (end_time w)
  end.

(** *** The interview graph *)

(** The messages of the errors of the nodes, by node. *)
Definition nodeMessages : list (string * string) :=
  [("ask_question", "Failed to generate analyst question");
   ("search_web", "Failed during web search execution");
   ("generate_answer", "Failed to generate expert answer");
   ("write_section", "Failed to generate report section")].

(** A model that answers every call with the same text. *)
Definition steadyModel (h : list Call) (ms : list Message) : Exn + Message :=
  inr (mkMessage AIMessage None "supply chain resilience").

(** *** Sessions and passwords *)

(** The login with the credentials the handler accepts. *)
Definition adminLogin (now : nat) : Request :=
  PostLogin (Some (Some "admin", Some "admin123")) now.

(** A password of 72 code units, and stand-ins for the hashing library. *)
Definition longPassword : string :=
  "correct horse battery staple correct horse battery staple correct horse!".

Definition toyHash (password : string) (rounds : Z) (salt : string) : string :=
  salt +:+ "$" +:+ password.

Definition toyCompare (password hashed : string) : bool :=
  String.eqb ("salt$" +:+ password) hashed.

(** *** The names of the saved files *)

(** The three replacements of [saveReport], code unit by code unit. *)
Definition safeChar (c : ascii) : ascii := if isUnsafe c then "_"%char else c.
Definition underscore (c : ascii) : ascii :=
  if Ascii.eqb " " c then "_"%char else c.
Definition stampChar (c : ascii) : ascii :=
  if isColonOrDot c then "_"%char else c.

(** The content type the download route gives a saved report. *)
Definition contentTypeOf (format : Format) : string :=
  match format with
  | docx =>
      "application/vnd.openxmlformats-officedocument.wordprocessingml.document"
  | pdf => "application/pdf"
  end.

(** A time as [toISOString] prints it, and an output root that holds the
    report saved at that time on the topic "Trade". *)
Definition someTime : string := "2026-11-02T05:38:42.671Z".

Definition savedRoot : Node :=
  Dir "generated_report"
    (Some [Dir (baseNameOf "Trade" someTime)
             (Some [File (fileNameOf "Trade" someTime docx) (Some "docx bytes");
                    File (fileNameOf "Trade" someTime pdf) (Some "pdf bytes")])]).

(** * Properties *)

(** ** The primitives on examples *)

Example split_examples :
  split "a,b,,c," "," = ["a"; "b"; ""; "c"; ""] /\
  split "" "," = [""] /\
  split "xabyab" "ab" = ["x"; "y"; ""] /\
  split "Name: Ada: Park" ":" !! 1%nat = Some " Ada".
Proof. vm_compute. repeat split; reflexivity. Qed.

Example trim_examples :
  trim ("  a b " +:+ LF) = "a b" /\ trim "   " = "" /\
  replace "x## Insights y## Insights" "## Insights" "" = "x y## Insights" /\
  toLowerCase "NaMe: Ada" = "name: ada".
Proof. vm_compute. repeat split; reflexivity. Qed.

Example regex_examples :
  matchAll false nameRegex
    "Hello John Smith and Mary Ann LeeX went to New York City." =
    ["Hello John Smith"; "Mary Ann"; "New York City"] /\
  replaceAllRe false boldRe (replaceRe false bulletRe "*  **Name:** Ada" "") ""
    = "Name: Ada" /\
  test true analystRe "analyst 12: ada" = true /\
  test true analystRe "the analyst:" = false.
Proof. vm_compute. repeat split; reflexivity. Qed.

Example parse_example :
  parseAnalystsFromResponse
    ("* **Name:** Ada Park" +:+ LF +:+ "Role: Economist" +:+ LF +:+
     "Analyst 2: Bo Lind" +:+ LF +:+ "Description: Studies ports.") =
  [mkAnalyst "Ada Park" "Economist" "AI Research Institute"
     "Ada Park provides expert analysis on the topic.";
   mkAnalyst "Bo Lind" "Research Analyst" "AI Research Institute"
     "Studies ports."].
Proof. vm_compute. reflexivity. Qed.

Example parse_fallback_example :
  map name (parseAnalystsFromResponse "We asked John Smith about it.") =
  ["John Smith"; "Analyst 2"; "Analyst 3"].
Proof. vm_compute. reflexivity. Qed.


(** ** Strings *)

Lemma truthy_nonempty s : truthy s = true <-> s <> "".
Proof. destruct s; simpl; split; intros H; congruence. Qed.

Lemma truthy_app_l a b : truthy a = true -> truthy (a +:+ b) = true.
Proof. destruct a; simpl; [discriminate | reflexivity]. Qed.

Lemma truthy_app_r a b : truthy b = true -> truthy (a +:+ b) = true.
Proof. destruct a; simpl; [tauto | reflexivity]. Qed.

Lemma orElse_truthy a b : truthy b = true -> truthy (orElse a b) = true.
Proof. unfold orElse. destruct (truthy a) eqn:E; auto. Qed.

Lemma orElseU_truthy a b : truthy b = true -> truthy (orElseU a b) = true.
Proof. destruct a; simpl; auto using orElse_truthy. Qed.

Create HintDb truthy.
#[local] Hint Resolve truthy_app_l truthy_app_r orElse_truthy orElseU_truthy
  : truthy.

(** *** White space *)

Lemma truthy_rev_string cur : cur <> [] -> truthy (rev_string cur) = true.
Proof.
  unfold rev_string. destruct cur as [|a cur]; [congruence|]. intros _. simpl.
  destruct (rev cur ++ [a]) eqn:E; [|reflexivity].
  apply app_eq_nil in E as [_ E]. discriminate.
Qed.

Lemma trimStart_first raw :
  trimStart raw = "" \/
  exists c s, trimStart raw = String c s /\ isSpace c = false.
Proof.
  induction raw as [|c raw IH]; simpl; [left; reflexivity|].
  destruct (isSpace c) eqn:E; [exact IH|]. right. eauto.
Qed.

Lemma trimStart_fixed c s : isSpace c = false -> trimStart (String c s) = String c s.
Proof. simpl. intros ->. reflexivity. Qed.

Lemma dropWhileSpace_last l c :
  isSpace c = false -> exists l', dropWhileSpace (l ++ [c]) = l' ++ [c].
Proof.
  intros Hc. induction l as [|a l IH]; simpl.
  - rewrite Hc. exists []. reflexivity.
  - destruct (isSpace a); [exact IH|]. exists (a :: l). reflexivity.
Qed.

Lemma dropWhileSpace_idem l : dropWhileSpace (dropWhileSpace l) = dropWhileSpace l.
Proof.
  induction l as [|a l IH]; simpl; [reflexivity|].
  destruct (isSpace a) eqn:E; [exact IH|]. simpl. rewrite E. reflexivity.
Qed.

(** What [trim] returns does not start with white space. *)
Lemma trim_first raw c s : trim raw = String c s -> isSpace c = false.
Proof.
  unfold trim, trimEnd.
  destruct (trimStart_first raw) as [-> | (c0 & s0 & -> & Hc0)]; [discriminate|].
  simpl. destruct (dropWhileSpace_last (rev (list_ascii_of_string s0)) c0 Hc0)
    as [l' ->].
  unfold rev_string. rewrite rev_app_distr. simpl. congruence.
Qed.

Lemma trimEnd_idem s : trimEnd (trimEnd s) = trimEnd s.
Proof.
  unfold trimEnd, rev_string.
  rewrite list_ascii_of_string_of_list_ascii, rev_involutive,
    dropWhileSpace_idem.
  reflexivity.
Qed.

(** [trim] changes nothing in what it returns. *)
Lemma trim_idem raw : trim (trim raw) = trim raw.
Proof.
  unfold trim at 1.
  destruct (trim raw) as [|c s] eqn:E; [reflexivity|].
  rewrite trimStart_fixed by (eapply trim_first, E).
  rewrite <- E. unfold trim. apply trimEnd_idem.
Qed.

Lemma split_aux_cons sep cur a s :
  split_aux sep 0 cur (String a s) =
  if startsWith (String a s) sep
  then rev_string cur :: split_aux sep (String.length sep - 1) [] s
  else split_aux sep 0 (a :: cur) s.
Proof. reflexivity. Qed.

Lemma startsWith_space a s : startsWith (String a s) " " = Ascii.eqb " " a.
Proof. cbn [startsWith]. destruct (Ascii.eqb " " a); reflexivity. Qed.

(** The first word of a line that does not start with a space is not
    empty. *)
Lemma split_aux_head s : forall cur,
  cur <> [] ->
  exists w ws, split_aux " " 0 cur s = w :: ws /\ truthy w = true.
Proof.
  induction s as [|a s IH]; intros cur Hne.
  - eexists _, _. split; [reflexivity|]. apply truthy_rev_string, Hne.
  - rewrite split_aux_cons, startsWith_space.
    destruct (Ascii.eqb " " a).
    + eexists _, _. split; [reflexivity|]. apply truthy_rev_string, Hne.
    + apply IH. discriminate.
Qed.

Lemma split_head c s :
  isSpace c = false ->
  exists w ws, split (String c s) " " = w :: ws /\ truthy w = true.
Proof.
  intros Hc. unfold split. rewrite split_aux_cons, startsWith_space.
  destruct (Ascii.eqb " " c) eqn:E.
  - apply Ascii.eqb_eq in E. subst c. discriminate Hc.
  - apply split_aux_head. discriminate.
Qed.

(** *** Regular expressions *)

(** Iteration does not depend on the fuel, once it is above the number of
    code units left. *)
Lemma star_fuel step : forall n m p,
  (length (rest p) < n)%nat -> (length (rest p) < m)%nat ->
  star step n p = star step m p.
Proof.
  induction n as [|n IH]; intros m p Hn Hm; [lia|].
  destruct m as [|m]; [lia|]. simpl. f_equal.
  apply flat_map_ext. intros p'.
  destruct (length (rest p') <? length (rest p))%nat eqn:E; [|reflexivity].
  apply Nat.ltb_lt in E. apply IH; lia.
Qed.

(** *** Words *)

Lemma append_assoc a b c : (a +:+ b) +:+ c = a +:+ b +:+ c.
Proof.
  induction a as [|x a IH]; [reflexivity | exact (f_equal (String x) IH)].
Qed.

Lemma append_nil_r a : a +:+ "" = a.
Proof.
  induction a as [|x a IH]; [reflexivity | exact (f_equal (String x) IH)].
Qed.

Lemma string_of_list_app l1 l2 :
  string_of_list_ascii (l1 ++ l2) =
  string_of_list_ascii l1 +:+ string_of_list_ascii l2.
Proof.
  induction l1 as [|x l1 IH]; [reflexivity | exact (f_equal (String x) IH)].
Qed.

Lemma rev_string_cons a cur s :
  rev_string (a :: cur) +:+ s = rev_string cur +:+ String a s.
Proof.
  unfold rev_string. simpl. rewrite string_of_list_app, append_assoc.
  reflexivity.
Qed.

Lemma split_aux_nonempty sep s : forall skip cur, split_aux sep skip cur s <> [].
Proof.
  induction s as [|a s IH]; intros skip cur; simpl; [discriminate|].
  destruct skip; [|apply IH].
  destruct (startsWith (String a s) sep); [discriminate | apply IH].
Qed.

Lemma join_cons sep x l : l <> [] -> join sep (x :: l) = x +:+ sep +:+ join sep l.
Proof. destruct l; [congruence | reflexivity]. Qed.

(** Joining the words of a line with single spaces gives the line back. *)
Lemma join_split_aux s : forall cur,
  join " " (split_aux " " 0 cur s) = rev_string cur +:+ s.
Proof.
  induction s as [|a s IH]; intros cur.
  - simpl. rewrite append_nil_r. reflexivity.
  - rewrite split_aux_cons, startsWith_space.
    destruct (Ascii.eqb " " a) eqn:E.
    + apply Ascii.eqb_eq in E. subst a.
      rewrite join_cons by apply split_aux_nonempty.
      change (String.length " " - 1)%nat with 0%nat. rewrite IH. reflexivity.
    + rewrite IH. apply rev_string_cons.
Qed.

Lemma join_split s : join " " (split s " ") = s.
Proof. unfold split. rewrite join_split_aux. reflexivity. Qed.

Lemma lastChar_of_list l c :
  lastChar (string_of_list_ascii (l ++ [c])) = Some c.
Proof.
  induction l as [|x l IH]; simpl; [reflexivity | rewrite IH; reflexivity].
Qed.

Lemma dropWhileSpace_first l :
  dropWhileSpace l = [] \/
  exists c l', dropWhileSpace l = c :: l' /\ isSpace c = false.
Proof.
  induction l as [|a l IH]; simpl; [left; reflexivity|].
  destruct (isSpace a) eqn:E; [exact IH|]. right. eauto.
Qed.

(** What [trim] returns does not end with white space. *)
Lemma trim_last raw c : lastChar (trim raw) = Some c -> isSpace c = false.
Proof.
  unfold trim, trimEnd, rev_string.
  destruct (dropWhileSpace_first (rev (list_ascii_of_string (trimStart raw))))
    as [-> | (c0 & l' & -> & H)]; simpl; [discriminate|].
  rewrite lastChar_of_list. congruence.
Qed.

(** The last word of a line that does not end with a space is not empty. *)
Lemma split_aux_last s : forall cur,
  match lastChar s with
  | Some c => Ascii.eqb " " c = false
  | None => cur <> []
  end ->
  exists ws w, split_aux " " 0 cur s = ws ++ [w] /\ truthy w = true.
Proof.
  induction s as [|a s IH]; intros cur H.
  - exists [], (rev_string cur). split; [reflexivity|].
    apply truthy_rev_string, H.
  - rewrite split_aux_cons, startsWith_space.
    change (lastChar (String a s))
      with (match lastChar s with None => Some a | Some c => Some c end) in H.
    destruct (Ascii.eqb " " a) eqn:E.
    + destruct (IH []) as (ws & w & Hs & Hw).
      { destruct (lastChar s); cbv beta iota in H; [exact H | congruence]. }
      change (String.length " " - 1)%nat with 0%nat. rewrite Hs.
      exists (rev_string cur :: ws), w. split; [reflexivity | exact Hw].
    + apply IH.
      destruct (lastChar s); cbv beta iota in H; [exact H | discriminate].
Qed.

Lemma split_last s c :
  lastChar s = Some c -> isSpace c = false ->
  exists ws w, split s " " = ws ++ [w] /\ truthy w = true.
Proof.
  intros Hl Hc. apply split_aux_last. rewrite Hl.
  destruct (Ascii.eqb " " c) eqn:E; [|reflexivity].
  apply Ascii.eqb_eq in E. subst c. discriminate Hc.
Qed.

Lemma lastChar_nonempty c s : exists d, lastChar (String c s) = Some d.
Proof. simpl. destruct (lastChar s); eauto. Qed.

(** ** Report assembly *)

(** C3. On the example of the specification the assembler strips the leading
    "## Insights" heading, splits the sources block off the body and returns
    the introduction, the body and the conclusion between separators,
    followed by the sources under a "## Sources" heading. *)
Theorem finalizeReport_example :
  let content :=
    "## Insights" +:+ LF +:+ "Body" +:+ LF +:+ "## Sources" +:+ LF +:+ "Src1" in
  stripInsights content = "Body" +:+ LF +:+ "## Sources" +:+ LF +:+ "Src1" /\
  splitSources (stripInsights content) = ("Body", Some "Src1") /\
  finalizeReport content "Intro" "Concl" =
    "Intro" +:+ LF +:+ LF +:+ "---" +:+ LF +:+ LF +:+ "Body" +:+
    LF +:+ LF +:+ "---" +:+ LF +:+ LF +:+ "Concl" +:+
    LF +:+ LF +:+ "## Sources" +:+ LF +:+ "Src1".
Proof. vm_compute. repeat split; reflexivity. Qed.

Lemma splitSources_none content :
  snd (splitSources content) = None -> fst (splitSources content) = content.
Proof.
  unfold splitSources.
  destruct (includes content "## Sources"); [|reflexivity].
  destruct (split content (LF +:+ "## Sources" +:+ LF)) as [|p0 [|p1 [|p2 ps]]];
    simpl; intros H; congruence.
Qed.

(** A body that does not contain "## Sources" has no sources block. *)
Lemma splitSources_no_heading content :
  includes content "## Sources" = false -> snd (splitSources content) = None.
Proof. unfold splitSources. intros ->. reflexivity. Qed.

(** C8, as stated, fails: a body that opens with the "## Insights" heading
    and has no sources block comes back without the heading. *)
Lemma finalizeReport_identity_counterexample :
  let body := "## Insights" +:+ LF +:+ "Body" in
  includes body "## Sources" = false /\
  snd (splitSources (stripInsights body)) = None /\
  finalizeReport body "" "" = "Body" /\
  finalizeReport body "" "" <> body.
Proof. vm_compute. repeat split; try reflexivity. discriminate. Qed.

(** C8, amended. For every body that does not open with the "## Insights"
    heading and in which the assembler finds no sources block, assembling
    with an empty introduction and an empty conclusion returns the body
    itself, with no separator before or after it. *)
Theorem finalizeReport_identity body :
  startsWith body "## Insights" = false ->
  snd (splitSources body) = None ->
  finalizeReport body "" "" = body.
Proof.
  intros Hins Hsrc. unfold finalizeReport, stripInsights. rewrite Hins.
  pose proof (splitSources_none body Hsrc) as Hfst.
  destruct (splitSources body) as [c src]. simpl in *. subst. reflexivity.
Qed.

Lemma finalizeReport_identity_witness :
  finalizeReport ("Findings" +:+ LF +:+ "All good.") "" "" =
  "Findings" +:+ LF +:+ "All good.".
Proof.
  apply (finalizeReport_identity ("Findings" +:+ LF +:+ "All good."));
    vm_compute; reflexivity.
Defined.

(** ** Persona parsing *)

Lemma completeAnalyst_complete p : complete (completeAnalyst p).
Proof.
  unfold complete, completeAnalyst; simpl.
  repeat split; apply truthy_nonempty; auto 6 with truthy.
Qed.

Lemma fallbackAnalyst_complete names i : complete (fallbackAnalyst names i).
Proof.
  unfold complete, fallbackAnalyst; simpl.
  repeat split; apply truthy_nonempty; auto with truthy;
    destruct (i =? 0)%nat; try reflexivity;
    destruct (i =? 1)%nat; reflexivity.
Qed.

Lemma flush_complete analysts p :
  Forall complete analysts -> Forall complete (flush analysts p).
Proof.
  intros H. unfold flush.
  destruct (truthyU (get (p_name p)) && (1 <? keys p)%nat); auto.
  apply Forall_app; split; auto.
  constructor; auto using completeAnalyst_complete.
Qed.

Lemma parseLine_complete st line :
  Forall complete (fst st) -> Forall complete (fst (parseLine st line)).
Proof.
  destruct st as [analysts cur]. intros H. simpl in H.
  unfold parseLine. cbv zeta.
  repeat match goal with
         | |- context [if ?b then _ else _] => destruct b
         end; cbn [fst]; auto using flush_complete.
Qed.

Lemma parseLines_complete lines st :
  Forall complete (fst st) ->
  Forall complete (fst (fold_left parseLine lines st)).
Proof.
  revert st. induction lines as [|line lines IH]; intros st H; simpl; auto.
  apply IH. apply parseLine_complete, H.
Qed.

Lemma createAnalystsFromContent_length content :
  (3 <= length (createAnalystsFromContent content))%nat.
Proof.
  unfold createAnalystsFromContent.
  rewrite length_map, length_seq. lia.
Qed.

Lemma createAnalystsFromContent_complete content :
  Forall complete (createAnalystsFromContent content).
Proof.
  unfold createAnalystsFromContent.
  apply Forall_map, Forall_forall. intros i _.
  apply fallbackAnalyst_complete.
Qed.

(** C6. Persona parsing is a total function of its input; for every input it
    returns at least one analyst, and the name, the role, the affiliation and
    the description of every analyst it returns are non-empty strings. *)
Theorem parseAnalystsFromResponse_complete content :
  (1 <= length (parseAnalystsFromResponse content))%nat /\
  Forall complete (parseAnalystsFromResponse content).
Proof.
  unfold parseAnalystsFromResponse.
  pose proof (parseLines_complete (split content LF) ([], emptyPartial)) as H.
  destruct (fold_left parseLine (split content LF) ([], emptyPartial))
    as [analysts cur].
  simpl in H. specialize (H (List.Forall_nil _)).
  set (final := if truthyU (get (p_name cur))
                then analysts ++ [completeAnalyst cur] else analysts).
  assert (Hfinal : Forall complete final).
  { subst final. destruct (truthyU (get (p_name cur))); auto.
    apply Forall_app; split; auto.
    constructor; auto using completeAnalyst_complete. }
  destruct (length final =? 0)%nat eqn:E.
  - split.
    + pose proof (createAnalystsFromContent_length content). lia.
    + apply createAnalystsFromContent_complete.
  - apply Nat.eqb_neq in E. split; [lia | exact Hfinal].
Qed.

(** ** Document export *)

(** The paragraphs of the DOCX document carry the classes [docxClass] gives
    the lines of the text. *)
Lemma saveAsDocx_classes text :
  map paragraphClass (saveAsDocx text) = omap docxClass (split text LF).
Proof.
  unfold saveAsDocx. induction (split text LF) as [|line lines IH]; simpl.
  - reflexivity.
  - rewrite filter_cons. unfold docxClass at 1.
    destruct (decide (trim line <> "")); simpl; rewrite IH; reflexivity.
Qed.

(** C5, failing input. On the line "  # Title", a heading indented by two
    spaces, the encoders differ: the DOCX encoder tests the line as it stands
    and makes it a body paragraph, the PDF encoder tests the trimmed line and
    draws a level-1 heading.  This holds whatever the text measure is. *)
Theorem encoders_disagree_on_indented_heading (widthOfString : string -> Q) :
  saveAsDocx "  # Title" = [TextRunPara "  # Title"] /\
  saveAsPdf widthOfString "  # Title" = [Text 16 HelveticaBold "Title" 50 50] /\
  docxClass "  # Title" = Some BodyLine /\
  pdfClass widthOfString "  # Title" = Some Heading1.
Proof. vm_compute. repeat split; reflexivity. Qed.

(** The page-break test does its work for the piece drawn first: after the
    test the cursor is within the printable area. *)
Lemma newPage_within y :
  (snd (newPage y) <= pageHeight - bottomMargin)%Q.
Proof.
  unfold newPage, gt.
  destruct (Qle_bool y (pageHeight - bottomMargin)) eqn:E; simpl.
  - apply Qle_bool_iff, E.
  - vm_compute. discriminate.
Qed.

(** C4, failing input. With a measure of six points for every code unit,
    forty-six short lines followed by one long sentence are drawn on a single
    page, no page break is emitted, and the second piece of the wrapped
    sentence is drawn with the cursor at 755, beyond the printable area,
    which ends at 742: the page-break test runs once for an input line and
    not again between the pieces of a wrapped line. *)
Theorem pdf_cursor_overruns_page :
  let text := join LF (repeat "Item" 46 ++ [sentence]) in
  let ops := saveAsPdf sixPoints text in
  ~ In AddPage ops /\
  drop 46 ops =
    [Text 11 Helvetica
       ("The committee concluded that regional supply chains stayed " +:+
        "resilient through the") 50 740;
     Text 11 Helvetica "shocks observed in the period under review." 50 755] /\
  (pageHeight - bottomMargin < 755)%Q.
Proof.
  vm_compute. split; [|split; reflexivity].
  intros H. repeat (destruct H as [H|H]; [discriminate H|]). exact H.
Qed.

(** *** The two encoders in general *)

Section PdfProperties.

Variable widthOfString : string -> Q.

Lemma wrapWords_cons word words cl y :
  wrapWords widthOfString (word :: words) cl y =
  let testLine := if truthy cl then cl +:+ " " +:+ word else word in
  if gt (widthOfString testLine) 500 then
    let '(ops, cl', y') :=
      wrapWords widthOfString words word (y + lineHeight)%Q in
    (Text 11 Helvetica cl 50 y :: ops, cl', y')
  else wrapWords widthOfString words testLine y.
Proof. reflexivity. Qed.

(** The pieces the loop draws are body text, one line height apart, the
    first of them at the cursor the loop starts with. *)
Lemma wrapWords_pieces words : forall cl y,
  piecesFrom y (fst (fst (wrapWords widthOfString words cl y)))
             (snd (wrapWords widthOfString words cl y)).
Proof.
  induction words as [|word words IH]; intros cl y.
  - constructor.
  - rewrite wrapWords_cons. cbv zeta.
    destruct (gt (widthOfString _) 500).
    + specialize (IH word (y + lineHeight)%Q).
      destruct (wrapWords widthOfString words word (y + lineHeight)%Q)
        as [[ops cl'] y'].
      simpl in *. constructor. exact IH.
    + apply IH.
Qed.

(** If the loop draws nothing, the line it is left with is not empty,
    provided it started with one that is not. *)
Lemma wrapWords_no_flush words : forall cl y,
  truthy cl = true ->
  fst (fst (wrapWords widthOfString words cl y)) = [] ->
  truthy (snd (fst (wrapWords widthOfString words cl y))) = true.
Proof.
  induction words as [|word words IH]; intros cl y Hcl Hops; [exact Hcl|].
  rewrite wrapWords_cons in *. cbv zeta in *. rewrite Hcl in *.
  destruct (gt (widthOfString (cl +:+ " " +:+ word)) 500).
  - destruct (wrapWords widthOfString words word (y + lineHeight)%Q)
      as [[ops cl'] y']. discriminate Hops.
  - apply IH; [|exact Hops]. apply truthy_app_l, Hcl.
Qed.

(** A body line that does not start with white space is drawn as body
    text, wrapped or not. *)
Lemma drawBody_class c s y :
  isSpace c = false ->
  firstText (fst (drawBody widthOfString (String c s) y)) = Some BodyLine.
Proof.
  intros Hc. unfold drawBody.
  destruct (gt (widthOfString (String c s)) 500); [|reflexivity].
  destruct (split_head c s Hc) as (w & ws & -> & Hw).
  pose proof (wrapWords_pieces (w :: ws) "" y) as Hp.
  pose proof (wrapWords_no_flush ws w y Hw) as Hnf.
  rewrite wrapWords_cons in *. cbv zeta in *. simpl truthy in *. cbv iota in *.
  destruct (gt (widthOfString w) 500).
  - destruct (wrapWords widthOfString ws w (y + lineHeight)%Q)
      as [[ops cl'] y'].
    destruct (truthy cl'); reflexivity.
  - destruct (wrapWords widthOfString ws w y) as [[ops cl'] y'].
    simpl in *. destruct ops as [|op ops].
    + rewrite (Hnf eq_refl). reflexivity.
    + inversion Hp; subst. destruct (truthy cl'); reflexivity.
Qed.

Lemma firstText_newPage y ops :
  firstText (fst (newPage y) ++ ops) = firstText ops.
Proof. unfold newPage. destruct (gt y (pageHeight - bottomMargin)); reflexivity. Qed.

Lemma pdfLine_nonblank y c s :
  trim (String c s) = String c s ->
  pdfLine widthOfString y (String c s) =
  let line := String c s in
  let y1 := snd (newPage y) in
  let '(ops, y2) :=
    if startsWith line "# " then
      ([Text 16 HelveticaBold (substring 2 line) 50 y1], (y1 + lineHeight * 1.5)%Q)
    else if startsWith line "## " then
      ([Text 13 HelveticaBold (substring 3 line) 50 y1], (y1 + lineHeight * 1.3)%Q)
    else if startsWith line "### " then
      ([Text 11 HelveticaBold (substring 4 line) 50 y1], (y1 + lineHeight * 1.2)%Q)
    else drawBody widthOfString line y1 in
  (fst (newPage y) ++ ops, y2).
Proof.
  intros Ht. unfold pdfLine. rewrite Ht. cbv zeta. simpl truthy. cbv iota.
  simpl negb. cbv iota. destruct (newPage y) as [brk y1]. reflexivity.
Qed.

(** The PDF encoder gives a line the class the DOCX encoder gives the
    trimmed line, wherever the cursor is. *)
Lemma pdfLine_class y rawLine :
  firstText (fst (pdfLine widthOfString y rawLine)) = docxClass (trim rawLine).
Proof.
  unfold docxClass. rewrite trim_idem.
  destruct (trim rawLine) as [|c s] eqn:E.
  - unfold pdfLine. rewrite E. reflexivity.
  - assert (Hc : isSpace c = false) by (eapply trim_first, E).
    assert (Hpdf : fst (pdfLine widthOfString y rawLine) =
                   fst (pdfLine widthOfString y (String c s))).
    { unfold pdfLine. rewrite <- E, trim_idem. reflexivity. }
    rewrite Hpdf, pdfLine_nonblank by (rewrite <- E; apply trim_idem).
    cbv zeta. unfold docxParagraph.
    destruct (decide (String c s <> "")) as [_|Hn]; [|exfalso; apply Hn; discriminate].
    destruct (startsWith (String c s) "# ");
      [simpl fst; rewrite firstText_newPage; reflexivity|].
    destruct (startsWith (String c s) "## ");
      [simpl fst; rewrite firstText_newPage; reflexivity|].
    destruct (startsWith (String c s) "### ");
      [simpl fst; rewrite firstText_newPage; reflexivity|].
    pose proof (drawBody_class c s (snd (newPage y)) Hc) as Hb.
    destruct (drawBody widthOfString (String c s) (snd (newPage y))) as [ops y2].
    simpl fst in *. rewrite firstText_newPage. exact Hb.
Qed.

(** X21. On a line without white space around it the two encoders agree:
    the DOCX encoder and the PDF encoder give it the same class (a heading of
    level 1, 2 or 3, or body text), or both drop it, whatever the text
    measure of the PDF library. *)
Lemma encoders_agree_on_trimmed_lines line :
  trim line = line -> docxClass line = pdfClass widthOfString line.
Proof. intros H. unfold pdfClass. rewrite pdfLine_class, H. reflexivity. Qed.

Lemma textYs_newPage y ops : textYs (fst (newPage y) ++ ops) = textYs ops.
Proof. unfold newPage. destruct (gt y (pageHeight - bottomMargin)); reflexivity. Qed.

Lemma drawBody_first_y line y y0 :
  head (textYs (fst (drawBody widthOfString line y))) = Some y0 -> y0 = y.
Proof.
  unfold drawBody.
  destruct (gt (widthOfString line) 500); [|simpl; congruence].
  pose proof (wrapWords_pieces (split line " ") "" y) as Hp.
  destruct (wrapWords widthOfString (split line " ") "" y) as [[ops cl'] y'].
  simpl in Hp. inversion Hp; subst.
  - destruct (truthy cl'); simpl; congruence.
  - destruct (truthy cl'); simpl; congruence.
Qed.

(** X19. The first piece drawn for an input line is drawn with the cursor
    within the printable area, wherever the cursor was before the line and
    whatever the text measure: the page-break test comes before it. *)
Lemma pdfLine_first_within y rawLine y0 :
  head (textYs (fst (pdfLine widthOfString y rawLine))) = Some y0 ->
  (y0 <= pageHeight - bottomMargin)%Q.
Proof.
  destruct (trim rawLine) as [|c s] eqn:E.
  - unfold pdfLine. rewrite E. discriminate.
  - assert (Hpdf : fst (pdfLine widthOfString y rawLine) =
                   fst (pdfLine widthOfString y (String c s))).
    { unfold pdfLine. rewrite <- E, trim_idem. reflexivity. }
    rewrite Hpdf, pdfLine_nonblank by (rewrite <- E; apply trim_idem).
    cbv zeta. pose proof (newPage_within y) as Hy.
    assert (Hhead : forall size font text (y2 : Q),
              head (textYs (fst (fst (newPage y) ++
                                   [Text size font text 50 (snd (newPage y))], y2)))
              = Some y0 -> (y0 <= pageHeight - bottomMargin)%Q).
    { intros size font text y2. simpl fst. rewrite textYs_newPage. simpl.
      intros H. inversion H; subst. exact Hy. }
    destruct (startsWith (String c s) "# "); [apply Hhead|].
    destruct (startsWith (String c s) "## "); [apply Hhead|].
    destruct (startsWith (String c s) "### "); [apply Hhead|].
    pose proof (drawBody_first_y (String c s) (snd (newPage y)) y0) as H1.
    destruct (drawBody widthOfString (String c s) (snd (newPage y))) as [ops y2].
    simpl fst in *. rewrite textYs_newPage. intros H. rewrite (H1 H). exact Hy.
Qed.

Lemma glue_join ws : forall cl, glue cl ws = join " " (cl :: ws).
Proof.
  induction ws as [|word ws IH]; intros cl; [reflexivity|].
  simpl glue. rewrite IH.
  rewrite (join_cons " " cl (word :: ws)) by discriminate.
  destruct ws as [|word' ws]; [reflexivity|].
  rewrite !join_cons by discriminate.
  rewrite !append_assoc. reflexivity.
Qed.

(** If the loop draws nothing, it is left with the words glued together,
    and the last line it measured, this one, fitted. *)
Lemma wrapWords_no_flush_glue words : forall cl y,
  truthy cl = true ->
  fst (fst (wrapWords widthOfString words cl y)) = [] ->
  snd (fst (wrapWords widthOfString words cl y)) = glue cl words /\
  (words <> [] -> gt (widthOfString (glue cl words)) 500 = false).
Proof.
  induction words as [|word words IH]; intros cl y Hcl Hops.
  - split; [reflexivity | congruence].
  - rewrite wrapWords_cons in *. cbv zeta in *. rewrite Hcl in *.
    destruct (gt (widthOfString (cl +:+ " " +:+ word)) 500) eqn:Eg.
    + destruct (wrapWords widthOfString words word (y + lineHeight)%Q)
        as [[ops cl'] y']. discriminate Hops.
    + destruct (IH (cl +:+ " " +:+ word) y) as [Hg Hfit];
        [apply truthy_app_l, Hcl | exact Hops |].
      split; [exact Hg|]. intros _. simpl glue.
      destruct words as [|word' words]; [exact Eg | apply Hfit; discriminate].
Qed.

(** The loop ends with a line that is not empty when the last word is
    not. *)
Lemma wrapWords_last_truthy ws w0 : forall cl y,
  truthy w0 = true ->
  truthy (snd (fst (wrapWords widthOfString (ws ++ [w0]) cl y))) = true.
Proof.
  induction ws as [|word ws IH]; intros cl y Hw.
  - simpl app. rewrite wrapWords_cons. cbv zeta.
    destruct (gt (widthOfString _) 500); simpl; [exact Hw|].
    destruct (truthy cl); [apply truthy_app_r, truthy_app_r, Hw | exact Hw].
  - change ((word :: ws) ++ [w0]) with (word :: (ws ++ [w0])).
    rewrite wrapWords_cons. cbv zeta.
    destruct (gt (widthOfString _) 500).
    + specialize (IH word (y + lineHeight)%Q Hw).
      destruct (wrapWords widthOfString (ws ++ [w0]) word (y + lineHeight)%Q)
        as [[ops cl'] y']. exact IH.
    + apply IH, Hw.
Qed.

(** A line without white space around it that is wider than the content
    area is drawn in at least two pieces. *)
Lemma wide_line_flushed line y :
  trim line = line -> line <> "" ->
  gt (widthOfString line) 500 = true ->
  fst (fst (wrapWords widthOfString (split line " ") "" y)) <> [].
Proof.
  intros Ht Hne Hwide Hops.
  destruct line as [|c s]; [congruence|].
  destruct (split_head c s (trim_first _ _ _ Ht)) as (w1 & ws & Hsplit & Hw1).
  pose proof (join_split (String c s)) as Hjoin.
  rewrite Hsplit in *. rewrite wrapWords_cons in Hops. cbv zeta in Hops.
  simpl truthy in Hops. cbv iota in Hops.
  destruct (gt (widthOfString w1) 500) eqn:Eg.
  - destruct (wrapWords widthOfString ws w1 (y + lineHeight)%Q)
      as [[ops cl'] y']. discriminate Hops.
  - destruct (wrapWords_no_flush_glue ws w1 y Hw1 Hops) as [_ Hfit].
    rewrite glue_join, Hjoin in Hfit.
    destruct ws as [|w2 ws].
    + simpl in Hjoin. congruence.
    + rewrite Hfit in Hwide; [discriminate Hwide | discriminate].
Qed.

Lemma drawBody_two_pieces line y :
  trim line = line -> line <> "" ->
  gt (widthOfString line) 500 = true ->
  exists s1 s2 more,
    fst (drawBody widthOfString line y) =
    Text 11 Helvetica s1 50 y ::
    Text 11 Helvetica s2 50 (y + lineHeight)%Q :: more.
Proof.
  intros Ht Hne Hwide.
  pose proof (wide_line_flushed line y Ht Hne Hwide) as Hflush.
  pose proof (wrapWords_pieces (split line " ") "" y) as Hp.
  assert (Hcl : truthy (snd (fst (wrapWords widthOfString (split line " ")
                                    "" y))) = true).
  { destruct line as [|c s]; [congruence|].
    destruct (lastChar_nonempty c s) as [d Hd].
    assert (Hsp : isSpace d = false)
      by (apply (trim_last (String c s)); rewrite Ht; exact Hd).
    destruct (split_last _ d Hd Hsp) as (ws & wl & -> & Hwl).
    apply wrapWords_last_truthy, Hwl. }
  unfold drawBody. rewrite Hwide.
  destruct (wrapWords widthOfString (split line " ") "" y) as [[ops cl'] y'].
  simpl in *. rewrite Hcl. simpl.
  inversion Hp as [|? s1 ops1 ? Hp1]; subst; [congruence|].
  inversion Hp1 as [|? s2 ops2 ? Hp2]; subst; simpl; eauto.
Qed.

(** X20. A wrapped line drawn with the cursor within the last line height of
    the printable area has its second piece drawn beyond that area, and no
    page break comes before it: the page-break test is not repeated between
    the pieces.  This holds for every body line without white space around
    it that the text measure finds wider than the content area. *)
Lemma wrapped_line_overruns line y :
  trim line = line -> line <> "" ->
  startsWith line "# " = false -> startsWith line "## " = false ->
  startsWith line "### " = false ->
  gt (widthOfString line) 500 = true ->
  (y <= pageHeight - bottomMargin)%Q ->
  (pageHeight - bottomMargin < y + lineHeight)%Q ->
  exists s1 s2 more,
    fst (pdfLine widthOfString y line) =
    Text 11 Helvetica s1 50 y ::
    Text 11 Helvetica s2 50 (y + lineHeight)%Q :: more /\
    (pageHeight - bottomMargin < y + lineHeight)%Q.
Proof.
  intros Ht Hne H1 H2 H3 Hwide Hy Hbeyond.
  destruct line as [|c s]; [congruence|].
  rewrite pdfLine_nonblank by exact Ht. cbv zeta. rewrite H1, H2, H3.
  assert (Hnp : newPage y = ([], y)).
  { unfold newPage, gt. apply Qle_bool_iff in Hy. rewrite Hy. reflexivity. }
  rewrite Hnp. simpl fst. simpl snd.
  destruct (drawBody_two_pieces (String c s) y Ht Hne Hwide)
    as (s1 & s2 & more & Hd).
  destruct (drawBody widthOfString (String c s) y) as [ops y2].
  simpl in *. subst ops. eauto 6.
Qed.

End PdfProperties.

(** ** The interview graph *)

(** C7, failing input. When the query is generated and the search succeeds
    with an empty or absent result sequence, the search step does not return
    the placeholder entry: on that branch it first calls [logger.warning],
    which the [Logger] class does not have (its methods are [info], [error],
    [warn] and [debug]); the call throws inside the [try], the [catch] wraps
    the error, and the step ends with the pipeline error "Failed during web
    search execution".  The graph run from the search node on ends with the
    same error, after the two calls of the search step and none of the
    answer stage. *)
Theorem searchWeb_empty_results_throws
    (W : World) (ASK : string -> string) (ANSWERS : string -> string -> string)
    (SECTION : string -> string) (prompt : string)
    (state : InterviewState) (h : list Call) (q : Message)
    (docs : option (list Doc)) :
  let ask := LlmCall (system prompt :: messages state) in
  llm W h (system prompt :: messages state) = inr q ->
  tavilySearch W (h ++ [ask]) (msg_content q) = inr docs ->
  docs = None \/ docs = Some [] ->
  searchWeb W prompt state h =
    (inl searchFailure, (h ++ [ask]) ++ [SearchCall (msg_content q)]) /\
  runNodes (drop 1 (nodes W ASK prompt ANSWERS SECTION)) state h =
    (inl searchFailure, (h ++ [ask]) ++ [SearchCall (msg_content q)]).
Proof.
  intros ask Hq Hs Hdocs.
  assert (Hstep : searchWeb W prompt state h =
            (inl searchFailure, (h ++ [ask]) ++ [SearchCall (msg_content q)])).
  { unfold searchWeb, try_catch, mbind, M_bind, bind, llm_invoke, search_invoke.
    simpl. rewrite Hq. fold ask. rewrite Hs.
    destruct Hdocs as [-> | ->]; reflexivity. }
  split; [exact Hstep|].
  simpl. unfold mbind, M_bind, bind. rewrite Hstep. reflexivity.
Qed.

Lemma searchWeb_empty_results_throws_witness :
  searchWeb quietWorld "Write a search query." afterQuestion [] =
    (inl searchFailure,
     [LlmCall (system "Write a search query." :: messages afterQuestion);
      SearchCall "supply chain resilience"]).
Proof.
  apply (searchWeb_empty_results_throws quietWorld (fun s => s)
           (fun s c => s) (fun s => s) "Write a search query." afterQuestion []
           (mkMessage AIMessage None "supply chain resilience") (Some []));
    [reflexivity | reflexivity | right; reflexivity].
Defined.

(** ** The report service *)

(** The cases of a step, event by event, with the step unfolded. *)
Ltac event_cases e Hstep :=
  destruct e as [threadId topic maxAnalysts now | threadId fb
                | i W reporterThread now | j | threadId saved];
  simpl in Hstep.

Section ServiceProperties.

Variable CREATE_ANALYSTS_PROMPT : string -> Z -> string -> string.
Variable REPORT_WRITER_INSTRUCTIONS : string -> string.
Variable INTRO_CONCLUSION_INSTRUCTIONS : string -> string -> string.

Local Abbreviation step_ :=
  (step CREATE_ANALYSTS_PROMPT REPORT_WRITER_INSTRUCTIONS
     INTRO_CONCLUSION_INSTRUCTIONS).
Local Abbreviation run_ :=
  (run CREATE_ANALYSTS_PROMPT REPORT_WRITER_INSTRUCTIONS
     INTRO_CONCLUSION_INSTRUCTIONS).
Local Abbreviation reachable_ :=
  (reachable CREATE_ANALYSTS_PROMPT REPORT_WRITER_INSTRUCTIONS
     INTRO_CONCLUSION_INSTRUCTIONS).
Local Abbreviation reporterRun_ :=
  (reporterRun CREATE_ANALYSTS_PROMPT REPORT_WRITER_INSTRUCTIONS
     INTRO_CONCLUSION_INSTRUCTIONS).

Lemma run_reachable es : forall s s' tr,
  reachable_ s -> run_ s es = Some (s', tr) -> reachable_ s'.
Proof.
  induction es as [|e es IH]; simpl; intros s s' tr Hs Hrun.
  - congruence.
  - destruct (step_ s e) as [[s1 out]|] eqn:E; simpl in Hrun; [|discriminate].
    destruct (run_ s1 es) as [[s2 tr2]|] eqn:E2; simpl in Hrun; [|discriminate].
    inversion Hrun; subst. eapply IH; [|exact E2].
    eapply reach_step; eauto.
Qed.

(** What the end of an execution writes is a terminal status. *)
Lemma finish_status (old : Workflow) (r : Exn + WorkflowResult) now :
  terminal (Some (status match r with
                         | inr result => completedWith old result now
                         | inl e => failedWith old e now
                         end)).
Proof. destruct r; [right | left]; reflexivity. Qed.

(** A [submitFeedback] that waits to resume belongs to a run whose
    execution has written its terminal status. *)
Lemma resuming_terminal s :
  reachable_ s -> forall tid, tid ∈ resuming s -> terminal (statusOf s tid).
Proof.
  induction 1 as [|s e s' out Hs IH Hstep]; intros tid Hin.
  - inversion Hin.
  - event_cases e Hstep.
    + destruct (workflows s !! threadId) eqn:E; [discriminate|].
      inversion Hstep; subst; clear Hstep. simpl in Hin.
      specialize (IH tid Hin). unfold statusOf in *. simpl.
      destruct (decide (threadId = tid)) as [->|Hne].
      * rewrite E in IH. destruct IH; discriminate.
      * rewrite lookup_insert_ne by exact Hne. exact IH.
    + destruct (workflows s !! threadId) as [w|] eqn:E;
        inversion Hstep; subst; clear Hstep; [|auto].
      simpl in Hin. specialize (IH tid Hin). unfold statusOf in *. simpl.
      destruct (decide (threadId = tid)) as [->|Hne].
      * rewrite lookup_insert_eq. rewrite E in IH. exact IH.
      * rewrite lookup_insert_ne by exact Hne. exact IH.
    + destruct (tasks s !! i) as [t|] eqn:Et; simpl in Hstep; [|discriminate].
      destruct (workflows s !! t_thread t) as [old|] eqn:E; simpl in Hstep;
        [|discriminate].
      inversion Hstep; subst; clear Hstep. simpl in Hin.
      unfold statusOf. simpl.
      destruct (decide (t_thread t = tid)) as [Heq|Hne].
      * rewrite Heq, lookup_insert_eq. simpl. apply finish_status.
      * rewrite lookup_insert_ne by exact Hne. apply IH.
        destruct (t_awaited t); [|exact Hin].
        apply elem_of_app in Hin as [Hin|Hin]; [exact Hin|].
        apply list_elem_of_singleton in Hin. congruence.
    + destruct (resuming s !! j) as [threadId|] eqn:E; simpl in Hstep;
        [|discriminate].
      inversion Hstep; subst; clear Hstep. simpl in Hin.
      apply list_elem_of_delete_inv in Hin. exact (IH tid Hin).
    + destruct (workflows s !! threadId) as [w|];
        inversion Hstep; subst; clear Hstep; exact (IH tid Hin).
Qed.

(** C10. Whenever [submitFeedback] returns a success result, the stored run
    has the status [completed] or [error]: the operation returns only after
    the execution it awaited has written its outcome.  Whenever [start]
    returns, it returns the identifier of a run whose status is
    [in_progress] and whose execution is still suspended, awaited by
    nobody. *)
Theorem submitFeedback_returns_after_completion s e s' out :
  reachable_ s ->
  step_ s e = Some (s', out) ->
  (forall tid r,
     In (FeedbackReturned tid r) out -> success r = true ->
     terminal (statusOf s' tid)) /\
  (forall r,
     In (StartReturned r) out ->
     success r = true /\
     exists tid topic maxAnalysts,
       data r = Some (mkStartData tid) /\
       statusOf s' tid = Some in_progress /\
       In (mkTask tid topic maxAnalysts false) (tasks s')).
Proof.
  intros Hs Hstep.
  pose proof (resuming_terminal s Hs) as Hinv.
  event_cases e Hstep.
  - destruct (workflows s !! threadId) eqn:E; [discriminate|].
    inversion Hstep; subst; clear Hstep. split.
    + intros tid r [H|[]]. discriminate H.
    + intros r [H|[]]. inversion H; subst; clear H. simpl. split; [reflexivity|].
      exists threadId, topic, maxAnalysts. split; [reflexivity|]. split.
      * unfold statusOf. simpl. rewrite lookup_insert_eq. reflexivity.
      * apply in_or_app. right. left. reflexivity.
  - destruct (workflows s !! threadId) as [w|] eqn:E;
      inversion Hstep; subst; clear Hstep; split.
    + intros tid r [].
    + intros r [].
    + intros tid r [H|[]] Hok. inversion H; subst. discriminate Hok.
    + intros r [H|[]]. discriminate H.
  - destruct (tasks s !! i) as [t|] eqn:Et; simpl in Hstep; [|discriminate].
    destruct (workflows s !! t_thread t) as [old|] eqn:E; simpl in Hstep;
      [|discriminate].
    inversion Hstep; subst; clear Hstep. split.
    + intros tid r [].
    + intros r [].
  - destruct (resuming s !! j) as [threadId|] eqn:E; simpl in Hstep;
      [|discriminate].
    inversion Hstep; subst; clear Hstep. split.
    + intros tid r [H|[]] _. inversion H; subst; clear H.
      unfold statusOf. simpl. apply Hinv.
      apply list_elem_of_lookup. exists j. exact E.
    + intros r [H|[]]. discriminate H.
  - destruct (workflows s !! threadId) as [w|];
      inversion Hstep; subst; clear Hstep;
      (split; [intros tid r [H|[]]; discriminate H
              | intros r [H|[]]; discriminate H]).
Qed.

(** C2, amended. The status of a run changes in two ways only: [start]
    creates the run with the status [in_progress], and the end of an
    execution sets the status to [completed] or to [error], whatever it was
    before.  Every other event, [submitFeedback] among them, leaves every
    status as it is. *)
Theorem status_transitions s e s' out tid :
  step_ s e = Some (s', out) ->
  (statusOf s' tid = statusOf s tid \/
   (statusOf s tid = None /\ statusOf s' tid = Some in_progress /\
    exists topic maxAnalysts now,
      e = StartReportGeneration tid topic maxAnalysts now) \/
   (is_Some (statusOf s tid) /\ terminal (statusOf s' tid) /\
    exists i W reporterThread now, e = Finish i W reporterThread now)) /\
  (forall threadId fb,
     e = SubmitFeedback threadId fb -> statusOf s' tid = statusOf s tid).
Proof.
  intros Hstep.
  event_cases e Hstep.
  - destruct (workflows s !! threadId) eqn:E; [discriminate|].
    inversion Hstep; subst; clear Hstep. split; [|discriminate].
    unfold statusOf. simpl.
    destruct (decide (threadId = tid)) as [->|Hne].
    + right. left. rewrite lookup_insert_eq, E. simpl. eauto 6.
    + left. rewrite lookup_insert_ne by exact Hne. reflexivity.
  - assert (Hsame : statusOf s' tid = statusOf s tid).
    { destruct (workflows s !! threadId) as [w|] eqn:E;
        inversion Hstep; subst; clear Hstep; [|reflexivity].
      unfold statusOf. simpl.
      destruct (decide (threadId = tid)) as [->|Hne].
      - rewrite lookup_insert_eq, E. reflexivity.
      - rewrite lookup_insert_ne by exact Hne. reflexivity. }
    split; [left; exact Hsame | intros; exact Hsame].
  - destruct (tasks s !! i) as [t|] eqn:Et; simpl in Hstep; [|discriminate].
    destruct (workflows s !! t_thread t) as [old|] eqn:E; simpl in Hstep;
      [|discriminate].
    inversion Hstep; subst; clear Hstep. split; [|discriminate].
    unfold statusOf. simpl.
    destruct (decide (t_thread t = tid)) as [Heq|Hne].
    + right. right. rewrite <- Heq, lookup_insert_eq, E. simpl.
      split; [eauto|]. split; [apply finish_status | eauto].
    + left. rewrite lookup_insert_ne by exact Hne. reflexivity.
  - destruct (resuming s !! j) as [threadId|] eqn:E; simpl in Hstep;
      [|discriminate].
    inversion Hstep; subst; clear Hstep. split; [left; reflexivity|discriminate].
  - destruct (workflows s !! threadId) as [w|];
      inversion Hstep; subst; clear Hstep;
      (split; [left; reflexivity | discriminate]).
Qed.

(** Every execution the service starts asks for the personas with an empty
    feedback text: its first call to the model carries the persona prompt
    built from the topic, the number of analysts and the empty string. *)
Lemma reporterRun_first_call W reporterThread t :
  exists calls,
    snd (reporterRun_ W reporterThread t) =
    LlmCall [system (CREATE_ANALYSTS_PROMPT (t_topic t) (t_max t) "");
             human "Generate the set of analysts."] :: calls.
Proof.
  unfold reporterRun, executeWorkflow, createAnalysts, writeReport,
    writeIntroduction, writeConclusion, try_catch, mbind, M_bind, bind,
    llm_invoke, throw, mret, M_ret, ret.
  simpl.
  repeat match goal with
         | |- context [match ?x with inl _ => _ | inr _ => _ end] =>
             destruct x; simpl
         end;
    eexists; reflexivity.
Qed.

(** Every suspended execution belongs to a stored run, so the end of an
    execution can always be written. *)
Lemma tasks_stored s :
  reachable_ s -> forall t, t ∈ tasks s -> is_Some (workflows s !! t_thread t).
Proof.
  induction 1 as [|s e s' out Hs IH Hstep]; intros t0 Hin.
  - inversion Hin.
  - event_cases e Hstep.
    + destruct (workflows s !! threadId) eqn:E; [discriminate|].
      inversion Hstep; subst; clear Hstep. simpl in *.
      apply lookup_insert_is_Some.
      destruct (decide (threadId = t_thread t0)); [left; assumption|].
      right. split; [assumption|].
      apply elem_of_app in Hin as [Hin|Hin]; [exact (IH t0 Hin)|].
      apply list_elem_of_singleton in Hin. subst t0. simpl in *. congruence.
    + destruct (workflows s !! threadId) as [w|] eqn:E;
        inversion Hstep; subst; clear Hstep; [|auto].
      simpl in *. apply lookup_insert_is_Some.
      destruct (decide (threadId = t_thread t0)); [left; assumption|].
      right. split; [assumption|].
      apply elem_of_app in Hin as [Hin|Hin]; [exact (IH t0 Hin)|].
      apply list_elem_of_singleton in Hin. subst t0. simpl in *. congruence.
    + destruct (tasks s !! i) as [t|] eqn:Et; simpl in Hstep; [|discriminate].
      destruct (workflows s !! t_thread t) as [old|] eqn:E; simpl in Hstep;
        [|discriminate].
      inversion Hstep; subst; clear Hstep. simpl in *.
      apply lookup_insert_is_Some.
      destruct (decide (t_thread t = t_thread t0)); [left; assumption|].
      right. split; [assumption|].
      apply IH. eapply list_elem_of_delete_inv, Hin.
    + destruct (resuming s !! j) as [threadId|] eqn:E; simpl in Hstep;
        [|discriminate].
      inversion Hstep; subst; clear Hstep. simpl in *. exact (IH t0 Hin).
    + destruct (workflows s !! threadId) as [w|];
        inversion Hstep; subst; clear Hstep; exact (IH t0 Hin).
Qed.

Lemma finish_enabled s i t W reporterThread now :
  reachable_ s -> tasks s !! i = Some t ->
  is_Some (step_ s (Finish i W reporterThread now)).
Proof.
  intros Hs Ht.
  destruct (tasks_stored s Hs t) as [old Hold].
  { apply list_elem_of_lookup. eauto. }
  simpl. rewrite Ht. simpl. rewrite Hold. simpl. eauto.
Qed.

(** The execution a feedback submission starts, what it returns and what
    stays suspended do not depend on the feedback text. *)
Lemma submitFeedback_ignores_text s threadId fb1 fb2 s1 s2 out1 out2 :
  step_ s (SubmitFeedback threadId fb1) = Some (s1, out1) ->
  step_ s (SubmitFeedback threadId fb2) = Some (s2, out2) ->
  tasks s1 = tasks s2 /\ resuming s1 = resuming s2 /\ out1 = out2 /\
  forall tid, statusOf s1 tid = statusOf s2 tid.
Proof.
  simpl. destruct (workflows s !! threadId) as [w|] eqn:E;
    intros H1 H2; inversion H1; inversion H2; subst; clear H1 H2; simpl.
  - repeat split. intros tid. unfold statusOf. simpl.
    destruct (decide (threadId = tid)) as [->|Hne].
    + rewrite !lookup_insert_eq. reflexivity.
    + rewrite !lookup_insert_ne by exact Hne. reflexivity.
  - repeat split.
Qed.

(** The status of a run that is not in the table is not-found, and the
    status asked right after [start] is [in_progress], with no report. *)
Lemma getReportStatus_unknown s threadId saved :
  workflows s !! threadId = None ->
  exists r,
    step_ s (GetReportStatus threadId saved) =
    Some (s, [StatusReturned threadId r]) /\
    success r = false /\ data r = None.
Proof. intros H. simpl. rewrite H. eexists. repeat split. Qed.

Lemma getReportStatus_after_start s threadId topic maxAnalysts now s' out saved :
  step_ s (StartReportGeneration threadId topic maxAnalysts now) = Some (s', out) ->
  step_ s' (GetReportStatus threadId saved) =
  Some (s', [StatusReturned threadId
               (mkResponse true
                  (Some (mkStatusData in_progress threadId None None None None))
                  None None)]).
Proof.
  simpl. destruct (workflows s !! threadId); [discriminate|].
  intros H. inversion H; subst; clear H. simpl.
  rewrite lookup_insert_eq. reflexivity.
Qed.

(** The end of an execution that succeeded overwrites the analysts, the
    sections and the report of the run with its results; the end of one
    that failed leaves them as they were. *)
Lemma finish_overwrites s i t W reporterThread now old s' out :
  tasks s !! i = Some t ->
  workflows s !! t_thread t = Some old ->
  step_ s (Finish i W reporterThread now) = Some (s', out) ->
  exists w,
    workflows s' !! t_thread t = Some w /\
    match fst (reporterRun_ W reporterThread t) with
    | inr result =>
        status w = completed /\
        analysts w = Some (r_analysts result) /\
        sections w = Some (r_sections result) /\
        final_report w = Some (r_final_report result)
    | inl _ =>
        status w = error /\
        analysts w = analysts old /\
        sections w = sections old /\
        final_report w = final_report old
    end.
Proof.
  intros Ht Hold. simpl. rewrite Ht. simpl. rewrite Hold. simpl.
  intros H. inversion H; subst; clear H. simpl.
  rewrite lookup_insert_eq. eexists. split; [reflexivity|].
  destruct (fst (reporterRun_ W reporterThread t)); repeat split.
Qed.

End ServiceProperties.

Lemma stateAfter_reachable n :
  reachable createPrompt reportPrompt introPrompt (stateAfter n).
Proof.
  unfold stateAfter.
  destruct (run' initial (take n scenario)) as [[s tr]|] eqn:E.
  - eapply run_reachable; [apply reach_initial | exact E].
  - apply reach_initial.
Qed.

(** C1, failing input. A run on the topic "Trade" has completed and
    "Add a trade lawyer" is submitted as feedback.  The text is stored on the
    run, and the execution [submitFeedback] starts takes the topic and the
    number of analysts only: whatever the model answers, the persona prompt
    it is asked with is built with the empty string where the feedback
    belongs, and differs from the prompt built with the feedback.  When that
    execution fails, the analysts, the sections and the report of the prior
    execution stay on the run. *)
Theorem submitFeedback_drops_feedback :
  let fb := "Add a trade lawyer" in
  let t := mkTask "run-1" "Trade" 3 true in
  (feedback <$> workflows (stateAfter 3) !! "run-1") = Some (Some fb) /\
  tasks (stateAfter 3) = [t] /\
  (forall W reporterThread, exists calls,
      snd (reporterRun createPrompt reportPrompt introPrompt W reporterThread t) =
      LlmCall [system (createPrompt "Trade" 3 "");
               human "Generate the set of analysts."] :: calls) /\
  createPrompt "Trade" 3 "" <> createPrompt "Trade" 3 fb /\
  step' (stateAfter 3) (Finish 0 downWorld "thread_2" 2) =
    Some (stateAfter 4, []) /\
  statusOf (stateAfter 4) "run-1" = Some error /\
  (final_report <$> workflows (stateAfter 4) !! "run-1") =
  (final_report <$> workflows (stateAfter 2) !! "run-1") /\
  is_Some (workflows (stateAfter 2) !! "run-1" ≫= final_report).
Proof.
  intros fb t.
  split; [vm_compute; reflexivity|].
  split; [vm_compute; reflexivity|].
  split; [intros W reporterThread;
          apply (reporterRun_first_call createPrompt reportPrompt introPrompt
                   W reporterThread t)|].
  split; [vm_compute; discriminate|].
  split; [vm_compute; reflexivity|].
  split; [vm_compute; reflexivity|].
  split; [vm_compute; reflexivity|].
  vm_compute. eexists. reflexivity.
Qed.

(** C2, as stated, fails. In the scenario the run is [completed] when the
    feedback is submitted and it is still [completed] afterwards, while the
    pipeline runs again: the status is not reset.  When the second execution
    fails the status goes from [completed] to [error], a transition the
    claim excludes. *)
Lemma status_reset_counterexample :
  match run' initial scenario with
  | Some (_, tr) =>
      map (fun so => statusOf (fst so) "run-1") tr =
      [Some in_progress; Some completed; Some completed; Some error; Some error]
  | None => False
  end /\
  ~ (forall s e s' out tid,
       reachable createPrompt reportPrompt introPrompt s ->
       step' s e = Some (s', out) ->
       claimedTransition e tid (statusOf s tid) (statusOf s' tid)).
Proof.
  split; [vm_compute; reflexivity|].
  intros H.
  specialize (H (stateAfter 3) (Finish 0 downWorld "thread_2" 2)
                (stateAfter 4) [] "run-1" (stateAfter_reachable 3)).
  assert (Hstep : step' (stateAfter 3) (Finish 0 downWorld "thread_2" 2) =
                  Some (stateAfter 4, [])) by (vm_compute; reflexivity).
  specialize (H Hstep).
  assert (H3 : statusOf (stateAfter 3) "run-1" = Some completed)
    by (vm_compute; reflexivity).
  assert (H4 : statusOf (stateAfter 4) "run-1" = Some error)
    by (vm_compute; reflexivity).
  rewrite H3, H4 in H. unfold claimedTransition, terminal in H.
  destruct H as [H|[[H _]|[[H _]|[_ [H _]]]]]; discriminate H.
Qed.

Lemma status_transitions_witness :
  (statusOf (stateAfter 4) "run-1" = statusOf (stateAfter 3) "run-1" \/
   (statusOf (stateAfter 3) "run-1" = None /\
    statusOf (stateAfter 4) "run-1" = Some in_progress /\
    exists topic maxAnalysts now,
      Finish 0 downWorld "thread_2" 2 =
      StartReportGeneration "run-1" topic maxAnalysts now) \/
   (is_Some (statusOf (stateAfter 3) "run-1") /\
    terminal (statusOf (stateAfter 4) "run-1") /\
    exists i W reporterThread now,
      Finish 0 downWorld "thread_2" 2 = Finish i W reporterThread now)) /\
  (forall threadId fb,
     Finish 0 downWorld "thread_2" 2 = SubmitFeedback threadId fb ->
     statusOf (stateAfter 4) "run-1" = statusOf (stateAfter 3) "run-1").
Proof.
  apply (status_transitions createPrompt reportPrompt introPrompt
           (stateAfter 3) (Finish 0 downWorld "thread_2" 2) (stateAfter 4) []).
  vm_compute. reflexivity.
Defined.

Lemma submitFeedback_returns_after_completion_witness :
  (forall tid r,
     In (FeedbackReturned tid r) [FeedbackReturned "run-1" feedbackProcessed] ->
     success r = true -> terminal (statusOf (stateAfter 5) tid)) /\
  (forall r,
     In (StartReturned r) [FeedbackReturned "run-1" feedbackProcessed] ->
     success r = true /\
     exists tid topic maxAnalysts,
       data r = Some (mkStartData tid) /\
       statusOf (stateAfter 5) tid = Some in_progress /\
       In (mkTask tid topic maxAnalysts false) (tasks (stateAfter 5))).
Proof.
  apply (submitFeedback_returns_after_completion createPrompt reportPrompt
           introPrompt (stateAfter 4) (Resume 0) (stateAfter 5)
           [FeedbackReturned "run-1" feedbackProcessed]).
  - apply stateAfter_reachable.
  - vm_compute. reflexivity.
Defined.

(** ** The download route *)

Lemma pick_In c items item :
  pick c items = Some item -> In item items /\ nodeName item = c.
Proof.
  induction items as [|x items IH]; simpl; [discriminate|].
  destruct (String.eqb (nodeName x) c) eqn:E.
  - intros H. inversion H; subst. apply String.eqb_eq in E. auto.
  - intros H. destruct (IH H). auto.
Qed.

(** A file a non-empty path leads to lies under the starting directory, and
    its name is the last component of the path. *)
Lemma resolve_under rel : forall node name d,
  rel <> [] ->
  resolve node rel = Some (File name d) ->
  Under name d node /\ last rel = Some name.
Proof.
  induction rel as [|c rel IH]; intros node name d Hne Hres; [congruence|].
  simpl in Hres.
  destruct node as [|dir [items|]|]; try discriminate.
  destruct (pick c items) as [item|] eqn:Ep; [|discriminate].
  apply pick_In in Ep as [Hin Hname].
  destruct rel as [|c' rel'].
  - simpl in Hres. inversion Hres; subst. simpl. split; [|reflexivity].
    apply under_here. exact Hin.
  - destruct (IH item name d) as [Hu Hl]; [discriminate | exact Hres |].
    split; [eapply under_below; eauto|].
    rewrite <- Hl. reflexivity.
Qed.

Lemma found_deeper dir c fileName p :
  found (dir ++ [c]) fileName p -> found dir fileName p.
Proof.
  intros (rel & -> & Hne & Hlast). exists (c :: rel).
  rewrite <- app_assoc. split; [reflexivity|]. split; [discriminate|].
  destruct rel; [congruence | exact Hlast].
Qed.

Lemma scanItems_found find fileName items : forall dir paths calls,
  List.Forall (fun item => forall dir paths calls,
                 find dir item = (Some paths, calls) ->
                 List.Forall (found dir fileName) paths) items ->
  scanItems find dir fileName items = (Some paths, calls) ->
  List.Forall (found dir fileName) paths.
Proof.
  induction items as [|item items IH]; intros dir paths calls Hall Hscan.
  - inversion Hscan; subst. constructor.
  - inversion Hall as [|? ? Hitem Hrest]; subst. simpl in Hscan.
    destruct item as [name data|name its|name].
    + destruct (scanItems find dir fileName items) as [[r|] calls'] eqn:E;
        simpl in Hscan; inversion Hscan; subst; clear Hscan.
      apply List.Forall_app. split; [|eapply IH; eauto].
      simpl. destruct (String.eqb name fileName) eqn:En; constructor; [|constructor].
      apply String.eqb_eq in En. subst. exists [fileName].
      split; [reflexivity|]. split; [discriminate | reflexivity].
    + destruct (find (dir ++ [nodeName (Dir name its)]) (Dir name its))
        as [[fnd|] calls0] eqn:Ef; [|discriminate].
      destruct (scanItems find dir fileName items) as [[r|] calls'] eqn:E;
        simpl in Hscan; inversion Hscan; subst; clear Hscan.
      apply List.Forall_app. split; [|eapply IH; eauto].
      specialize (Hitem _ _ _ Ef).
      eapply List.Forall_impl; [|exact Hitem].
      intros p Hp. eapply found_deeper, Hp.
    + discriminate.
Qed.

Lemma findFileAt_found fileName node : forall dir paths calls,
  findFileAt dir node fileName = (Some paths, calls) ->
  List.Forall (found dir fileName) paths.
Proof.
  induction node as [name data|name|name|name items IH] using Node_induction;
    intros dir paths calls H; simpl in H; try discriminate.
  destruct (scanItems (fun p n => findFileAt p n fileName) dir fileName items)
    as [r calls'] eqn:E.
  inversion H; subst; clear H.
  eapply scanItems_found; [|exact E]. exact IH.
Qed.

(** What [downloadFile] returns is the contents of a file of that very name
    under the output root. *)
Lemma downloadFile_sound root fileName body :
  fst (downloadFile root fileName) = Some body ->
  exists node, root = Some node /\ Under fileName (Some body) node.
Proof.
  unfold downloadFile, findFile.
  destruct root as [node|]; [|simpl; discriminate].
  destruct (findFileAt reportDir node fileName) as [r calls] eqn:E.
  destruct r as [[|p ps]|]; simpl; try discriminate.
  apply findFileAt_found in E. inversion E as [|? ? Hp _]; subst.
  destruct Hp as (rel & -> & Hne & Hlast).
  change (drop 1 (reportDir ++ rel)) with rel.
  destruct (resolve node rel) as [[name [d|]| |]|] eqn:Er; try discriminate.
  intros H. inversion H; subst.
  destruct (resolve_under rel node name (Some body) Hne Er) as [Hu Hl].
  exists node. split; [reflexivity|]. congruence.
Qed.

Lemma downloadFile_begins_at_root root fileName :
  head (snd (downloadFile root fileName)) = Some (ExistsSync reportDir).
Proof.
  unfold downloadFile, findFile.
  destruct root as [node|]; [|reflexivity].
  destruct (findFileAt reportDir node fileName) as [[[|p ps]|] calls];
    reflexivity.
Qed.

(** The value of the header is valid when the name is. *)
Lemma validHeaderValue_app a b :
  validHeaderValue (a +:+ b) = validHeaderValue a && validHeaderValue b.
Proof.
  induction a as [|x a IH]; [reflexivity|].
  change (String x a +:+ b) with (String x (a +:+ b)).
  cbn [validHeaderValue]. rewrite IH, andb_assoc. reflexivity.
Qed.

Lemma validHeaderValue_disposition fileName :
  validHeaderValue (contentDisposition fileName) = validHeaderValue fileName.
Proof.
  unfold contentDisposition. rewrite !validHeaderValue_app.
  change (validHeaderValue "attachment; filename=") with true.
  change (validHeaderValue (String (ascii_of_nat 34) "")) with true.
  rewrite andb_true_r. reflexivity.
Qed.

(** The handler on an authenticated request with a name it accepts. *)
Lemma download_accepted root fileName :
  fileName <> "" ->
  includes fileName ".." = false -> includes fileName "/" = false ->
  download true root fileName =
  (match fst (downloadFile root fileName) with
   | None => notFound fileName
   | Some body => served fileName body
   end, snd (downloadFile root fileName)).
Proof.
  intros Hname Hdots Hslash. unfold download, served, notFound.
  apply truthy_nonempty in Hname. rewrite Hname, Hdots, Hslash.
  cbn [negb orb]. rewrite validHeaderValue_disposition.
  destruct (downloadFile root fileName) as [[body|] calls]; cbn [fst snd];
    [destruct (validHeaderValue fileName)|]; reflexivity.
Qed.

(** *** The search finds what is there *)

Lemma pick_NoDup items item :
  List.NoDup (map nodeName items) -> In item items ->
  pick (nodeName item) items = Some item.
Proof.
  induction items as [|x items IH]; intros Hnd Hin; [destruct Hin|].
  simpl in *. inversion Hnd as [|? ? Hnotin Hnd']; subst.
  destruct Hin as [->|Hin].
  - rewrite String.eqb_refl. reflexivity.
  - destruct (String.eqb (nodeName x) (nodeName item)) eqn:E.
    + apply String.eqb_eq in E. exfalso. apply Hnotin. rewrite E.
      apply in_map, Hin.
    + apply IH; assumption.
Qed.

Lemma scanItems_complete find fileName name all : forall items dir,
  List.Forall healthy all -> List.NoDup (map nodeName all) ->
  incl items all ->
  List.Forall (fun item => forall dir name' its,
                 item = Dir name' its ->
                 searched fileName item (find dir item) dir) items ->
  exists paths,
    fst (scanItems find dir fileName items) = Some paths /\
    List.Forall (fun p => exists rel d,
                   p = dir ++ rel /\
                   resolve (Dir name (Some all)) rel =
                   Some (File fileName (Some d))) paths /\
    ((exists item d, In item items /\
        (item = File fileName d \/ Under fileName d item)) -> paths <> []).
Proof.
  induction items as [|item items IH]; intros dir Hall Hnd Hincl Hfind.
  - exists []. split; [reflexivity|]. split; [constructor|].
    intros (item & d & [] & _).
  - assert (Hin : In item all) by (apply Hincl; left; reflexivity).
    assert (Hitem : healthy item) by (eapply List.Forall_forall; eauto).
    inversion Hfind as [|? ? Hhere Hrest]; subst.
    destruct (IH dir Hall Hnd) as (rest & Hscan & Hpaths & Hsome);
      [intros x Hx; apply Hincl; right; exact Hx | exact Hrest |].
    pose proof (pick_NoDup all item Hnd Hin) as Hpick.
    simpl scanItems.
    destruct (scanItems find dir fileName items) as [r calls'] eqn:E.
    simpl in Hscan. subst r.
    destruct item as [item_name data|item_name its|item_name];
      [| |inversion Hitem].
    + (* a file *)
      inversion Hitem; subst. simpl.
      eexists. split; [reflexivity|]. split.
      * apply List.Forall_app. split; [|exact Hpaths].
        destruct (String.eqb item_name fileName) eqn:En; constructor;
          [|constructor].
        apply String.eqb_eq in En. subst item_name.
        exists [fileName], d. split; [reflexivity|].
        simpl in *. rewrite Hpick. reflexivity.
      * intros (item & d' & [Heq|Hin'] & Hwhat).
        -- subst item. destruct Hwhat as [Hwhat|Hwhat]; [|inversion Hwhat].
           inversion Hwhat; subst. rewrite String.eqb_refl. discriminate.
        -- intros Happ. apply app_eq_nil in Happ as [_ Hnil].
           apply Hsome; [|exact Hnil]. eauto.
    + (* a directory *)
      destruct (Hhere (dir ++ [nodeName (Dir item_name its)]) item_name its
                  eq_refl) as (fnd & Hf & Hfp & Hfs).
      destruct (find (dir ++ [nodeName (Dir item_name its)]) (Dir item_name its))
        as [r calls0]. simpl in Hf. subst r. simpl.
      eexists. split; [reflexivity|]. split.
      * apply List.Forall_app. split; [|exact Hpaths].
        eapply List.Forall_impl; [|exact Hfp].
        intros p (rel & d & -> & Hres).
        exists (item_name :: rel), d. rewrite <- app_assoc.
        split; [reflexivity|]. simpl in *. rewrite Hpick. exact Hres.
      * intros (item & d' & [Heq|Hin'] & Hwhat).
        -- subst item. destruct Hwhat as [Hwhat|Hwhat]; [discriminate|].
           intros Happ. apply app_eq_nil in Happ as [Hnil _].
           apply Hfs; [|exact Hnil]. eauto.
        -- intros Happ. apply app_eq_nil in Happ as [_ Hnil].
           apply Hsome; [|exact Hnil]. eauto.
Qed.

Lemma findFileAt_complete fileName node : forall dir name its,
  node = Dir name its -> healthy node ->
  searched fileName node (findFileAt dir node fileName) dir.
Proof.
  induction node as [nm data|nm|nm|nm items IH] using Node_induction;
    intros dir name its Heq Hh; try discriminate; [inversion Hh|].
  inversion Hh as [|? ? Hall Hnd]; subst.
  destruct (scanItems_complete (fun p n => findFileAt p n fileName) fileName
              nm items items dir Hall Hnd (incl_refl _))
    as (paths & Hscan & Hpaths & Hsome).
  { apply List.Forall_forall. intros item Hin dir' name' its' Heq'.
    rewrite List.Forall_forall in IH, Hall. eapply IH; eauto. }
  exists paths. simpl.
  destruct (scanItems (fun p n => findFileAt p n fileName) dir fileName items)
    as [r calls]. simpl in *.
  split; [exact Hscan|]. split; [exact Hpaths|].
  intros (d & Hu). apply Hsome.
  inversion Hu; subst; eauto 6.
Qed.

(** In a readable output root the search reads a file of the name asked
    for whenever there is one, at whatever depth. *)
Lemma downloadFile_complete node fileName :
  healthy node -> (exists d, Under fileName d node) ->
  exists body,
    fst (downloadFile (Some node) fileName) = Some body /\
    Under fileName (Some body) node.
Proof.
  intros Hh Hu.
  assert (Hdir : exists name its, node = Dir name its)
    by (destruct Hu as [d Hu]; inversion Hu; eauto).
  destruct Hdir as (name & its & Hdir).
  destruct (findFileAt_complete fileName node reportDir name its Hdir Hh)
    as (paths & Hfind & Hpaths & Hsome).
  specialize (Hsome Hu).
  assert (Hdl : exists body, fst (downloadFile (Some node) fileName) = Some body).
  { unfold downloadFile, findFile.
    destruct (findFileAt reportDir node fileName) as [r calls].
    simpl in Hfind. subst r.
    destruct paths as [|p ps]; [congruence|].
    inversion Hpaths as [|? ? (rel & d & -> & Hres) _]; subst.
    unfold readFileSync.
    change (drop (length reportDir) (reportDir ++ rel)) with rel.
    change (drop (length reportDir) ("generated_report" :: rel)) with rel.
    rewrite Hres. simpl. eauto. }
  destruct Hdl as [body Hdl]. exists body. split; [exact Hdl|].
  destruct (downloadFile_sound (Some node) fileName body Hdl)
    as (node' & Hnode & Hunder).
  inversion Hnode; subst node'. exact Hunder.
Qed.

(** C9. A download request whose file name contains ".." or "/" is answered
    without a single call to the file system and without file contents; for
    an authenticated request the answer is the status 400.  Any other
    authenticated request with a file name starts the search at the output
    root.  Its answer is not-found, or it is the answer for a file that was
    read, a file with exactly the requested name lying under the root, at
    whatever depth: the contents of that file as an attachment or, when the
    name holds a character a header cannot carry, the status 500.  The answer
    is not-found whenever no file of that name lies under the root, and it is
    the answer for a file that was read whenever the root can be read and a
    file of that name lies under it: the search goes into every folder. *)
Theorem download_rejects_traversal_else_searches authed root fileName :
  (includes fileName ".." = true \/ includes fileName "/" = true ->
   snd (download authed root fileName) = [] /\
   hasBody (fst (download authed root fileName)) = false /\
   (authed = true ->
    fst (download authed root fileName) = Json 400 "Invalid file name")) /\
  (authed = true -> fileName <> "" ->
   includes fileName ".." = false -> includes fileName "/" = false ->
   head (snd (download authed root fileName)) = Some (ExistsSync reportDir) /\
   (fst (download authed root fileName) = notFound fileName \/
    exists body node,
      root = Some node /\ Under fileName (Some body) node /\
      fst (download authed root fileName) = served fileName body) /\
   ((forall node d, root = Some node -> ~ Under fileName d node) ->
    fst (download authed root fileName) = notFound fileName) /\
   (forall node,
      root = Some node -> healthy node -> (exists d, Under fileName d node) ->
      exists body,
        Under fileName (Some body) node /\
        fst (download authed root fileName) = served fileName body)).
Proof.
  split.
  - intros Hbad. unfold download.
    assert (Hcond : negb (truthy fileName) || includes fileName ".."
                    || includes fileName "/" = true).
    { destruct Hbad as [-> | ->]; [rewrite orb_true_r; reflexivity|].
      apply orb_true_r. }
    destruct authed; simpl; [rewrite Hcond|]; simpl; auto.
    repeat split; discriminate.
  - intros -> Hname Hdots Hslash.
    rewrite (download_accepted root fileName Hname Hdots Hslash).
    cbn [fst snd].
    pose proof (downloadFile_begins_at_root root fileName) as Hhead.
    pose proof (downloadFile_sound root fileName) as Hsound.
    split; [exact Hhead|]. split; [|split].
    + destruct (fst (downloadFile root fileName)) as [body|];
        [|left; reflexivity].
      destruct (Hsound body eq_refl) as (node & -> & Hu). right. eauto.
    + intros Hnone.
      destruct (fst (downloadFile root fileName)) as [body|]; [|reflexivity].
      destruct (Hsound body eq_refl) as (node & Hroot & Hu).
      exfalso. exact (Hnone node (Some body) Hroot Hu).
    + intros node -> Hh Hu.
      destruct (downloadFile_complete node fileName Hh Hu) as (body & -> & Hb).
      eauto.
Qed.

Lemma download_rejects_traversal_else_searches_witness :
  (snd (download true exampleRoot "../Trade_1.pdf") = [] /\
   hasBody (fst (download true exampleRoot "../Trade_1.pdf")) = false /\
   (true = true ->
    fst (download true exampleRoot "../Trade_1.pdf") =
    Json 400 "Invalid file name")) /\
  (head (snd (download true exampleRoot "Energy_2.pdf")) =
   Some (ExistsSync reportDir) /\
   (fst (download true exampleRoot "Energy_2.pdf") = notFound "Energy_2.pdf" \/
    exists body node,
      exampleRoot = Some node /\ Under "Energy_2.pdf" (Some body) node /\
      fst (download true exampleRoot "Energy_2.pdf") =
      served "Energy_2.pdf" body) /\
   ((forall node d, exampleRoot = Some node -> ~ Under "Energy_2.pdf" d node) ->
    fst (download true exampleRoot "Energy_2.pdf") = notFound "Energy_2.pdf") /\
   (forall node,
      exampleRoot = Some node -> healthy node ->
      (exists d, Under "Energy_2.pdf" d node) ->
      exists body,
        Under "Energy_2.pdf" (Some body) node /\
        fst (download true exampleRoot "Energy_2.pdf") =
        served "Energy_2.pdf" body)).
Proof.
  split.
  - apply (download_rejects_traversal_else_searches true exampleRoot
             "../Trade_1.pdf").
    left. reflexivity.
  - apply (download_rejects_traversal_else_searches true exampleRoot
             "Energy_2.pdf");
      [reflexivity | discriminate | reflexivity | reflexivity].
Defined.

(** The search goes into the folders: a report two levels down is found and
    sent. *)
Example download_finds_nested_file :
  fst (download true exampleRoot "Energy_2.pdf") =
  Send "application/pdf"
       ("attachment; filename=" +:+ Interview.DQUOTE +:+ "Energy_2.pdf" +:+
        Interview.DQUOTE)
       "more bytes".
Proof. vm_compute. reflexivity. Qed.

(** A name with a line feed in it: the file is found and read, the header
    cannot be set, and the request is answered with the status 500. *)
Example download_name_with_line_feed :
  let fileName := "Trade" +:+ LF +:+ "war.pdf" in
  fst (download true
         (Some (Dir "generated_report" (Some [File fileName (Some "bytes")])))
         fileName) =
  Json 500 (headerError "Content-Disposition").
Proof. vm_compute. reflexivity. Qed.

(** In a readable output root, an authenticated request for a name that is
    there, at whatever depth, is answered for a file of that name that was
    read. *)
Lemma download_finds_what_is_there node fileName :
  healthy node -> (exists d, Under fileName d node) ->
  fileName <> "" ->
  includes fileName ".." = false -> includes fileName "/" = false ->
  exists body,
    fst (download true (Some node) fileName) = served fileName body /\
    Under fileName (Some body) node.
Proof.
  intros Hh Hu Hname Hdots Hslash.
  rewrite (download_accepted (Some node) fileName Hname Hdots Hslash).
  destruct (downloadFile_complete node fileName Hh Hu) as (body & Hd & Hb).
  cbn [fst]. rewrite Hd. eauto.
Qed.

(** * Further properties *)

(** ** Strings, continued *)

(** *** Separators, patterns and replacements of one code unit *)

Lemma startsWith_char a s c :
  startsWith (String a s) (String c "") = Ascii.eqb c a.
Proof. cbn [startsWith]. destruct (Ascii.eqb c a); reflexivity. Qed.

Lemma includes_char_cons a s c :
  includes (String a s) (String c "") = Ascii.eqb c a || includes s (String c "").
Proof.
  change (includes (String a s) (String c ""))
    with (startsWith (String a s) (String c "") || includes s (String c "")).
  rewrite startsWith_char. reflexivity.
Qed.

Lemma includes_char_app a b c :
  includes (a +:+ b) (String c "") =
  includes a (String c "") || includes b (String c "").
Proof.
  induction a as [|x a IH]; [reflexivity|].
  change (String x a +:+ b) with (String x (a +:+ b)).
  rewrite !includes_char_cons, IH, orb_assoc. reflexivity.
Qed.

Lemma split_aux_char c cur a s :
  split_aux (String c "") 0 cur (String a s) =
  if Ascii.eqb c a then rev_string cur :: split_aux (String c "") 0 [] s
  else split_aux (String c "") 0 (a :: cur) s.
Proof. rewrite split_aux_cons, startsWith_char. reflexivity. Qed.

Lemma split_aux_none c x : forall cur,
  includes x (String c "") = false ->
  split_aux (String c "") 0 cur x = [rev_string cur +:+ x].
Proof.
  induction x as [|a x IH]; intros cur H.
  - simpl. rewrite append_nil_r. reflexivity.
  - rewrite includes_char_cons in H. apply orb_false_elim in H as [Ha Hx].
    rewrite split_aux_char, Ha, IH by exact Hx.
    rewrite rev_string_cons. reflexivity.
Qed.

Lemma split_aux_piece c x r : forall cur,
  includes x (String c "") = false ->
  split_aux (String c "") 0 cur (x +:+ String c r) =
  (rev_string cur +:+ x) :: split_aux (String c "") 0 [] r.
Proof.
  induction x as [|a x IH]; intros cur H.
  - change ("" +:+ String c r) with (String c r).
    rewrite split_aux_char, Ascii.eqb_refl, append_nil_r. reflexivity.
  - rewrite includes_char_cons in H. apply orb_false_elim in H as [Ha Hx].
    change (String a x +:+ String c r) with (String a (x +:+ String c r)).
    rewrite split_aux_char, Ha, IH by exact Hx.
    rewrite rev_string_cons. reflexivity.
Qed.

Lemma split_none c x :
  includes x (String c "") = false -> split x (String c "") = [x].
Proof. intros H. unfold split. rewrite split_aux_none by exact H. reflexivity. Qed.

Lemma split_piece c x r :
  includes x (String c "") = false ->
  split (x +:+ String c r) (String c "") = x :: split r (String c "").
Proof. intros H. unfold split. rewrite split_aux_piece by exact H. reflexivity. Qed.

Lemma split_aux_last_piece c b a : forall cur,
  last (split_aux (String c "") 0 cur (a +:+ String c b)) =
  last (split_aux (String c "") 0 [] b).
Proof.
  induction a as [|x a IH]; intros cur.
  - change ("" +:+ String c b) with (String c b).
    rewrite split_aux_char, Ascii.eqb_refl.
    destruct (split_aux (String c "") 0 [] b) eqn:E; [|reflexivity].
    exfalso. eapply split_aux_nonempty, E.
  - change (String x a +:+ String c b) with (String x (a +:+ String c b)).
    rewrite split_aux_char. destruct (Ascii.eqb c x).
    + specialize (IH []).
      destruct (split_aux (String c "") 0 [] (a +:+ String c b)) eqn:E;
        [exfalso; eapply split_aux_nonempty, E | exact IH].
    + apply IH.
Qed.

Lemma join_char_cons c x l :
  l <> [] -> join (String c "") (x :: l) = x +:+ String c (join (String c "") l).
Proof. intros H. rewrite join_cons by exact H. reflexivity. Qed.

Lemma split_join_char c parts :
  parts <> [] ->
  Forall (fun p => includes p (String c "") = false) parts ->
  split (join (String c "") parts) (String c "") = parts.
Proof.
  induction parts as [|x parts IH]; intros Hne Hall; [congruence|].
  inversion Hall as [|? ? Hx Hrest]; subst.
  destruct parts as [|y parts].
  - cbn [join]. apply split_none, Hx.
  - rewrite join_char_cons by discriminate.
    rewrite split_piece by exact Hx. rewrite IH; [reflexivity|discriminate|exact Hrest].
Qed.

(** *** Trimming *)

Lemma lastChar_None s : lastChar s = None -> s = "".
Proof. destruct s as [|a s]; [reflexivity|]. simpl. destruct (lastChar s); discriminate. Qed.

Lemma lastChar_rev s c :
  lastChar s = Some c ->
  exists l, rev (list_ascii_of_string s) = c :: l.
Proof.
  revert c. induction s as [|a s IH]; intros c H; [discriminate|].
  simpl in H. simpl. destruct (lastChar s) as [d|] eqn:E.
  - destruct (IH d eq_refl) as [l ->]. inversion H; subst. eauto.
  - apply lastChar_None in E. subst s. inversion H; subst. simpl. eauto.
Qed.

Lemma trimEnd_fixed s c :
  lastChar s = Some c -> isSpace c = false -> trimEnd s = s.
Proof.
  intros Hl Hc. unfold trimEnd, rev_string.
  destruct (lastChar_rev s c Hl) as [l Hr]. rewrite Hr. simpl. rewrite Hc.
  rewrite <- Hr, rev_involutive. apply string_of_list_ascii_of_string.
Qed.

Lemma lastChar_app a b : b <> "" -> lastChar (a +:+ b) = lastChar b.
Proof.
  intros Hb. induction a as [|x a IH]; [reflexivity|].
  change (String x a +:+ b) with (String x (a +:+ b)). simpl. rewrite IH.
  destruct b as [|y b]; [congruence|].
  destruct (lastChar_nonempty y b) as [d ->]. reflexivity.
Qed.

(** A trimmed, non-empty string starts and ends with something that is not
    white space. *)
Lemma trimmed_ends x :
  trim x = x -> x <> "" ->
  (exists c s, x = String c s /\ isSpace c = false) /\
  (exists d, lastChar x = Some d /\ isSpace d = false).
Proof.
  intros Ht Hne. destruct x as [|c s]; [congruence|]. split.
  - exists c, s. split; [reflexivity|]. eapply trim_first, Ht.
  - destruct (lastChar_nonempty c s) as [d Hd]. exists d. split; [exact Hd|].
    apply (trim_last (String c s)). rewrite Ht. exact Hd.
Qed.

Lemma trim_fixed c s d :
  isSpace c = false -> lastChar (String c s) = Some d -> isSpace d = false ->
  trim (String c s) = String c s.
Proof.
  intros Hc Hl Hd. unfold trim. rewrite trimStart_fixed by exact Hc.
  eapply trimEnd_fixed; eauto.
Qed.

(** *** The patterns of the persona parser on lines that need no cleaning *)

Lemma bulletRe_later c l : matchAt false bulletRe (Some c) l = None.
Proof. reflexivity. Qed.

Lemma bulletRe_first s :
  startsWith s "*" = false ->
  matchAt false bulletRe None (list_ascii_of_string s) = None.
Proof.
  destruct s as [|a s]; [reflexivity|]. rewrite startsWith_char. intros H.
  unfold matchAt, bulletRe. cbn [matches before rest flat_map list_ascii_of_string].
  unfold eqChar. rewrite H. reflexivity.
Qed.

Lemma replaceRe_aux_bullet_later l : forall c,
  replaceRe_aux false bulletRe [] (Some c) l = l.
Proof.
  induction l as [|a l IH]; intros c; [reflexivity|].
  cbn [replaceRe_aux]. rewrite bulletRe_later, IH. reflexivity.
Qed.

Lemma replaceRe_bullet s :
  startsWith s "*" = false -> replaceRe false bulletRe s "" = s.
Proof.
  intros H. unfold replaceRe.
  destruct s as [|a s]; [reflexivity|].
  cbn [list_ascii_of_string replaceRe_aux].
  change (a :: list_ascii_of_string s) with (list_ascii_of_string (String a s)).
  rewrite (bulletRe_first _ H). rewrite replaceRe_aux_bullet_later.
  cbn [string_of_list_ascii]. rewrite string_of_list_ascii_of_string.
  reflexivity.
Qed.

Lemma boldRe_none b s :
  startsWith s "**" = false ->
  matchAt false boldRe b (list_ascii_of_string s) = None.
Proof.
  intros H. unfold matchAt, boldRe.
  destruct s as [|x s]; [reflexivity|].
  cbn [matches before rest flat_map list_ascii_of_string]. unfold eqChar.
  cbn [startsWith] in H.
  destruct (Ascii.eqb "*" x); [|reflexivity].
  destruct s as [|y s]; [reflexivity|].
  cbn [matches before rest flat_map list_ascii_of_string app]. unfold eqChar.
  destruct (Ascii.eqb "*" y); [discriminate H | reflexivity].
Qed.

Lemma includes_cons s p a :
  includes (String a s) p = startsWith (String a s) p || includes s p.
Proof. reflexivity. Qed.

Lemma replaceAll_aux_bold s : forall b,
  includes s "**" = false ->
  replaceAll_aux false boldRe [] 0 b (list_ascii_of_string s) =
  list_ascii_of_string s.
Proof.
  induction s as [|a s IH]; intros b H; [reflexivity|].
  rewrite includes_cons in H. apply orb_false_elim in H as [H1 H2].
  pose proof (boldRe_none b _ H1) as Hm.
  cbn [list_ascii_of_string] in *. cbn [replaceAll_aux]. rewrite Hm.
  rewrite IH by exact H2. reflexivity.
Qed.

Lemma replaceAllRe_bold s :
  includes s "**" = false -> replaceAllRe false boldRe s "" = s.
Proof.
  intros H. unfold replaceAllRe. cbn [list_ascii_of_string].
  rewrite replaceAll_aux_bold by exact H.
  apply string_of_list_ascii_of_string.
Qed.

(** A line that needs no cleaning. *)
Lemma cleanLine_fixed line :
  trim line = line -> startsWith line "*" = false ->
  includes line "**" = false ->
  trim (replaceAllRe false boldRe (replaceRe false bulletRe (trim line) "") "")
  = line.
Proof.
  intros Ht Hb Hbb. rewrite Ht, replaceRe_bullet, replaceAllRe_bold; auto.
Qed.

Lemma startsWith_pair_no c a s :
  Ascii.eqb c a = false -> startsWith (String a s) (String c (String c "")) = false.
Proof. intros H. cbn [startsWith]. rewrite H. reflexivity. Qed.

Lemma includes_pair_app c a b :
  includes a (String c "") = false ->
  includes (a +:+ b) (String c (String c "")) =
  includes b (String c (String c "")).
Proof.
  induction a as [|x a IH]; intros H; [reflexivity|].
  rewrite includes_char_cons in H. apply orb_false_elim in H as [Hx Ha].
  change (String x a +:+ b) with (String x (a +:+ b)).
  rewrite includes_cons, startsWith_pair_no, IH by assumption. reflexivity.
Qed.

(** *** Replacing code units *)

Lemma matchAt_class f b c l :
  matchAt false (Class f) b (c :: l) =
  if f c then Some (Pos (Some c) l) else None.
Proof. unfold matchAt. cbn [matches rest]. destruct (f c); reflexivity. Qed.

Lemma matchAt_lit d b c l :
  matchAt false (Lit d) b (c :: l) =
  if Ascii.eqb d c then Some (Pos (Some c) l) else None.
Proof.
  unfold matchAt. cbn [matches rest eqChar].
  destruct (Ascii.eqb d c); reflexivity.
Qed.

Lemma replaceAll_aux_class f l : forall b,
  replaceAll_aux false (Class f) ["_"%char] 0 b l =
  map (fun c => if f c then "_"%char else c) l.
Proof.
  induction l as [|c l IH]; intros b; [reflexivity|].
  cbn [replaceAll_aux map]. rewrite matchAt_class.
  destruct (f c); cbn [rest length].
  - replace (S (length l) - length l)%nat with 1%nat by lia.
    cbn [Nat.eqb Nat.sub app]. rewrite IH. reflexivity.
  - rewrite IH. reflexivity.
Qed.

Lemma string_of_list_map g s :
  string_of_list_ascii (map g (list_ascii_of_string s)) = mapChars g s.
Proof. induction s as [|c s IH]; [reflexivity|]. simpl. rewrite IH. reflexivity. Qed.

Lemma replaceAllRe_class f s :
  replaceAllRe false (Class f) s "_" =
  mapChars (fun c => if f c then "_"%char else c) s.
Proof.
  unfold replaceAllRe. cbn [list_ascii_of_string].
  rewrite replaceAll_aux_class. apply string_of_list_map.
Qed.

Lemma replaceAll_aux_lit d l : forall b,
  replaceAll_aux false (Lit d) ["_"%char] 0 b l =
  map (fun c => if Ascii.eqb d c then "_"%char else c) l.
Proof.
  induction l as [|c l IH]; intros b; [reflexivity|].
  cbn [replaceAll_aux map]. rewrite matchAt_lit.
  destruct (Ascii.eqb d c); cbn [rest length].
  - replace (S (length l) - length l)%nat with 1%nat by lia.
    cbn [Nat.eqb Nat.sub app]. rewrite IH. reflexivity.
  - rewrite IH. reflexivity.
Qed.

Lemma replaceAllRe_lit d s :
  replaceAllRe false (Lit d) s "_" =
  mapChars (fun c => if Ascii.eqb d c then "_"%char else c) s.
Proof.
  unfold replaceAllRe. cbn [list_ascii_of_string].
  rewrite replaceAll_aux_lit. apply string_of_list_map.
Qed.

Lemma includes_mapChars_none g c s :
  (forall x, Ascii.eqb c (g x) = false) ->
  includes (mapChars g s) (String c "") = false.
Proof.
  intros Hg. induction s as [|a s IH]; [reflexivity|].
  cbn [mapChars]. rewrite includes_char_cons, Hg, IH. reflexivity.
Qed.

Lemma includes_mapChars_char g c s :
  (forall x, Ascii.eqb c (g x) = Ascii.eqb c x) ->
  includes (mapChars g s) (String c "") = includes s (String c "").
Proof.
  intros Hg. induction s as [|a s IH]; [reflexivity|].
  cbn [mapChars]. rewrite !includes_char_cons, Hg, IH. reflexivity.
Qed.

Lemma startsWith_pair c a s :
  startsWith (String a s) (String c (String c "")) =
  Ascii.eqb c a && startsWith s (String c "").
Proof.
  cbn [startsWith]. destruct (Ascii.eqb c a); [|reflexivity].
  destruct s as [|b s]; [reflexivity|]. destruct (Ascii.eqb c b); reflexivity.
Qed.

Lemma startsWith_char_mapChars g c s :
  (forall x, Ascii.eqb c (g x) = Ascii.eqb c x) ->
  startsWith (mapChars g s) (String c "") = startsWith s (String c "").
Proof.
  intros Hg. destruct s as [|a s]; [reflexivity|].
  cbn [mapChars]. rewrite !startsWith_char. apply Hg.
Qed.

Lemma includes_mapChars_pair g c s :
  (forall x, Ascii.eqb c (g x) = Ascii.eqb c x) ->
  includes (mapChars g s) (String c (String c "")) =
  includes s (String c (String c "")).
Proof.
  intros Hg. induction s as [|a s IH]; [reflexivity|].
  cbn [mapChars]. rewrite !includes_cons, !startsWith_pair, Hg, IH.
  rewrite startsWith_char_mapChars by exact Hg. reflexivity.
Qed.

Lemma includes_pair_app_other c d a r :
  Ascii.eqb c d = false ->
  includes (a +:+ String d r) (String c (String c "")) =
  includes a (String c (String c "")) || includes r (String c (String c "")).
Proof.
  intros Hd. induction a as [|x a IH].
  - change ("" +:+ String d r) with (String d r).
    rewrite includes_cons, startsWith_pair, Hd. reflexivity.
  - change (String x a +:+ String d r) with (String x (a +:+ String d r)).
    rewrite !includes_cons, !startsWith_pair, IH.
    destruct a as [|y a].
    + change ("" +:+ String d r) with (String d r).
      rewrite startsWith_char, Hd. cbn [startsWith]. rewrite !andb_false_r.
      reflexivity.
    + change (String y a +:+ String d r) with (String y (a +:+ String d r)).
      rewrite !startsWith_char, orb_assoc. reflexivity.
Qed.

(** [s.replace(p, r)] for a pattern and a replacement of one code unit *)
Lemma replace_char_cons p r a s :
  replace (String a s) (String p "") (String r "") =
  if Ascii.eqb p a then String r s
  else String a (replace s (String p "") (String r "")).
Proof.
  change (replace (String a s) (String p "") (String r ""))
    with (if startsWith (String a s) (String p "")
          then String r "" +:+ substring 1 (String a s)
          else String a (replace s (String p "") (String r ""))).
  rewrite startsWith_char. reflexivity.
Qed.

Lemma includes_replace_char c p r s :
  Ascii.eqb c r = false ->
  includes s (String c "") = false ->
  includes (replace s (String p "") (String r "")) (String c "") = false.
Proof.
  intros Hr. induction s as [|a s IH]; intros H; [reflexivity|].
  rewrite includes_char_cons in H. apply orb_false_elim in H as [Ha Hs].
  rewrite replace_char_cons. destruct (Ascii.eqb p a).
  - rewrite includes_char_cons, Hr, Hs. reflexivity.
  - rewrite includes_char_cons, Ha, IH by exact Hs. reflexivity.
Qed.

(** *** Prefixes *)

Lemma substringTo_all s : forall n,
  (String.length s <= n)%nat -> substringTo n s = s.
Proof.
  induction s as [|a s IH]; intros n H; [destruct n; reflexivity|].
  destruct n as [|n]; [simpl in H; lia|]. simpl. rewrite IH; [reflexivity|].
  simpl in H. lia.
Qed.

Lemma substringTo_app s : forall n extra,
  (n <= String.length s)%nat -> substringTo n (s +:+ extra) = substringTo n s.
Proof.
  induction s as [|a s IH]; intros n extra H.
  - destruct n as [|n]; [destruct extra; reflexivity | simpl in H; lia].
  - destruct n as [|n]; [reflexivity|].
    change (String a s +:+ extra) with (String a (s +:+ extra)). simpl.
    rewrite IH; [reflexivity|]. simpl in H. lia.
Qed.

Lemma last_shift {A} (ns : list A) : forall m n,
  List.last (m :: ns) n = List.last ns m.
Proof.
  induction ns as [|a ns IH]; intros m n; [reflexivity|].
  change (List.last (m :: a :: ns) n) with (List.last (a :: ns) n).
  rewrite (IH a n), (IH a m). reflexivity.
Qed.

Lemma last_In {A} (ns : list A) : forall n, In (List.last ns n) (n :: ns).
Proof.
  induction ns as [|a ns IH]; intros n; [left; reflexivity|].
  right. rewrite (last_shift ns a n). apply IH.
Qed.

(** ** Persona parsing, continued *)

(** The line [key: x] of a persona text, for a key that is a word. *)
Lemma keyLine_clean key k ks x :
  key = String k ks -> isSpace k = false -> Ascii.eqb "*" k = false ->
  includes key "*" = false -> includes key ":" = false ->
  plain x ->
  let line := key +:+ ": " +:+ x in
  trim (replaceAllRe false boldRe (replaceRe false bulletRe (trim line) "") "")
  = line /\
  afterColon line = Some x.
Proof.
  intros Hkey Hk Hstar Hnostar Hnocolon (Hne & Ht & _ & Hc & Hbb) line.
  destruct (trimmed_ends x Ht Hne) as [(c & s & Hx & Hcs) (d & Hd & Hds)].
  assert (Hline : trim line = line).
  { assert (Hlast : lastChar line = Some d).
    { subst line. rewrite lastChar_app by (rewrite Hx; discriminate).
      rewrite lastChar_app by exact Hne. exact Hd. }
    subst line. rewrite Hkey in *.
    change (String k ks +:+ ": " +:+ x) with (String k (ks +:+ ": " +:+ x)) in *.
    apply (trim_fixed _ _ d); [exact Hk | exact Hlast | exact Hds]. }
  split.
  - apply cleanLine_fixed; [exact Hline | |].
    + subst line. rewrite Hkey.
      change (String k ks +:+ ": " +:+ x) with (String k (ks +:+ ": " +:+ x)).
      rewrite startsWith_char. exact Hstar.
    + subst line. rewrite includes_pair_app by exact Hnostar. exact Hbb.
  - unfold afterColon. subst line.
    change (key +:+ ": " +:+ x) with (key +:+ String ":" (" " +:+ x)).
    rewrite split_piece by exact Hnocolon.
    rewrite split_none.
    + cbn [lookup list_lookup fmap option_fmap option_map]. f_equal.
      rewrite Hx. unfold trim.
      change (" " +:+ String c s) with (String " " (String c s)).
      change (trimStart (String " " (String c s))) with (trimStart (String c s)).
      rewrite trimStart_fixed by exact Hcs. rewrite <- Hx.
      eapply trimEnd_fixed; eauto.
    + change (" " +:+ x) with (String " " x). rewrite includes_char_cons.
      exact Hc.
Qed.

Lemma parseLine_name acc cur x :
  plain x ->
  parseLine (acc, cur) ("Name: " +:+ x) =
  (flush acc cur, mkPartial (Some (Some x)) None None None).
Proof.
  intros H.
  destruct (keyLine_clean "Name" "N" "ame" x eq_refl eq_refl eq_refl eq_refl
              eq_refl H) as [Hc Ha].
  change ("Name: " +:+ x) with ("Name" +:+ ": " +:+ x).
  unfold parseLine. cbv zeta. rewrite Hc, Ha.
  change (startsWith (toLowerCase ("Name" +:+ ": " +:+ x)) "name:") with true.
  cbv iota. destruct H as [Hne _]. apply truthy_nonempty in Hne.
  unfold orElseU, orElse. rewrite Hne. reflexivity.
Qed.

Lemma parseLine_role acc cur x :
  plain x ->
  parseLine (acc, cur) ("Role: " +:+ x) =
  (acc, mkPartial (p_name cur) (Some (Some x)) (p_affiliation cur)
          (p_description cur)).
Proof.
  intros H.
  destruct (keyLine_clean "Role" "R" "ole" x eq_refl eq_refl eq_refl eq_refl
              eq_refl H) as [Hc Ha].
  change ("Role: " +:+ x) with ("Role" +:+ ": " +:+ x).
  unfold parseLine. cbv zeta. rewrite Hc, Ha.
  change (startsWith (toLowerCase ("Role" +:+ ": " +:+ x)) "name:") with false.
  change (startsWith (toLowerCase ("Role" +:+ ": " +:+ x)) "role:") with true.
  reflexivity.
Qed.

Lemma parseLine_affiliation acc cur x :
  plain x ->
  parseLine (acc, cur) ("Affiliation: " +:+ x) =
  (acc, mkPartial (p_name cur) (p_role cur) (Some (Some x))
          (p_description cur)).
Proof.
  intros H.
  destruct (keyLine_clean "Affiliation" "A" "ffiliation" x eq_refl eq_refl
              eq_refl eq_refl eq_refl H) as [Hc Ha].
  change ("Affiliation: " +:+ x) with ("Affiliation" +:+ ": " +:+ x).
  unfold parseLine. cbv zeta. rewrite Hc, Ha.
  change (startsWith (toLowerCase ("Affiliation" +:+ ": " +:+ x)) "name:")
    with false.
  change (startsWith (toLowerCase ("Affiliation" +:+ ": " +:+ x)) "role:")
    with false.
  change (startsWith (toLowerCase ("Affiliation" +:+ ": " +:+ x)) "affiliation:")
    with true.
  reflexivity.
Qed.

Lemma parseLine_description acc cur x :
  plain x ->
  parseLine (acc, cur) ("Description: " +:+ x) =
  (acc, mkPartial (p_name cur) (p_role cur) (p_affiliation cur)
          (Some (Some x))).
Proof.
  intros H.
  destruct (keyLine_clean "Description" "D" "escription" x eq_refl eq_refl
              eq_refl eq_refl eq_refl H) as [Hc Ha].
  change ("Description: " +:+ x) with ("Description" +:+ ": " +:+ x).
  unfold parseLine. cbv zeta. rewrite Hc, Ha.
  change (startsWith (toLowerCase ("Description" +:+ ": " +:+ x)) "name:")
    with false.
  change (startsWith (toLowerCase ("Description" +:+ ": " +:+ x)) "role:")
    with false.
  change (startsWith (toLowerCase ("Description" +:+ ": " +:+ x)) "affiliation:")
    with false.
  change (startsWith (toLowerCase ("Description" +:+ ": " +:+ x)) "description:")
    with true.
  reflexivity.
Qed.

Lemma parseLine_empty st : parseLine st "" = st.
Proof. destruct st. reflexivity. Qed.

Lemma split_line x r :
  includes x LF = false -> split (x +:+ LF +:+ r) LF = x :: split r LF.
Proof. intros H. apply (split_piece (ascii_of_nat 10) x r H). Qed.

Lemma plain_key_no_LF key x :
  includes key LF = false -> plain x -> includes (key +:+ x) LF = false.
Proof.
  intros Hk (_ & _ & Hx & _). unfold LF in *.
  rewrite includes_char_app, Hk, Hx. reflexivity.
Qed.

Lemma persona_lines a rest :
  plainAnalyst a ->
  split (persona a +:+ rest) LF = personaLines a ++ split rest LF.
Proof.
  intros (Hn & Hr & Ha & Hd). unfold persona, personaLines.
  rewrite !append_assoc.
  rewrite <- (append_assoc "Name: " (name a)).
  rewrite split_line by (apply plain_key_no_LF; [reflexivity | exact Hn]).
  rewrite <- (append_assoc "Role: " (role a)).
  rewrite split_line by (apply plain_key_no_LF; [reflexivity | exact Hr]).
  rewrite <- (append_assoc "Affiliation: " (affiliation a)).
  rewrite split_line by (apply plain_key_no_LF; [reflexivity | exact Ha]).
  rewrite <- (append_assoc "Description: " (description a)).
  rewrite split_line by (apply plain_key_no_LF; [reflexivity | exact Hd]).
  reflexivity.
Qed.

Lemma parse_personaLines a acc cur :
  plainAnalyst a ->
  fold_left parseLine (personaLines a) (acc, cur) = (flush acc cur, fullPartial a).
Proof.
  intros (Hn & Hr & Ha & Hd). unfold personaLines. cbn [fold_left].
  rewrite parseLine_name, parseLine_role, parseLine_affiliation,
    parseLine_description by assumption.
  reflexivity.
Qed.

Lemma completeAnalyst_full a : plainAnalyst a -> completeAnalyst (fullPartial a) = a.
Proof.
  intros ((Hn & _) & (Hr & _) & (Ha & _) & (Hd & _)).
  apply truthy_nonempty in Hn, Hr, Ha, Hd.
  destruct a as [n r af d]. unfold completeAnalyst, fullPartial.
  cbn [name role affiliation description p_name p_role p_affiliation
       p_description get orElseU] in *.
  unfold orElse. rewrite Hn, Hr, Ha, Hd. reflexivity.
Qed.

Lemma flush_full acc a : plainAnalyst a -> flush acc (fullPartial a) = acc ++ [a].
Proof.
  intros H. unfold flush. rewrite completeAnalyst_full by exact H.
  destruct H as ((Hn & _) & _). apply truthy_nonempty in Hn.
  unfold fullPartial at 1 2. cbn [p_name get truthyU]. rewrite Hn. reflexivity.
Qed.

Lemma personas_cons a l :
  join "" (map persona (a :: l)) = persona a +:+ join "" (map persona l).
Proof.
  destruct l as [|b l]; [symmetry; apply append_nil_r | reflexivity].
Qed.

Lemma parse_personas l : forall acc a,
  Forall plainAnalyst (a :: l) ->
  let '(analysts, cur) :=
    fold_left parseLine (split (join "" (map persona l)) LF) (acc, fullPartial a) in
  (if truthyU (get (p_name cur)) then analysts ++ [completeAnalyst cur]
   else analysts) = acc ++ a :: l.
Proof.
  induction l as [|b l IH]; intros acc a Hall.
  - inversion Hall as [|? ? Ha _]; subst.
    change (split (join "" (map persona [])) LF) with [""].
    cbn [fold_left]. rewrite parseLine_empty.
    rewrite completeAnalyst_full by exact Ha.
    destruct Ha as ((Hn & _) & _). apply truthy_nonempty in Hn.
    cbn [fullPartial p_name get truthyU]. rewrite Hn. reflexivity.
  - inversion Hall as [|? ? Ha Hrest]; subst.
    inversion Hrest as [|? ? Hb _]; subst.
    rewrite personas_cons, persona_lines by exact Hb.
    rewrite fold_left_app, parse_personaLines by exact Hb.
    rewrite flush_full by exact Ha.
    specialize (IH (acc ++ [a]) b Hrest).
    destruct (fold_left parseLine (split (join "" (map persona l)) LF)
                (acc ++ [a], fullPartial b)) as [analysts cur].
    rewrite IH, <- app_assoc. reflexivity.
Qed.

(** X1. Parsing undoes the persona text.  For every non-empty list of
    analysts whose four fields are plain (not empty, without white space
    around them, on one line, without a colon and without the bold mark),
    parsing their persona texts, one after the other, gives the analysts
    back, in order and unchanged: no field is lost, cut or replaced by a
    default. *)
Theorem parse_persona_round_trip (l : list Analyst) :
  l <> [] -> Forall plainAnalyst l ->
  parseAnalystsFromResponse (join "" (map persona l)) = l.
Proof.
  intros Hne Hall. destruct l as [|a l]; [congruence|].
  inversion Hall as [|? ? Ha _]; subst.
  unfold parseAnalystsFromResponse.
  rewrite personas_cons, persona_lines by exact Ha.
  rewrite fold_left_app, parse_personaLines by exact Ha.
  change (flush [] emptyPartial) with (@nil Analyst).
  pose proof (parse_personas l [] a Hall) as H.
  destruct (fold_left parseLine (split (join "" (map persona l)) LF)
              ([], fullPartial a)) as [analysts cur].
  rewrite H. reflexivity.
Qed.

Lemma parse_persona_round_trip_witness :
  parseAnalystsFromResponse (join "" (map persona [ada; bo])) = [ada; bo].
Proof.
  apply (parse_persona_round_trip [ada; bo]); [discriminate|].
  repeat constructor; try discriminate; vm_compute; reflexivity.
Defined.

Lemma flush_name_only acc v : flush acc (mkPartial v None None None) = acc.
Proof.
  unfold flush. cbn [p_name]. unfold keys.
  cbn [p_name p_role p_affiliation p_description].
  destruct v as [v|]; [|rewrite andb_false_r || reflexivity].
  - rewrite filter_cons. destruct (decide (is_Some (Some v))) as [_|H].
    + rewrite !filter_cons_False, filter_nil by (intros []; discriminate).
      cbn [length Nat.ltb Nat.leb]. rewrite andb_false_r. reflexivity.
    + destruct H. eauto.
  - reflexivity.
Qed.

Lemma parse_names ns : forall v n,
  Forall plain (n :: ns) ->
  fold_left parseLine (map (fun n => "Name: " +:+ n) (n :: ns))
    ([], mkPartial v None None None) =
  ([], mkPartial (Some (Some (List.last ns n))) None None None).
Proof.
  induction ns as [|m ns IH]; intros v n Hall;
    inversion Hall as [|? ? Hn Hrest]; subst.
  - cbn [map fold_left List.last]. rewrite parseLine_name by exact Hn.
    rewrite flush_name_only. reflexivity.
  - change (map (fun n => "Name: " +:+ n) (n :: m :: ns))
      with (("Name: " +:+ n) :: map (fun n => "Name: " +:+ n) (m :: ns)).
    cbn [fold_left]. rewrite parseLine_name by exact Hn.
    rewrite flush_name_only. rewrite IH by exact Hrest.
    rewrite (last_shift ns m n). reflexivity.
Qed.

(** X2. Analysts given by name only are lost, all but the last.  When every
    line of the answer is a "Name:" line with a plain name, the parser
    returns one analyst: the last name, with the default role, affiliation
    and description.  A record with a name and nothing else is dropped when
    the next one starts, and kept when the text ends. *)
Theorem names_only_keeps_last n ns :
  Forall plain (n :: ns) ->
  parseAnalystsFromResponse (join LF (map (fun n => "Name: " +:+ n) (n :: ns))) =
  [namedOnly (List.last ns n)].
Proof.
  intros Hall. unfold parseAnalystsFromResponse.
  rewrite (split_join_char (ascii_of_nat 10)).
  - change emptyPartial with (mkPartial None None None None).
    rewrite parse_names by exact Hall.
    assert (Hl : plain (List.last ns n)).
    { rewrite List.Forall_forall in Hall. apply Hall, last_In. }
    destruct Hl as [Hne _]. apply truthy_nonempty in Hne.
    cbn [p_name get truthyU]. rewrite Hne. cbn [app length Nat.eqb].
    unfold completeAnalyst, namedOnly.
    cbn [p_name p_role p_affiliation p_description get orElseU].
    unfold orElse. rewrite Hne. reflexivity.
  - discriminate.
  - apply Forall_map. eapply Forall_impl; [exact Hall|].
    intros x Hx. apply (plain_key_no_LF "Name: " x); [reflexivity | exact Hx].
Qed.

Lemma names_only_keeps_last_witness :
  parseAnalystsFromResponse
    (join LF (map (fun n => "Name: " +:+ n) ["Ada Park"; "Bo Lind"])) =
  [namedOnly "Bo Lind"].
Proof.
  apply (names_only_keeps_last "Ada Park" ["Bo Lind"]).
  repeat constructor; try discriminate; vm_compute; reflexivity.
Defined.

(** X3. The fallback always makes exactly three analysts, whatever the
    content: with the roles Senior Economist, Data Analyst and Research
    Analyst, the affiliations Reserve Bank, Research Institute and AI
    Analytics, in this order, each with a name that is not empty and the
    description built from that name.  At most three names are taken from
    the content, so the larger of their number and three is three. *)
Theorem createAnalystsFromContent_three content :
  exists n1 n2 n3,
    createAnalystsFromContent content =
    [mkAnalyst n1 "Senior Economist" "Reserve Bank"
       (n1 +:+ " provides expert analysis and insights on the topic.");
     mkAnalyst n2 "Data Analyst" "Research Institute"
       (n2 +:+ " provides expert analysis and insights on the topic.");
     mkAnalyst n3 "Research Analyst" "AI Analytics"
       (n3 +:+ " provides expert analysis and insights on the topic.")] /\
    n1 <> "" /\ n2 <> "" /\ n3 <> "".
Proof.
  unfold createAnalystsFromContent. cbv zeta.
  set (names := take 3 (dedup (matchAll false nameRegex content))).
  assert (Hlen : (length names <= 3)%nat).
  { subst names. rewrite length_take. lia. }
  replace (Nat.max (length names) 3) with 3%nat by lia.
  cbn [seq map]. unfold fallbackAnalyst. cbn [Nat.eqb Nat.add].
  eexists _, _, _. split; [reflexivity|].
  repeat split; apply truthy_nonempty, orElseU_truthy; reflexivity.
Qed.

(** ** The workflow *)

Lemma parseAnalystsFromResponse_nonempty content :
  parseAnalystsFromResponse content <> [].
Proof.
  unfold parseAnalystsFromResponse.
  destruct (fold_left parseLine (split content LF) ([], emptyPartial))
    as [analysts cur].
  set (final := if truthyU (get (p_name cur))
                then analysts ++ [completeAnalyst cur] else analysts).
  destruct (length final =? 0)%nat eqn:E.
  - pose proof (createAnalystsFromContent_length content) as H.
    intros Hnil. rewrite Hnil in H. simpl in H. lia.
  - apply Nat.eqb_neq in E. intros Hnil. rewrite Hnil in E. apply E. reflexivity.
Qed.

Lemma mockSections_nonempty analysts :
  analysts <> [] -> (length (map mockSection analysts) =? 0)%nat = false.
Proof. destruct analysts; [congruence | reflexivity]. Qed.

Section WorkflowProperties.

Variable W : World.
Variable CREATE_ANALYSTS_PROMPT : string -> Z -> string -> string.
Variable REPORT_WRITER_INSTRUCTIONS : string -> string.
Variable INTRO_CONCLUSION_INSTRUCTIONS : string -> string -> string.

Local Abbreviation executeWorkflow_ :=
  (executeWorkflow W CREATE_ANALYSTS_PROMPT REPORT_WRITER_INSTRUCTIONS
     INTRO_CONCLUSION_INSTRUCTIONS).
Local Abbreviation askAnalysts_ := (askAnalysts CREATE_ANALYSTS_PROMPT).
Local Abbreviation askReport_ := (askReport REPORT_WRITER_INSTRUCTIONS).
Local Abbreviation askIntroduction_ :=
  (askIntroduction INTRO_CONCLUSION_INSTRUCTIONS).
Local Abbreviation askConclusion_ :=
  (askConclusion INTRO_CONCLUSION_INSTRUCTIONS).

(** The workflow with its four stages unfolded. *)
Lemma executeWorkflow_unfold threadId topic maxAnalysts feedback h :
  executeWorkflow_ threadId topic maxAnalysts feedback h =
  let wrap stage cause :=
    ResearchAnalystException "Workflow execution failed"
      (ResearchAnalystException stage cause) in
  let m1 := askAnalysts_ topic maxAnalysts feedback in
  match llm W h m1 with
  | inl c => (inl (wrap "Failed to create analysts" c), h ++ [LlmCall m1])
  | inr a1 =>
      let analysts := parseAnalystsFromResponse (msg_content a1) in
      let sections := map mockSection analysts in
      let m2 := askReport_ topic sections in
      match llm W (h ++ [LlmCall m1]) m2 with
      | inl c =>
          (inl (wrap "Failed to write main report" c),
           h ++ [LlmCall m1; LlmCall m2])
      | inr a2 =>
          let m3 := askIntroduction_ topic sections in
          match llm W (h ++ [LlmCall m1; LlmCall m2]) m3 with
          | inl c =>
              (inl (wrap "Failed to generate introduction" c),
               h ++ [LlmCall m1; LlmCall m2; LlmCall m3])
          | inr a3 =>
              let m4 := askConclusion_ topic sections in
              match llm W (h ++ [LlmCall m1; LlmCall m2; LlmCall m3]) m4 with
              | inl c =>
                  (inl (wrap "Failed to generate conclusion" c),
                   h ++ [LlmCall m1; LlmCall m2; LlmCall m3; LlmCall m4])
              | inr a4 =>
                  (inr (mkResult threadId analysts sections
                          (finalizeReport (msg_content a2) (msg_content a3)
                             (msg_content a4))),
                   h ++ [LlmCall m1; LlmCall m2; LlmCall m3; LlmCall m4])
              end
          end
      end
  end.
Proof.
  unfold executeWorkflow, createAnalysts, writeReport,
    writeIntroduction, writeConclusion, try_catch, mbind, M_bind, bind,
    llm_invoke, throw, mret, M_ret, ret.
  cbn [in_topic in_max_analysts in_human_analyst_feedback]. cbv zeta.
  fold (askAnalysts_ topic maxAnalysts feedback).
  destruct (llm W h (askAnalysts_ topic maxAnalysts feedback)) as [c|a1];
    [reflexivity|].
  pose proof (parseAnalystsFromResponse_nonempty (msg_content a1)) as Hne.
  rewrite (mockSections_nonempty _ Hne).
  set (sections := map mockSection (parseAnalystsFromResponse (msg_content a1))).
  fold (askReport_ topic sections).
  destruct (llm W _ (askReport_ topic sections)) as [c|a2];
    [rewrite <- ?app_assoc; reflexivity|].
  fold (askIntroduction_ topic sections).
  rewrite <- ?app_assoc. cbn [app].
  destruct (llm W _ (askIntroduction_ topic sections)) as [c|a3];
    [rewrite <- ?app_assoc; reflexivity|].
  fold (askConclusion_ topic sections).
  rewrite <- ?app_assoc. cbn [app].
  destruct (llm W _ (askConclusion_ topic sections)) as [c|a4];
    rewrite <- ?app_assoc; reflexivity.
Qed.

(** X4. A run of the workflow succeeds exactly when the model answers its
    four questions, asked in this order: the personas (with the feedback text,
    or the empty string), the report, the introduction and the conclusion.
    Then the run has made these four calls and no other, its analysts are the
    ones parsed from the first answer, at least one, its sections are the
    mock sections of these analysts, one for each (the placeholder for a
    missing section is never used), and its report is assembled from the
    other three answers. *)
Theorem executeWorkflow_success threadId topic maxAnalysts feedback h r h' :
  executeWorkflow_ threadId topic maxAnalysts feedback h = (inr r, h') <->
  exists a1 a2 a3 a4,
    let analysts := parseAnalystsFromResponse (msg_content a1) in
    let sections := map mockSection analysts in
    let m1 := askAnalysts_ topic maxAnalysts feedback in
    let m2 := askReport_ topic sections in
    let m3 := askIntroduction_ topic sections in
    let m4 := askConclusion_ topic sections in
    llm W h m1 = inr a1 /\
    llm W (h ++ [LlmCall m1]) m2 = inr a2 /\
    llm W (h ++ [LlmCall m1; LlmCall m2]) m3 = inr a3 /\
    llm W (h ++ [LlmCall m1; LlmCall m2; LlmCall m3]) m4 = inr a4 /\
    h' = h ++ [LlmCall m1; LlmCall m2; LlmCall m3; LlmCall m4] /\
    analysts <> [] /\
    r = mkResult threadId analysts sections
          (finalizeReport (msg_content a2) (msg_content a3) (msg_content a4)).
Proof.
  rewrite executeWorkflow_unfold. cbv zeta. split.
  - destruct (llm W h _) as [c|a1] eqn:E1; [discriminate|].
    destruct (llm W (h ++ [_]) _) as [c|a2] eqn:E2; [discriminate|].
    destruct (llm W (h ++ [_; _]) _) as [c|a3] eqn:E3; [discriminate|].
    destruct (llm W (h ++ [_; _; _]) _) as [c|a4] eqn:E4; [discriminate|].
    intros H. inversion H; subst; clear H.
    exists a1, a2, a3, a4. repeat split; auto.
    apply parseAnalystsFromResponse_nonempty.
  - intros (a1 & a2 & a3 & a4 & E1 & E2 & E3 & E4 & -> & _ & ->).
    rewrite E1, E2, E3, E4. reflexivity.
Qed.

(** X5. A run of the workflow that fails has made between one and four calls
    to the model, the last of which threw; the error it throws is the
    workflow error "Workflow execution failed" built from the error of the
    stage that failed, itself built from what the model threw.  The message
    of the error is "Workflow execution failed" whatever the stage and the
    cause. *)
Theorem executeWorkflow_failure threadId topic maxAnalysts feedback h e h' :
  executeWorkflow_ threadId topic maxAnalysts feedback h = (inl e, h') ->
  exists calls m cause stage,
    h' = h ++ calls ++ [LlmCall m] /\ (length calls < 4)%nat /\
    llm W (h ++ calls) m = inl cause /\
    In stage stageMessages /\
    e = ResearchAnalystException "Workflow execution failed"
          (ResearchAnalystException stage cause) /\
    message_of e = "Workflow execution failed".
Proof.
  rewrite executeWorkflow_unfold. cbv zeta. unfold stageMessages.
  destruct (llm W h _) as [c|a1] eqn:E1.
  { intros H. inversion H; subst; clear H.
    eexists [], _, c, _. rewrite app_nil_r. cbn [length app In].
    repeat split; eauto; lia. }
  destruct (llm W (h ++ [_]) _) as [c|a2] eqn:E2.
  { intros H. inversion H; subst; clear H.
    eexists [_], _, c, _. cbn [length app In].
    repeat split; eauto; lia. }
  destruct (llm W (h ++ [_; _]) _) as [c|a3] eqn:E3.
  { intros H. inversion H; subst; clear H.
    eexists [_; _], _, c, _. cbn [length app In].
    repeat split; eauto; lia. }
  destruct (llm W (h ++ [_; _; _]) _) as [c|a4] eqn:E4; [|discriminate].
  intros H. inversion H; subst; clear H.
  eexists [_; _; _], _, c, _. cbn [length app In].
  repeat split; eauto 6; lia.
Qed.

End WorkflowProperties.

Lemma executeWorkflow_failure_witness :
  exists calls m cause stage,
    [LlmCall (askAnalysts createPrompt "Trade" 3 None)] =
      [] ++ calls ++ [LlmCall m] /\ (length calls < 4)%nat /\
    llm downWorld ([] ++ calls) m = inl cause /\
    In stage stageMessages /\
    ResearchAnalystException "Workflow execution failed"
      (ResearchAnalystException "Failed to create analysts"
         (Fault "503 Service Unavailable")) =
    ResearchAnalystException "Workflow execution failed"
      (ResearchAnalystException stage cause) /\
    message_of
      (ResearchAnalystException "Workflow execution failed"
         (ResearchAnalystException "Failed to create analysts"
            (Fault "503 Service Unavailable"))) =
    "Workflow execution failed".
Proof.
  apply (executeWorkflow_failure downWorld createPrompt reportPrompt
           introPrompt "thread_2" "Trade" 3 None []).
  reflexivity.
Defined.

(** X6. With an introduction and a conclusion that are not empty, and a body
    that does not open with the "## Insights" heading and does not contain
    "## Sources", the assembled report is the introduction, the body and the
    conclusion, in this order, with the separator between them and nothing
    else: the body is neither trimmed nor cut. *)
Theorem finalizeReport_assembles body introduction conclusion :
  startsWith body "## Insights" = false ->
  includes body "## Sources" = false ->
  introduction <> "" -> conclusion <> "" ->
  finalizeReport body introduction conclusion =
  introduction +:+ SEPARATOR +:+ body +:+ SEPARATOR +:+ conclusion.
Proof.
  intros Hins Hsrc Hi Hc. unfold finalizeReport, stripInsights, splitSources.
  rewrite Hins, Hsrc. apply truthy_nonempty in Hi, Hc. rewrite Hi, Hc.
  change ("" +:+ introduction +:+ SEPARATOR) with (introduction +:+ SEPARATOR).
  rewrite !append_assoc. reflexivity.
Qed.

Lemma finalizeReport_assembles_witness :
  finalizeReport "Findings" "Intro" "Concl" =
  "Intro" +:+ SEPARATOR +:+ "Findings" +:+ SEPARATOR +:+ "Concl".
Proof.
  apply (finalizeReport_assembles "Findings" "Intro" "Concl");
    [reflexivity | reflexivity | discriminate | discriminate].
Defined.

(** ** The report service: what the table holds *)

Section ServiceInvariants.

Variable CREATE_ANALYSTS_PROMPT : string -> Z -> string -> string.
Variable REPORT_WRITER_INSTRUCTIONS : string -> string.
Variable INTRO_CONCLUSION_INSTRUCTIONS : string -> string -> string.

Local Abbreviation step_ :=
  (step CREATE_ANALYSTS_PROMPT REPORT_WRITER_INSTRUCTIONS
     INTRO_CONCLUSION_INSTRUCTIONS).
Local Abbreviation reachable_ :=
  (reachable CREATE_ANALYSTS_PROMPT REPORT_WRITER_INSTRUCTIONS
     INTRO_CONCLUSION_INSTRUCTIONS).
Local Abbreviation reporterRun_ :=
  (reporterRun CREATE_ANALYSTS_PROMPT REPORT_WRITER_INSTRUCTIONS
     INTRO_CONCLUSION_INSTRUCTIONS).

(** What the end of an execution writes is consistent with its status. *)
Lemma finish_consistent old W reporterThread t now :
  consistent match fst (reporterRun_ W reporterThread t) with
             | inr result => completedWith old result now
             | inl e => failedWith old e now
             end.
Proof.
  unfold reporterRun. rewrite executeWorkflow_unfold. cbv zeta.
  repeat match goal with
         | |- context [match llm W ?h ?m with inl _ => _ | inr _ => _ end] =>
             destruct (llm W h m); cbn [fst]
         end;
    unfold consistent, failedWith, completedWith;
    cbn [status error_message end_time analysts sections final_report
         message_of r_analysts r_sections r_final_report];
    eauto.
  split; [|eauto]. eexists. split; [|eauto].
  apply parseAnalystsFromResponse_nonempty.
Qed.

Lemma step_consistent s e s' out :
  map_Forall (fun _ w => consistent w) (workflows s) ->
  step_ s e = Some (s', out) ->
  map_Forall (fun _ w => consistent w) (workflows s').
Proof.
  intros IH Hstep tid w Hw.
  event_cases e Hstep.
  - destruct (workflows s !! threadId) eqn:E; [discriminate|].
    inversion Hstep; subst; clear Hstep. cbn [workflows] in Hw.
    destruct (decide (threadId = tid)) as [->|Hne].
    + rewrite lookup_insert_eq in Hw. inversion Hw; subst.
      unfold consistent; cbn. auto.
    + rewrite lookup_insert_ne in Hw by exact Hne. exact (IH tid w Hw).
  - destruct (workflows s !! threadId) as [w0|] eqn:E;
      inversion Hstep; subst; clear Hstep; [|exact (IH tid w Hw)].
    cbn [workflows] in Hw.
    destruct (decide (threadId = tid)) as [->|Hne].
    + rewrite lookup_insert_eq in Hw. inversion Hw; subst.
      exact (IH tid w0 E).
    + rewrite lookup_insert_ne in Hw by exact Hne. exact (IH tid w Hw).
  - destruct (tasks s !! i) as [t|] eqn:Et; simpl in Hstep; [|discriminate].
    destruct (workflows s !! t_thread t) as [old|] eqn:E; simpl in Hstep;
      [|discriminate].
    inversion Hstep; subst; clear Hstep. cbn [workflows] in Hw.
    destruct (decide (t_thread t = tid)) as [Heq|Hne].
    + rewrite Heq, lookup_insert_eq in Hw. inversion Hw; subst.
      apply finish_consistent.
    + rewrite lookup_insert_ne in Hw by exact Hne. exact (IH tid w Hw).
  - destruct (resuming s !! j) as [threadId|] eqn:E; simpl in Hstep;
      [|discriminate].
    inversion Hstep; subst; clear Hstep. exact (IH tid w Hw).
  - destruct (workflows s !! threadId) as [w0|];
      inversion Hstep; subst; clear Hstep; exact (IH tid w Hw).
Qed.

(** X7. In every state the service can reach, every stored run is
    consistent with its status.  A run in progress has no analysts, no
    sections, no report, no error and no end time.  A completed run has
    analysts, at least one, the mock sections of these analysts, a report and
    an end time.  A run in error has an end time and the error text "Workflow
    execution failed": the stage that failed and its cause are not kept. *)
Theorem stored_runs_consistent s :
  reachable_ s -> map_Forall (fun _ w => consistent w) (workflows s).
Proof.
  induction 1 as [|s e s' out Hs IH Hstep].
  - intros tid w Hw. cbn [initial workflows] in Hw.
    rewrite lookup_empty in Hw. discriminate.
  - eapply step_consistent; eauto.
Qed.

(** A run in progress has the execution [startReportGeneration] began still
    suspended. *)
Lemma step_pending s e s' out :
  (forall tid w, workflows s !! tid = Some w -> status w = in_progress ->
     exists i, tasks s !! i = Some (mkTask tid (topic w) (max_analysts w) false)) ->
  step_ s e = Some (s', out) ->
  forall tid w, workflows s' !! tid = Some w -> status w = in_progress ->
    exists i, tasks s' !! i = Some (mkTask tid (topic w) (max_analysts w) false).
Proof.
  intros IH Hstep tid w Hw Hst.
  event_cases e Hstep.
  - destruct (workflows s !! threadId) eqn:E; [discriminate|].
    inversion Hstep; subst; clear Hstep. cbn [workflows tasks] in *.
    destruct (decide (threadId = tid)) as [->|Hne].
    + rewrite lookup_insert_eq in Hw. inversion Hw; subst. cbn.
      exists (length (tasks s)). rewrite lookup_app_r by lia.
      rewrite Nat.sub_diag. reflexivity.
    + rewrite lookup_insert_ne in Hw by exact Hne.
      destruct (IH tid w Hw Hst) as [i Hi]. exists i.
      apply lookup_app_l_Some. exact Hi.
  - destruct (workflows s !! threadId) as [w0|] eqn:E;
      inversion Hstep; subst; clear Hstep; [|eauto].
    cbn [workflows tasks] in *.
    destruct (decide (threadId = tid)) as [->|Hne].
    + rewrite lookup_insert_eq in Hw. inversion Hw; subst.
      destruct (IH tid w0 E Hst) as [i Hi]. exists i.
      apply lookup_app_l_Some. exact Hi.
    + rewrite lookup_insert_ne in Hw by exact Hne.
      destruct (IH tid w Hw Hst) as [i Hi]. exists i.
      apply lookup_app_l_Some. exact Hi.
  - destruct (tasks s !! i) as [t|] eqn:Et; simpl in Hstep; [|discriminate].
    destruct (workflows s !! t_thread t) as [old|] eqn:E; simpl in Hstep;
      [|discriminate].
    inversion Hstep; subst; clear Hstep. cbn [workflows tasks] in *.
    destruct (decide (t_thread t = tid)) as [Heq|Hne].
    + rewrite Heq, lookup_insert_eq in Hw. inversion Hw; subst.
      destruct (fst (reporterRun_ W reporterThread t)); discriminate Hst.
    + rewrite lookup_insert_ne in Hw by exact Hne.
      destruct (IH tid w Hw Hst) as [k Hk].
      assert (Hki : k <> i).
      { intros ->. rewrite Et in Hk. inversion Hk; subst. apply Hne. reflexivity. }
      destruct (decide (k < i)%nat).
      * exists k. rewrite list_lookup_delete_lt by assumption. exact Hk.
      * exists (pred k). rewrite list_lookup_delete_ge by lia.
        replace (S (pred k)) with k by lia. exact Hk.
  - destruct (resuming s !! j) as [threadId|] eqn:E; simpl in Hstep;
      [|discriminate].
    inversion Hstep; subst; clear Hstep. eauto.
  - destruct (workflows s !! threadId) as [w0|];
      inversion Hstep; subst; clear Hstep; eauto.
Qed.

(** X8. A run in progress is never left without an execution.  In every
    state the service can reach, a run whose status is [in_progress] has the
    execution that [startReportGeneration] began still suspended, awaited by
    nobody; whatever the generator does when it finishes, in whatever world,
    the end of that execution can be written and leaves the run [completed]
    or in [error]. *)
Theorem in_progress_is_pending s tid :
  reachable_ s -> statusOf s tid = Some in_progress ->
  exists i t,
    tasks s !! i = Some t /\ t_thread t = tid /\ t_awaited t = false /\
    forall W reporterThread now, exists s',
      step_ s (Finish i W reporterThread now) = Some (s', []) /\
      terminal (statusOf s' tid).
Proof.
  intros Hs Hst.
  assert (Hinv : forall tid w, workflows s !! tid = Some w ->
            status w = in_progress ->
            exists i, tasks s !! i =
                      Some (mkTask tid (topic w) (max_analysts w) false)).
  { clear tid Hst.
    induction Hs as [|s e s' out Hs IH Hstep]; intros tid w Hw.
    - cbn [initial workflows] in Hw. rewrite lookup_empty in Hw. discriminate.
    - eapply step_pending; eauto. }
  unfold statusOf in Hst.
  destruct (workflows s !! tid) as [w|] eqn:Hw; [|discriminate].
  cbn in Hst. inversion Hst as [Hst'].
  destruct (Hinv tid w Hw Hst') as [i Hi].
  exists i, (mkTask tid (topic w) (max_analysts w) false).
  split; [exact Hi|]. split; [reflexivity|]. split; [reflexivity|].
  intros W reporterThread now.
  eexists. cbn [step]. rewrite Hi. cbn [mbind option_bind t_thread].
  rewrite Hw. cbn [mbind option_bind]. split; [reflexivity|].
  unfold statusOf. cbn [workflows]. rewrite lookup_insert_eq. cbn.
  apply finish_status.
Qed.

(** X9. What [getReportStatus] answers in a state the service can reach.  The
    table is left as it is.  For a run that is not stored the answer is a
    failure without data.  A stored run gets data, with one exception: when
    the run is [completed] with a report that is not empty and saving the
    files throws, the answer is a failure with the message of that error and
    without data.  When the run is [completed] with a report that is not
    empty and the files are saved, the data are the status [completed], the
    thread asked about, the two paths and the stored report.  Whenever the
    answer has data, it is a success for the thread asked about and carries
    the stored status; with the status [in_progress] it carries no error and
    no report; with the status [error] it carries the text "Workflow
    execution failed"; it carries a report only when the run is [completed],
    the report is the stored one and not empty and both files were saved, and
    then it carries the two paths; without a report it carries no path. *)
Theorem getReportStatus_answers s threadId saved :
  reachable_ s ->
  exists r,
    step_ s (GetReportStatus threadId saved) =
      Some (s, [StatusReturned threadId r]) /\
    (workflows s !! threadId = None -> success r = false /\ data r = None) /\
    (forall w, workflows s !! threadId = Some w ->
       (status w <> completed \/ truthyU (final_report w) = false \/
        exists paths, saved = inr paths) ->
       is_Some (data r)) /\
    (forall w e, workflows s !! threadId = Some w ->
       status w = completed -> truthyU (final_report w) = true ->
       saved = inl e ->
       success r = false /\ data r = None /\
       resp_error r = Some (message_of e)) /\
    (forall w report docxPath pdfPath, workflows s !! threadId = Some w ->
       status w = completed -> final_report w = Some report -> report <> "" ->
       saved = inr (docxPath, pdfPath) ->
       data r = Some (mkStatusData completed threadId (Some docxPath)
                        (Some pdfPath) (Some report) None)) /\
    forall d, data r = Some d ->
      success r = true /\ rs_thread_id d = threadId /\
      statusOf s threadId = Some (rs_status d) /\
      (rs_status d = in_progress ->
       rs_error d = None /\ rs_final_report d = None) /\
      (rs_status d = error -> rs_error d = Some "Workflow execution failed") /\
      (forall report, rs_final_report d = Some report ->
         report <> "" /\ rs_status d = completed /\
         workflows s !! threadId ≫= final_report = Some report /\
         exists docxPath pdfPath,
           saved = inr (docxPath, pdfPath) /\
           rs_docx_path d = Some docxPath /\ rs_pdf_path d = Some pdfPath) /\
      (rs_final_report d = None ->
       rs_docx_path d = None /\ rs_pdf_path d = None).
Proof.
  intros Hs.
  assert (Hinv : map_Forall (fun _ w => consistent w) (workflows s)).
  { induction Hs as [|s e s1 out1 Hs IH Hstep].
    - intros tid w Hw. cbn [initial workflows] in Hw.
      rewrite lookup_empty in Hw. discriminate.
    - eapply step_consistent; eauto. }
  cbn [step]. unfold statusOf.
  destruct (workflows s !! threadId) as [w|] eqn:E;
    eexists; (split; [reflexivity|]).
  2:{ split; [auto|]. repeat split; try discriminate.
      all: intros; discriminate. }
  split; [discriminate|]. specialize (Hinv threadId w E). cbn beta in Hinv.
  unfold reportStatus. unfold consistent in Hinv.
  destruct (bool_decide (status w = completed) && truthyU (final_report w)) eqn:Ec.
  - apply andb_true_iff in Ec as [Hc Hr]. apply bool_decide_eq_true in Hc.
    split; [|split; [|split]].
    + intros w' Hw' [Hn|[Hn|[paths ->]]]; inversion Hw'; subst w'.
      * congruence.
      * congruence.
      * destruct paths. cbn [data]. eauto.
    + intros w' e Hw' _ _ ->. repeat split.
    + intros w' report docxPath pdfPath Hw' _ Hrep _ ->.
      inversion Hw'; subst w'. cbn [data]. rewrite Hrep. reflexivity.
    + destruct saved as [e|[docxPath pdfPath]]; cbn [data success];
        intros d Hd; inversion Hd; subst; clear Hd.
      cbn. rewrite Hc. repeat split; try discriminate.
      * rewrite H in Hr. apply truthy_nonempty. exact Hr.
      * exact H.
      * eauto.
      * match goal with
        | Hn : final_report w = None |- _ => rewrite Hn in Hr; discriminate Hr
        end.
      * match goal with
        | Hn : final_report w = None |- _ => rewrite Hn in Hr; discriminate Hr
        end.
  - split; [|split; [|split]].
    + intros w' Hw' _. cbn [data]. eauto.
    + intros w' e Hw' Hc' Hr' _. inversion Hw'; subst w'.
      rewrite Hr', andb_true_r in Ec. apply bool_decide_eq_false in Ec.
      contradiction.
    + intros w' report docxPath pdfPath Hw' Hc' Hrep Hne _.
      inversion Hw'; subst w'. rewrite Hrep in Ec. cbn [truthyU] in Ec.
      apply truthy_nonempty in Hne. rewrite Hne, andb_true_r in Ec.
      apply bool_decide_eq_false in Ec. contradiction.
    + cbn [data success]. intros d Hd. inversion Hd; subst; clear Hd. cbn.
      split; [reflexivity|]. split; [reflexivity|]. split; [reflexivity|].
      split; [|split; [|split; [discriminate|auto]]];
        intros Hst; rewrite Hst in Hinv; tauto.
Qed.

End ServiceInvariants.

Lemma stored_runs_consistent_witness :
  map_Forall (fun _ w => consistent w) (workflows (stateAfter 4)).
Proof.
  apply (stored_runs_consistent createPrompt reportPrompt introPrompt
           (stateAfter 4)).
  apply stateAfter_reachable.
Defined.

Lemma in_progress_is_pending_witness :
  exists i t,
    tasks (stateAfter 1) !! i = Some t /\ t_thread t = "run-1" /\
    t_awaited t = false /\
    forall W reporterThread now, exists s',
      step' (stateAfter 1) (Finish i W reporterThread now) = Some (s', []) /\
      terminal (statusOf s' "run-1").
Proof.
  apply (in_progress_is_pending createPrompt reportPrompt introPrompt
           (stateAfter 1) "run-1").
  - apply stateAfter_reachable.
  - vm_compute. reflexivity.
Defined.

Lemma getReportStatus_answers_witness :
  exists r,
    step' (stateAfter 2)
      (GetReportStatus "run-1" (inr ("Trade.docx", "Trade.pdf"))) =
      Some (stateAfter 2, [StatusReturned "run-1" r]) /\
    (workflows (stateAfter 2) !! "run-1" = None ->
     success r = false /\ data r = None) /\
    (forall w, workflows (stateAfter 2) !! "run-1" = Some w ->
       (status w <> completed \/ truthyU (final_report w) = false \/
        exists paths, @inr Exn _ ("Trade.docx", "Trade.pdf") = inr paths) ->
       is_Some (data r)) /\
    (forall w e, workflows (stateAfter 2) !! "run-1" = Some w ->
       status w = completed -> truthyU (final_report w) = true ->
       inr ("Trade.docx", "Trade.pdf") = inl e ->
       success r = false /\ data r = None /\
       resp_error r = Some (message_of e)) /\
    (forall w report docxPath pdfPath,
       workflows (stateAfter 2) !! "run-1" = Some w ->
       status w = completed -> final_report w = Some report -> report <> "" ->
       @inr Exn _ ("Trade.docx", "Trade.pdf") = inr (docxPath, pdfPath) ->
       data r = Some (mkStatusData completed "run-1" (Some docxPath)
                        (Some pdfPath) (Some report) None)) /\
    forall d, data r = Some d ->
      success r = true /\ rs_thread_id d = "run-1" /\
      statusOf (stateAfter 2) "run-1" = Some (rs_status d) /\
      (rs_status d = in_progress ->
       rs_error d = None /\ rs_final_report d = None) /\
      (rs_status d = error -> rs_error d = Some "Workflow execution failed") /\
      (forall report, rs_final_report d = Some report ->
         report <> "" /\ rs_status d = completed /\
         workflows (stateAfter 2) !! "run-1" ≫= final_report = Some report /\
         exists docxPath pdfPath,
           @inr Exn _ ("Trade.docx", "Trade.pdf") = inr (docxPath, pdfPath) /\
           rs_docx_path d = Some docxPath /\ rs_pdf_path d = Some pdfPath) /\
      (rs_final_report d = None ->
       rs_docx_path d = None /\ rs_pdf_path d = None).
Proof.
  apply (getReportStatus_answers createPrompt reportPrompt introPrompt
           (stateAfter 2) "run-1" (inr ("Trade.docx", "Trade.pdf"))).
  apply stateAfter_reachable.
Defined.

(** ** The interview graph, continued *)

Section NodeProperties.

Variable W : World.
Variable ANALYST_ASK_QUESTIONS : string -> string.
Variable GENERATE_SEARCH_QUERY : string.
Variable GENERATE_ANSWERS : string -> string -> string.
Variable WRITE_SECTION : string -> string.

Local Abbreviation searchWeb_ := (searchWeb W GENERATE_SEARCH_QUERY).
Local Abbreviation nodes_ :=
  (nodes W ANALYST_ASK_QUESTIONS GENERATE_SEARCH_QUERY GENERATE_ANSWERS
     WRITE_SECTION).

(** X10. The search step succeeds exactly when the model answers the query
    prompt and the search then returns at least one document; its update is
    then one context entry, the documents formatted and joined by the
    separator, and nothing else.  In every other case (the model throws, the
    search throws, or the search returns no document) the step throws. *)
Theorem searchWeb_succeeds_iff state h u :
  let ask := system GENERATE_SEARCH_QUERY :: messages state in
  fst (searchWeb_ state h) = inr u <->
  exists q docs,
    llm W h ask = inr q /\
    tavilySearch W (h ++ [LlmCall ask]) (msg_content q) = inr (Some docs) /\
    docs <> [] /\
    u = mkUpdate None
          (Some [join (LF +:+ LF +:+ "---" +:+ LF +:+ LF) (map formatDoc docs)])
          None None.
Proof.
  intros ask. unfold searchWeb, try_catch, mbind, M_bind, bind, llm_invoke,
    search_invoke. cbn [logger existsb String.eqb Logger_methods].
  fold ask.
  change (logger "info") with (@ret unit tt).
  change (logger "error") with (@ret unit tt).
  unfold ret, throw. cbn beta iota.
  destruct (llm W h ask) as [e|q] eqn:Eq; cbn [fst].
  { split; [discriminate|]. intros (q & docs & H & _). discriminate H. }
  destruct (tavilySearch W (h ++ [LlmCall ask]) (msg_content q))
    as [e|[[|d ds]|]] eqn:Es; cbn [fst].
  - split; [discriminate|]. intros (q' & docs & H1 & H2 & _).
    inversion H1; subst. rewrite Es in H2. discriminate H2.
  - split; [discriminate|]. intros (q' & docs & H1 & H2 & Hne & _).
    inversion H1; subst. rewrite Es in H2. inversion H2; subst. congruence.
  - split.
    + intros H. inversion H; subst. exists q, (d :: ds). auto.
    + intros (q' & docs & H1 & H2 & Hne & ->).
      inversion H1; subst. rewrite Es in H2. inversion H2; subst. reflexivity.
  - split; [discriminate|]. intros (q' & docs & H1 & H2 & _).
    inversion H1; subst. rewrite Es in H2. discriminate H2.
Qed.

(** X11. Whatever a node of the graph throws is the pipeline error with the
    message of that node, built from the error caught; this holds for the
    question, the search, the answer and the section node.  The node that
    saves the transcript never throws. *)
Theorem nodes_throw_wrapped name node state h e :
  In (name, node) nodes_ ->
  fst (node state h) = inl e ->
  exists m cause,
    e = ResearchAnalystException m cause /\ In (name, m) nodeMessages.
Proof.
  unfold nodes, nodeMessages. cbn [In].
  intros [H|[H|[H|[H|[H|[]]]]]]; inversion H; subst; clear H;
    unfold generateQuestion, searchWeb, generateAnswer, saveInterview,
      writeSection, try_catch, mbind, M_bind, bind, llm_invoke, search_invoke;
    cbn [logger existsb String.eqb Logger_methods];
    change (logger "info") with (@ret unit tt);
    change (logger "error") with (@ret unit tt);
    unfold ret, throw, mret, M_ret, ret; cbn beta iota.
  - destruct (llm W h _) as [c|q]; cbn [fst]; intros H; inversion H; subst.
    eexists _, _. split; [reflexivity|]. cbn. auto.
  - destruct (llm W h _) as [c|q]; cbn [fst].
    { intros H; inversion H; subst.
      eexists _, _. split; [reflexivity|]. cbn. auto. }
    destruct (tavilySearch W _ _) as [c|[[|d ds]|]]; cbn [fst];
      intros H; inversion H; subst;
      eexists _, _; (split; [reflexivity|]); cbn; auto.
  - destruct (llm W h _) as [c|q]; cbn [fst]; intros H; inversion H; subst.
    eexists _, _. split; [reflexivity|]. cbn. auto.
  - cbn [fst]. discriminate.
  - destruct (llm W h _) as [c|q]; cbn [fst]; intros H; inversion H; subst.
    eexists _, _. split; [reflexivity|]. cbn. auto 6.
Qed.

End NodeProperties.

Lemma nodes_throw_wrapped_witness :
  exists m cause,
    searchFailure = ResearchAnalystException m cause /\
    In ("search_web", m) nodeMessages.
Proof.
  apply (nodes_throw_wrapped quietWorld (fun s => s) "Write a search query."
           (fun s c => s) (fun s => s) "search_web"
           (searchWeb quietWorld "Write a search query.") afterQuestion []).
  - right. left. reflexivity.
  - reflexivity.
Defined.

(** X12. With the mock search tool, the tool the loader returns when the key
    of the search provider is missing, the search step succeeds whenever the
    model answers the query prompt: it makes the two calls and returns one
    context entry, the two mock documents for the query, formatted and
    joined by the separator. *)
Theorem searchWeb_with_mock_tool llm prompt state h q :
  let ask := system prompt :: messages state in
  llm h ask = inr q ->
  searchWeb (Loader.withMockSearch llm) prompt state h =
  (inr (mkUpdate None
          (Some [join (LF +:+ LF +:+ "---" +:+ LF +:+ LF)
                   (map formatDoc (Loader.mockSearch (msg_content q)))])
          None None),
   h ++ [LlmCall ask; SearchCall (msg_content q)]).
Proof.
  intros ask Hq.
  unfold searchWeb, try_catch, mbind, M_bind, bind, llm_invoke, search_invoke.
  cbn [logger existsb String.eqb Logger_methods].
  change (logger "info") with (@ret unit tt).
  unfold ret. cbn beta iota. fold ask.
  cbn [Effect.llm Loader.withMockSearch]. rewrite Hq.
  cbn [tavilySearch Loader.mockSearch mret M_ret ret].
  rewrite <- app_assoc. reflexivity.
Qed.

Lemma searchWeb_with_mock_tool_witness :
  searchWeb (Loader.withMockSearch steadyModel) "Write a search query."
    afterQuestion [] =
  (inr (mkUpdate None
          (Some [join (LF +:+ LF +:+ "---" +:+ LF +:+ LF)
                   (map formatDoc (Loader.mockSearch "supply chain resilience"))])
          None None),
   [LlmCall (system "Write a search query." :: messages afterQuestion);
    SearchCall "supply chain resilience"]).
Proof.
  apply (searchWeb_with_mock_tool steadyModel "Write a search query."
           afterQuestion [] (mkMessage AIMessage None "supply chain resilience")).
  reflexivity.
Defined.

(** ** Sessions, sign-up and passwords *)

Lemma login_sessions sessions body now c :
  checkAuth (fst (login sessions body now)) (Some c) = true <->
  checkAuth sessions (Some c) = true \/
  (c = "admin_" +:+ showNat now /\ PostLogin body now = adminLogin now).
Proof.
  unfold login, adminLogin. destruct body as [[username password]|].
  - destruct (bool_decide (username = Some "admin")) eqn:Eu;
      [apply bool_decide_eq_true in Eu; subst
      |apply bool_decide_eq_false in Eu].
    + destruct (bool_decide (password = Some "admin123")) eqn:Ep;
        [apply bool_decide_eq_true in Ep; subst
        |apply bool_decide_eq_false in Ep]; cbn [andb fst].
      * unfold checkAuth. destruct (truthy c) eqn:Et.
        -- rewrite !bool_decide_eq_true.
           change ("admin" +:+ "_" +:+ showNat now) with ("admin_" +:+ showNat now).
           rewrite lookup_insert_is_Some. split.
           ++ intros [<-|[_ H]]; auto.
           ++ intros [H|[-> _]]; [|auto].
              destruct (decide ("admin_" +:+ showNat now = c)); auto.
        -- split; [discriminate|]. intros [H|[-> _]]; discriminate.
      * split; [auto|]. intros [H|[_ H]]; [exact H|]. congruence.
    + cbn [andb fst]. split; [auto|]. intros [H|[_ H]]; [exact H|]. congruence.
  - cbn [fst]. split; [auto|]. intros [H|[_ H]]; [exact H | discriminate].
Qed.

Lemma serve_sessions rs : forall sessions c,
  checkAuth (fold_left (fun sessions r => fst (serve sessions r)) rs sessions)
    (Some c) = true <->
  checkAuth sessions (Some c) = true \/
  exists now, c = "admin_" +:+ showNat now /\ In (adminLogin now) rs.
Proof.
  induction rs as [|r rs IH]; intros sessions c.
  - cbn [fold_left]. split; [auto|]. intros [H|(now & _ & [])]. exact H.
  - cbn [fold_left]. rewrite IH. destruct r as [body now|body]; cbn [serve].
    + rewrite login_sessions. split.
      * intros [[H|[Hc Hb]]|(now' & Hc & Hin)]; [auto| |].
        -- right. exists now. split; [exact Hc|]. left. exact Hb.
        -- right. exists now'. split; [exact Hc|]. right. exact Hin.
      * intros [H|(now' & Hc & [Heq|Hin])]; [auto| |].
        -- left. right. unfold adminLogin in Heq. inversion Heq; subst.
           split; reflexivity.
        -- right. eauto.
    + cbn [fst]. split.
      * intros [H|(now' & Hc & Hin)]; [auto|]. right. exists now'.
        split; [exact Hc|]. right. exact Hin.
      * intros [H|(now' & Hc & [Heq|Hin])]; [auto|discriminate Heq|].
        right. eauto.
Qed.

(** X13. After any sequence of login and sign-up requests, a request is
    authenticated exactly when its session cookie is "admin_" followed by
    the clock reading of an earlier login with the credentials admin and
    admin123.  No other login and no sign-up opens a session, a session is
    never closed, and the identifier of a session is determined by the time
    of the login. *)
Theorem session_only_by_admin_login rs cookie :
  checkAuth (serveAll rs) cookie = true <->
  exists now,
    cookie = Some ("admin_" +:+ showNat now) /\ In (adminLogin now) rs.
Proof.
  destruct cookie as [c|]; [|split; [discriminate | intros (now & H & _); discriminate H]].
  unfold serveAll. rewrite serve_sessions. split.
  - intros [H|(now & -> & Hin)]; [|eauto].
    unfold checkAuth in H. destruct (truthy c); [|discriminate].
    apply bool_decide_eq_true in H. rewrite lookup_empty in H.
    destruct H as [x H]. discriminate H.
  - intros (now & Hc & Hin). inversion Hc; subst. right. eauto.
Qed.

Section PasswordProperties.

Variable bcrypt_hash : string -> Z -> string -> string.
Variable bcrypt_compare : string -> string -> bool.

(** X14. A password the sign-up form accepts is hashed and verified whole:
    the form refuses what is longer than 72 code units, which is where
    [hashPassword] and [verifyPassword] cut. *)
Theorem accepted_password_hashed_whole username password salt hashed :
  signup (Some (username, Some password)) = Redirected "/" None ->
  Accounts.hashPassword bcrypt_hash salt password = bcrypt_hash password 10 salt /\
  Accounts.verifyPassword bcrypt_compare password hashed =
  bcrypt_compare password hashed.
Proof.
  unfold signup.
  destruct (negb (truthyU username) || negb (truthyU (Some password)));
    [discriminate|].
  change (default "" (Some password)) with password.
  destruct (72 <? String.length password)%nat eqn:E;
    [discriminate|].
  intros _. apply Nat.ltb_ge in E.
  unfold Accounts.hashPassword, Accounts.verifyPassword.
  rewrite substringTo_all by exact E. split; reflexivity.
Qed.

(** X15. Beyond 72 code units a password is not looked at: whatever is added
    to a password of at least 72 code units, the hash (for the same salt) and
    the outcome of the verification are the same. *)
Theorem password_cut_at_72 password extra salt hashed :
  (72 <= String.length password)%nat ->
  Accounts.hashPassword bcrypt_hash salt (password +:+ extra) =
  Accounts.hashPassword bcrypt_hash salt password /\
  Accounts.verifyPassword bcrypt_compare (password +:+ extra) hashed =
  Accounts.verifyPassword bcrypt_compare password hashed.
Proof.
  intros H. unfold Accounts.hashPassword, Accounts.verifyPassword.
  rewrite substringTo_app by exact H. split; reflexivity.
Qed.

End PasswordProperties.

Lemma accepted_password_hashed_whole_witness :
  Accounts.hashPassword toyHash "salt" "correct horse" =
    toyHash "correct horse" 10 "salt" /\
  Accounts.verifyPassword toyCompare "correct horse" "salt$correct horse" =
    toyCompare "correct horse" "salt$correct horse".
Proof.
  apply (accepted_password_hashed_whole toyHash toyCompare (Some "ada")
           "correct horse" "salt" "salt$correct horse").
  reflexivity.
Defined.

Lemma password_cut_at_72_witness :
  Accounts.hashPassword toyHash "salt" (longPassword +:+ " and more") =
    Accounts.hashPassword toyHash "salt" longPassword /\
  Accounts.verifyPassword toyCompare (longPassword +:+ " and more")
    ("salt$" +:+ longPassword) =
    Accounts.verifyPassword toyCompare longPassword ("salt$" +:+ longPassword).
Proof.
  apply (password_cut_at_72 toyHash toyCompare longPassword " and more" "salt"
           ("salt$" +:+ longPassword)).
  apply Nat.leb_le. reflexivity.
Defined.

(** ** The report form *)

Section HandlerProperties.

Variable CREATE_ANALYSTS_PROMPT : string -> Z -> string -> string.
Variable REPORT_WRITER_INSTRUCTIONS : string -> string.
Variable INTRO_CONCLUSION_INSTRUCTIONS : string -> string -> string.

Local Abbreviation generateReport_ :=
  (generateReport CREATE_ANALYSTS_PROMPT REPORT_WRITER_INSTRUCTIONS
     INTRO_CONCLUSION_INSTRUCTIONS).

(** X16. The handler of the report form starts a run exactly for an
    authenticated request with a topic that is not blank.  The run is then
    stored under the identifier the service drew, in progress, for three
    analysts and with the topic as it was typed, white space around it
    included; its execution is suspended and the progress page is shown.
    Every other request leaves the service as it is: it is redirected to the
    login page when it is not authenticated and answered with the status 400
    when the topic is missing or blank. *)
Theorem generateReport_starts_run authed topic threadId now s s' reply :
  threadId <> "" ->
  generateReport_ authed topic threadId now s = Some (s', reply) ->
  if authed && negb (String.eqb (trim (default "" topic)) "")
  then
    exists t,
      topic = Some t /\
      reply = Rendered 200 "report_progress.html" None /\
      workflows s !! threadId = None /\
      workflows s' =
        <[threadId := mkWorkflow threadId t 3 in_progress now
                        None None None None None None]> (workflows s) /\
      tasks s' = tasks s ++ [mkTask threadId t 3 false]
  else
    s' = s /\
    reply = if authed
            then Rendered 400 "dashboard.html" (Some "Please enter a topic")
            else Redirected "/" None.
Proof.
  intros Hid. unfold generateReport.
  destruct authed; cbn [negb andb]; [|intros H; inversion H; auto].
  destruct topic as [t|];
    [change (default "" (Some t)) with t
    |change (default "" (@None string)) with ""]; cbn [truthyU negb orb].
  2:{ change (trim "") with "". cbn. intros H; inversion H; auto. }
  destruct (String.eqb (trim t) "") eqn:Eb; cbn [negb].
  { rewrite orb_true_r. intros H; inversion H; auto. }
  assert (Ht : truthy t = true).
  { destruct t; [discriminate Eb | reflexivity]. }
  rewrite Ht. cbn [negb orb step].
  destruct (workflows s !! threadId) eqn:E; [discriminate|].
  cbn [mbind option_bind success data sd_thread_id negb].
  apply truthy_nonempty in Hid. rewrite Hid.
  intros H; inversion H; subst; clear H. exists t. auto.
Qed.

End HandlerProperties.

Lemma generateReport_starts_run_witness :
  exists t,
    Some " Trade" = Some t /\
    Rendered 200 "report_progress.html" None =
      Rendered 200 "report_progress.html" None /\
    workflows initial !! "run-1" = None /\
    workflows
      (mkService
         (<["run-1" := mkWorkflow "run-1" " Trade" 3 in_progress 0
                          None None None None None None]> ∅)
         [mkTask "run-1" " Trade" 3 false] []) =
      <["run-1" := mkWorkflow "run-1" t 3 in_progress 0
                     None None None None None None]> (workflows initial) /\
    tasks
      (mkService
         (<["run-1" := mkWorkflow "run-1" " Trade" 3 in_progress 0
                          None None None None None None]> ∅)
         [mkTask "run-1" " Trade" 3 false] []) =
      tasks initial ++ [mkTask "run-1" t 3 false].
Proof.
  apply (generateReport_starts_run createPrompt reportPrompt introPrompt
           true (Some " Trade") "run-1" 0 initial
           (mkService
              (<["run-1" := mkWorkflow "run-1" " Trade" 3 in_progress 0
                               None None None None None None]> ∅)
              [mkTask "run-1" " Trade" 3 false] [])
           (Rendered 200 "report_progress.html" None)).
  - discriminate.
  - reflexivity.
Defined.

(** ** The saved files and their download *)

(** a dot stays a dot and nothing becomes one *)
Lemma safeChar_dot x : Ascii.eqb "." (safeChar x) = Ascii.eqb "." x.
Proof.
  unfold safeChar. destruct (isUnsafe x) eqn:E; [|reflexivity].
  destruct (Ascii.eqb "." x) eqn:Ex; [|reflexivity].
  apply Ascii.eqb_eq in Ex. subst x. discriminate E.
Qed.

Lemma underscore_dot x : Ascii.eqb "." (underscore x) = Ascii.eqb "." x.
Proof.
  unfold underscore. destruct (Ascii.eqb " " x) eqn:E; [|reflexivity].
  apply Ascii.eqb_eq in E. subst x. reflexivity.
Qed.

Lemma safeChar_slash x : Ascii.eqb "/" (safeChar x) = false.
Proof.
  unfold safeChar. destruct (isUnsafe x) eqn:E; [reflexivity|].
  destruct (Ascii.eqb "/" x) eqn:Ex; [|reflexivity].
  apply Ascii.eqb_eq in Ex. subst x. discriminate E.
Qed.

Lemma underscore_slash x : Ascii.eqb "/" (underscore x) = Ascii.eqb "/" x.
Proof.
  unfold underscore. destruct (Ascii.eqb " " x) eqn:E; [|reflexivity].
  apply Ascii.eqb_eq in E. subst x. reflexivity.
Qed.

Lemma stampChar_dot x : Ascii.eqb "." (stampChar x) = false.
Proof.
  unfold stampChar. destruct (isColonOrDot x) eqn:E; [reflexivity|].
  destruct (Ascii.eqb "." x) eqn:Ex; [|reflexivity].
  apply Ascii.eqb_eq in Ex. subst x. discriminate E.
Qed.

Lemma stampChar_slash x : Ascii.eqb "/" (stampChar x) = Ascii.eqb "/" x.
Proof.
  unfold stampChar. destruct (isColonOrDot x) eqn:E; [|reflexivity].
  destruct (Ascii.eqb "/" x) eqn:Ex; [|reflexivity].
  apply Ascii.eqb_eq in Ex. subst x. discriminate E.
Qed.

Lemma safeTopic_maps topic :
  replaceAllRe false (Lit " ") (replaceAllRe false (Class isUnsafe) topic "_") "_"
  = mapChars underscore (mapChars safeChar topic).
Proof. rewrite replaceAllRe_class, replaceAllRe_lit. reflexivity. Qed.

Lemma timestampOf_spec iso :
  timestampOf iso = replace (mapChars stampChar iso) "T" "_" /\
  includes (timestampOf iso) "." = false /\
  (includes iso "/" = false -> includes (timestampOf iso) "/" = false).
Proof.
  assert (Hdot : includes (replace (mapChars stampChar iso) "T" "_") "." = false).
  { apply includes_replace_char; [reflexivity|].
    apply includes_mapChars_none, stampChar_dot. }
  assert (Heq : timestampOf iso = replace (mapChars stampChar iso) "T" "_").
  { unfold timestampOf. rewrite replaceAllRe_class.
    fold stampChar. change (fun c => stampChar c) with stampChar.
    rewrite split_none by exact Hdot. reflexivity. }
  rewrite Heq. split; [reflexivity|]. split; [exact Hdot|].
  intros Hiso. apply includes_replace_char; [reflexivity|].
  rewrite includes_mapChars_char by apply stampChar_slash. exact Hiso.
Qed.

Lemma formatName_plain format :
  includes (formatName format) "/" = false /\
  includes ("." +:+ formatName format) ".." = false /\
  lastDot (formatName format) = None.
Proof. destruct format; repeat split; reflexivity. Qed.

Lemma fileNameOf_slash topic iso format :
  includes iso "/" = false -> includes (fileNameOf topic iso format) "/" = false.
Proof.
  intros Hiso. unfold fileNameOf, baseNameOf. cbv zeta.
  rewrite safeTopic_maps, !includes_char_app.
  rewrite includes_mapChars_char by apply underscore_slash.
  rewrite includes_mapChars_none by apply safeChar_slash.
  destruct (timestampOf_spec iso) as (_ & _ & Hts). rewrite (Hts Hiso).
  destruct (formatName_plain format) as (-> & _). reflexivity.
Qed.

Lemma fileNameOf_dots topic iso format :
  includes (fileNameOf topic iso format) ".." = includes topic "..".
Proof.
  unfold fileNameOf, baseNameOf. cbv zeta.
  rewrite safeTopic_maps, !append_assoc.
  change ("_" +:+ timestampOf iso +:+ "." +:+ formatName format)
    with (String "_" (timestampOf iso +:+ "." +:+ formatName format)).
  rewrite includes_pair_app_other by reflexivity.
  destruct (timestampOf_spec iso) as (_ & Hdot & _).
  rewrite (includes_pair_app "." (timestampOf iso)) by exact Hdot.
  destruct (formatName_plain format) as (_ & -> & _). rewrite orb_false_r.
  rewrite includes_mapChars_pair by apply underscore_dot.
  apply includes_mapChars_pair, safeChar_dot.
Qed.

Lemma baseNameOf_nonempty topic iso :
  exists c s, baseNameOf topic iso = String c s.
Proof.
  unfold baseNameOf. cbv zeta.
  destruct (replaceAllRe false (Lit " ") _ "_") as [|c s].
  - eexists _, _. reflexivity.
  - eexists _, _. reflexivity.
Qed.

(** The name the feedback page is given is the name of the file. *)
Lemma lastSegment_saved rootDir topic iso format :
  includes iso "/" = false ->
  lastSegment (saveReport_filePath rootDir topic iso format) =
  fileNameOf topic iso format.
Proof.
  intros Hiso. unfold lastSegment, saveReport_filePath. cbv zeta.
  rewrite !append_assoc.
  change ("/" +:+ baseNameOf topic iso +:+ "/" +:+ fileNameOf topic iso format)
    with (String "/" (baseNameOf topic iso +:+
                      String "/" (fileNameOf topic iso format))).
  unfold split. rewrite !split_aux_last_piece.
  rewrite split_aux_none by (apply fileNameOf_slash, Hiso).
  cbn [last rev_string rev string_of_list_ascii].
  change ("" +:+ fileNameOf topic iso format) with (fileNameOf topic iso format).
  unfold orElseU, orElse. destruct (fileNameOf topic iso format); reflexivity.
Qed.

Lemma lastDot_app s e :
  lastDot e = None -> lastDot (s +:+ String "." e) = Some (String "." e).
Proof.
  intros He. induction s as [|a s IH].
  - change ("" +:+ String "." e) with (String "." e). cbn [lastDot].
    rewrite He. reflexivity.
  - change (String a s +:+ String "." e) with (String a (s +:+ String "." e)).
    cbn [lastDot]. rewrite IH. reflexivity.
Qed.

Lemma extname_fileNameOf topic iso format :
  toLowerCase (extname (fileNameOf topic iso format)) =
  "." +:+ formatName format.
Proof.
  unfold fileNameOf. destruct (baseNameOf_nonempty topic iso) as (c & s & ->).
  change (String c s +:+ "." +:+ formatName format)
    with (String c (s +:+ String "." (formatName format))).
  cbn [extname]. rewrite lastDot_app by (destruct format; reflexivity).
  destruct format; reflexivity.
Qed.

Lemma contentType_fileNameOf topic iso format :
  contentType (fileNameOf topic iso format) = contentTypeOf format.
Proof.
  unfold contentType. cbv zeta. rewrite extname_fileNameOf.
  destruct format; reflexivity.
Qed.

(** The replacements of [saveReport] neither add nor remove a character a
    header cannot carry. *)
Lemma validHeaderValue_mapChars g s :
  (forall c, validHeaderChar (g c) = validHeaderChar c) ->
  validHeaderValue (mapChars g s) = validHeaderValue s.
Proof.
  intros Hg. induction s as [|c s IH]; [reflexivity|].
  cbn [mapChars validHeaderValue]. rewrite Hg, IH. reflexivity.
Qed.

Lemma validHeaderValue_replace_char p r s :
  validHeaderChar p = true -> validHeaderChar r = true ->
  validHeaderValue (replace s (String p "") (String r "")) = validHeaderValue s.
Proof.
  intros Hp Hr. induction s as [|a s IH]; [reflexivity|].
  rewrite replace_char_cons. destruct (Ascii.eqb p a) eqn:E.
  - apply Ascii.eqb_eq in E. subst a. cbn [validHeaderValue].
    rewrite Hp, Hr. reflexivity.
  - cbn [validHeaderValue]. rewrite IH. reflexivity.
Qed.

Lemma safeChar_valid c : validHeaderChar (safeChar c) = validHeaderChar c.
Proof.
  unfold safeChar, isUnsafe. cbn [existsb].
  repeat match goal with
         | |- context [Ascii.eqb c ?x] =>
             let E := fresh "E" in
             destruct (Ascii.eqb c x) eqn:E;
             [apply Ascii.eqb_eq in E; subst c; reflexivity|]
         end.
  reflexivity.
Qed.

Lemma underscore_valid c : validHeaderChar (underscore c) = validHeaderChar c.
Proof.
  unfold underscore. destruct (Ascii.eqb " " c) eqn:E; [|reflexivity].
  apply Ascii.eqb_eq in E. subst c. reflexivity.
Qed.

Lemma stampChar_valid c : validHeaderChar (stampChar c) = validHeaderChar c.
Proof.
  unfold stampChar, isColonOrDot.
  destruct (Ascii.eqb c ":") eqn:E1;
    [apply Ascii.eqb_eq in E1; subst c; reflexivity|].
  destruct (Ascii.eqb c ".") eqn:E2;
    [apply Ascii.eqb_eq in E2; subst c; reflexivity|].
  reflexivity.
Qed.

Lemma fileNameOf_valid topic iso format :
  validHeaderValue (fileNameOf topic iso format) =
  validHeaderValue topic && validHeaderValue iso.
Proof.
  unfold fileNameOf, baseNameOf. cbv zeta.
  rewrite safeTopic_maps, !validHeaderValue_app.
  rewrite (validHeaderValue_mapChars underscore) by apply underscore_valid.
  rewrite (validHeaderValue_mapChars safeChar) by apply safeChar_valid.
  destruct (timestampOf_spec iso) as (-> & _).
  rewrite validHeaderValue_replace_char by reflexivity.
  rewrite (validHeaderValue_mapChars stampChar) by apply stampChar_valid.
  change (validHeaderValue "_") with true.
  change (validHeaderValue ".") with true.
  replace (validHeaderValue (formatName format)) with true
    by (destruct format; reflexivity).
  cbn [andb]. rewrite !andb_true_r. reflexivity.
Qed.

(** X17. The name under which a saved report is offered for download, the
    last segment of the path [saveReport] returns, is the file name built
    from the topic and the time; and the download route refuses that name,
    with the status 400 and without looking at the file system, exactly when
    the topic contains two dots in a row.  The unsafe characters of the topic
    and its spaces are replaced when the name is built, dots are not, and
    the route takes two dots for a path traversal.  The time is any text
    without a slash, as [toISOString] prints. *)
Theorem saved_report_refused_iff_dots root rootDir topic iso format :
  includes iso "/" = false ->
  let fileName := lastSegment (saveReport_filePath rootDir topic iso format) in
  fileName = fileNameOf topic iso format /\
  (download true root fileName = (Json 400 "Invalid file name", []) <->
   includes topic ".." = true).
Proof.
  intros Hiso fileName.
  assert (Hname : fileName = fileNameOf topic iso format)
    by (apply lastSegment_saved, Hiso).
  split; [exact Hname|]. rewrite Hname. unfold download. cbn [negb].
  rewrite fileNameOf_dots, (fileNameOf_slash topic iso format Hiso).
  assert (Ht : truthy (fileNameOf topic iso format) = true).
  { unfold fileNameOf. destruct (baseNameOf_nonempty topic iso) as (c & s & ->).
    reflexivity. }
  rewrite Ht. cbn [negb orb]. rewrite orb_false_r.
  destruct (includes topic ".."); [split; reflexivity|].
  split; [|discriminate].
  destruct (downloadFile root (fileNameOf topic iso format)) as [[b|] calls];
    [destruct (validHeaderValue _)|]; discriminate.
Qed.

Lemma saved_report_refused_iff_dots_witness :
  lastSegment
    (saveReport_filePath "/srv/generated_report" "What next.." someTime pdf) =
    fileNameOf "What next.." someTime pdf /\
  (download true exampleRoot
     (lastSegment
        (saveReport_filePath "/srv/generated_report" "What next.." someTime pdf))
     = (Json 400 "Invalid file name", []) <->
   includes "What next.." ".." = true).
Proof.
  apply (saved_report_refused_iff_dots exampleRoot "/srv/generated_report"
           "What next.." someTime pdf).
  reflexivity.
Defined.

(** X18. A saved report can be downloaded, unless its topic holds a
    character a header cannot carry.  When the topic has no two dots in a
    row, the time is a text without a slash and without such a character,
    and the output root can be read and holds the file, at whatever depth,
    an authenticated request for the name under which the report is offered
    reads a file of that name.  If the topic holds only TAB and the code
    units from 0x20 to 0x7E and from 0x80 on, the request is answered with
    the contents of that file, as an attachment of that name, with the
    content type of its format: the media type of word processing documents
    for a DOCX file and application/pdf for a PDF file.  If the topic holds
    another character, a line feed for one, the name holds it too and the
    request is answered with the status 500. *)
Theorem saved_report_is_served node rootDir topic iso format :
  includes iso "/" = false -> validHeaderValue iso = true ->
  includes topic ".." = false ->
  healthy node ->
  (exists d, Under (fileNameOf topic iso format) d node) ->
  let fileName := lastSegment (saveReport_filePath rootDir topic iso format) in
  exists body,
    Under fileName (Some body) node /\
    fst (download true (Some node) fileName) =
    if validHeaderValue topic
    then Send (contentTypeOf format)
           ("attachment; filename=" +:+ DQUOTE +:+ fileName +:+ DQUOTE) body
    else Json 500 (headerError "Content-Disposition").
Proof.
  intros Hiso Hvalid Hdots Hh Hu fileName.
  assert (Hname : fileName = fileNameOf topic iso format)
    by (apply lastSegment_saved, Hiso).
  rewrite Hname.
  destruct (download_finds_what_is_there node (fileNameOf topic iso format) Hh Hu)
    as (body & Hd & Hunder).
  - unfold fileNameOf. destruct (baseNameOf_nonempty topic iso) as (c & s & ->).
    discriminate.
  - rewrite fileNameOf_dots. exact Hdots.
  - apply fileNameOf_slash, Hiso.
  - exists body. split; [exact Hunder|]. rewrite Hd. unfold served.
    rewrite fileNameOf_valid, Hvalid, andb_true_r, contentType_fileNameOf.
    reflexivity.
Qed.

Lemma saved_report_is_served_witness :
  exists body,
    Under
      (lastSegment
         (saveReport_filePath "/srv/generated_report" "Trade" someTime pdf))
      (Some body) savedRoot /\
    fst (download true (Some savedRoot)
           (lastSegment
              (saveReport_filePath "/srv/generated_report" "Trade" someTime pdf)))
    = if validHeaderValue "Trade"
      then Send (contentTypeOf pdf)
             ("attachment; filename=" +:+ DQUOTE +:+
              lastSegment
                (saveReport_filePath "/srv/generated_report" "Trade" someTime
                   pdf) +:+
              DQUOTE) body
      else Json 500 (headerError "Content-Disposition").
Proof.
  apply (saved_report_is_served savedRoot "/srv/generated_report" "Trade"
           someTime pdf).
  - reflexivity.
  - reflexivity.
  - reflexivity.
  - unfold savedRoot. apply healthy_dir.
    + apply List.Forall_cons; [|apply List.Forall_nil].
      apply healthy_dir.
      * repeat (apply List.Forall_cons; [apply healthy_file|]).
        apply List.Forall_nil.
      * apply List.NoDup_cons; [|apply List.NoDup_cons; [|apply List.NoDup_nil]].
        -- intros [H|[]]. vm_compute in H. discriminate H.
        -- intros [].
    + apply List.NoDup_cons; [intros [] | apply List.NoDup_nil].
  - exists (Some "pdf bytes"). unfold savedRoot.
    eapply under_below; [left; reflexivity|].
    apply under_here. right. left. reflexivity.
Defined.

(** ** Document export, continued *)

Lemma pdfLine_first_within_witness :
  (50 <= pageHeight - bottomMargin)%Q.
Proof.
  apply (pdfLine_first_within sixPoints 800 "Item" 50).
  vm_compute. reflexivity.
Defined.

Lemma wrapped_line_overruns_witness :
  exists s1 s2 more,
    fst (pdfLine sixPoints 740 sentence) =
    Text 11 Helvetica s1 50 740 ::
    Text 11 Helvetica s2 50 (740 + lineHeight)%Q :: more /\
    (pageHeight - bottomMargin < 740 + lineHeight)%Q.
Proof.
  apply (wrapped_line_overruns sixPoints sentence 740);
    try (vm_compute; reflexivity).
  - vm_compute. discriminate.
  - vm_compute. discriminate.
Defined.

Lemma encoders_agree_on_trimmed_lines_witness :
  docxClass "## Findings" = pdfClass sixPoints "## Findings".
Proof.
  apply (encoders_agree_on_trimmed_lines sixPoints "## Findings").
  vm_compute. reflexivity.
Defined.

(** X22. A body paragraph of the DOCX document is never blank: its text is a
    line of the report, as it stands, that is not empty once trimmed and does
    not start with a heading mark. *)
Theorem saveAsDocx_no_blank_body text t :
  In (TextRunPara t) (saveAsDocx text) ->
  trim t <> "" /\ In t (split text LF) /\
  startsWith t "# " = false /\ startsWith t "## " = false /\
  startsWith t "### " = false.
Proof.
  unfold saveAsDocx. cbv zeta. rewrite in_map_iff.
  intros (line & Hp & Hin). apply list_elem_of_In, list_elem_of_filter in Hin.
  destruct Hin as [Hne Hin]. apply list_elem_of_In in Hin.
  unfold docxParagraph in Hp.
  destruct (startsWith line "# ") eqn:E1; [discriminate|].
  destruct (startsWith line "## ") eqn:E2; [discriminate|].
  destruct (startsWith line "### ") eqn:E3; [discriminate|].
  inversion Hp; subst. auto.
Qed.

Lemma saveAsDocx_no_blank_body_witness :
  trim " Body" <> "" /\
  In " Body" (split ("# Title" +:+ LF +:+ LF +:+ " Body") LF) /\
  startsWith " Body" "# " = false /\ startsWith " Body" "## " = false /\
  startsWith " Body" "### " = false.
Proof.
  apply (saveAsDocx_no_blank_body ("# Title" +:+ LF +:+ LF +:+ " Body") " Body").
  vm_compute. right. left. reflexivity.
Defined.
